(** * csv_converter.py: a shallow embedding and its verified properties

    The program converts a CSV export of a water accounting system into
    the CSV format of a billing system.  It is a sequential pipeline:
    [load_csv] twice, [convert_formats], [write_billing_csv].

    The embedding follows the source function by function.  The parts
    of the Python runtime the source calls are modelled one level down,
    because the properties of interest depend on them:

    - a [dict] is an insertion-ordered association list ([PyDict]);
    - a [set] of strings is the list of its elements, and the order in
      which a process iterates it is given by the run-time system
      ([set_iter]);
    - a text is the string of the code units of its UTF-8 form, and so
      is a text file; reading goes through the universal-newline
      translation that [open(filename)] applies by default, writing
      through the translation of line feeds to the line separator of
      the host ([TextIO]);
    - [csv.reader] is the state machine of the C module of CPython 3.11
      for the dialect the source selects (comma, double quote, doubled
      quotes, not strict, no escape character), with its guard on the
      size of a field, and [csv.writer] its QUOTE_ALL serializer
      ([Csv]);
    - [csv.DictReader] and [csv.DictWriter] are transcribed from the
      Python module ([Csv], [DictWriter]);
    - console input, the file system and the order of side effects are
      a state-and-exception monad over a [world].

    Not modelled: logging, text encodings other than UTF-8, and
    failures of the operating system other than a missing file.  The
    files of the embedding hold text.  A file whose bytes are not
    well-formed UTF-8 makes the codec utf-8-sig raise
    UnicodeDecodeError when it is read: [TextIO.is_utf8] tells the
    files that are decoded, and the statements about whatever file is
    found are made for them. *)

From Stdlib Require Import List String Ascii Bool Arith NArith Lia Permutation.
From Stdlib Require Import DecimalString.
Import ListNotations.
Local Open Scope string_scope.
Local Open Scope list_scope.

Set Implicit Arguments.

(** ** Characters and strings *)

Definition LF : ascii := "010"%char.
Definition CR : ascii := "013"%char.
Definition DQUOTE : ascii := ascii_of_nat 34.
Definition COMMA : ascii := ","%char.

Definition str1 (c : ascii) : string := String c EmptyString.

(** The line terminator the source passes to the csv writer. *)
Definition CRLF : string := String CR (str1 LF).

Fixpoint has_char (c : ascii) (s : string) : bool :=
  match s with
  | EmptyString => false
  | String c' s' => Ascii.eqb c' c || has_char c s'
  end.

(** ** Python values that occur in rows

    A cell read by [csv.DictReader] is a string, [None] (the default
    [restval] of a short row) or a list of strings (the surplus cells
    of a long row, stored under the key [None]). *)

Inductive pyval : Type :=
| PStr (s : string)
| PNone
| PList (l : list string).

Definition pyval_eq_dec (a b : pyval) : {a = b} + {a <> b}.
Proof.
  decide equality; [apply string_dec | apply (list_eq_dec string_dec)].
Defined.
Arguments pyval_eq_dec : simpl never.

(** Lists are not hashable: they cannot be keys of a [dict]. *)
Definition hashable (v : pyval) : bool :=
  match v with PList _ => false | _ => true end.

Inductive exn : Type :=
| KeyError (k : pyval)
| ValueError
| TypeError
| EOFError
| CsvError
| FileNotFoundError (name : string).

Inductive result (A : Type) : Type :=
| Ok (a : A)
| Raise (e : exn).
Arguments Ok {A} a.
Arguments Raise {A} e.

Definition rbind {A B} (r : result A) (k : A -> result B) : result B :=
  match r with
  | Ok a => k a
  | Raise e => Raise e
  end.

Declare Scope result_scope.
Delimit Scope result_scope with result.
Notation "'let!' x := c 'in' k" := (rbind c (fun x => k))
  (at level 10, x pattern, c at level 100, k at level 200) : result_scope.

(** ** Insertion-ordered dictionaries *)

Module PyDict.
Section Dict.
Context {V : Type}.

Definition t : Type := list (pyval * V).

Definition empty : t := [].

(** [d.get(k)] *)
Fixpoint get (k : pyval) (d : t) : option V :=
  match d with
  | [] => None
  | (k', v) :: d' => if pyval_eq_dec k k' then Some v else get k d'
  end.

(** [k in d.keys()] *)
Definition mem (k : pyval) (d : t) : bool :=
  match get k d with Some _ => true | None => false end.

(** [d[k]], raising [KeyError] *)
Definition getitem (k : pyval) (d : t) : result V :=
  match get k d with
  | Some v => Ok v
  | None => Raise (KeyError k)
  end.

(** [d[k] = v]: an existing key keeps its position, a new key goes
    last. *)
Fixpoint set (k : pyval) (v : V) (d : t) : t :=
  match d with
  | [] => [(k, v)]
  | (k', v') :: d' =>
      if pyval_eq_dec k k' then (k', v) :: d' else (k', v') :: set k v d'
  end.

(** [del d[k]] for a key that is present *)
Fixpoint del (k : pyval) (d : t) : t :=
  match d with
  | [] => []
  | (k', v') :: d' =>
      if pyval_eq_dec k k' then d' else (k', v') :: del k d'
  end.

Definition keys (d : t) : list pyval := map fst d.
Definition values (d : t) : list V := map snd d.
End Dict.
Arguments t : clear implicits.
End PyDict.

(** A row of a table, and the mapping table keyed by account identifier. *)
Definition record : Type := PyDict.t pyval.
Definition mapping : Type := PyDict.t record.

(** ** Text files *)

Module TextIO.

(** The byte order mark, as the three code units of its UTF-8 form;
    the codec utf-8-sig drops it at the start of a file. *)
Definition BOM : string :=
  String (ascii_of_nat 239) (String (ascii_of_nat 187) (str1 (ascii_of_nat 191))).

Definition strip_bom (s : string) : string :=
  if String.prefix BOM s then String.substring 3 (String.length s - 3) s else s.

(** The bytes the decoder of UTF-8 accepts after a first byte: for
    each byte still to come, the range it must be in.  [None] is a
    byte that starts no character. *)
Definition utf8_lead (c : ascii) : option (list (N * N)) :=
  let n := N_of_ascii c in
  if (n <=? 127)%N then Some []
  else if (194 <=? n)%N && (n <=? 223)%N then Some [(128, 191)%N]
  else if (n =? 224)%N then Some [(160, 191)%N; (128, 191)%N]
  else if (225 <=? n)%N && (n <=? 236)%N then Some [(128, 191)%N; (128, 191)%N]
  else if (n =? 237)%N then Some [(128, 159)%N; (128, 191)%N]
  else if (238 <=? n)%N && (n <=? 239)%N then Some [(128, 191)%N; (128, 191)%N]
  else if (n =? 240)%N then Some [(144, 191)%N; (128, 191)%N; (128, 191)%N]
  else if (241 <=? n)%N && (n <=? 243)%N
       then Some [(128, 191)%N; (128, 191)%N; (128, 191)%N]
  else if (n =? 244)%N then Some [(128, 143)%N; (128, 191)%N; (128, 191)%N]
  else None.

Fixpoint utf8_from (pending : list (N * N)) (s : string) : bool :=
  match s with
  | EmptyString => match pending with [] => true | _ :: _ => false end
  | String c s' =>
      match pending with
      | (lo, hi) :: rest =>
          (lo <=? N_of_ascii c)%N && (N_of_ascii c <=? hi)%N && utf8_from rest s'
      | [] =>
          match utf8_lead c with
          | Some pending' => utf8_from pending' s'
          | None => false
          end
      end
  end.

(** The bytes are well-formed UTF-8: the strict decoder that
    [open(filename, encoding='utf-8-sig')] installs does not raise
    UnicodeDecodeError on them. *)
Definition is_utf8 (content : string) : bool := utf8_from [] content.

(** Universal newlines on reading: a carriage return, with the line
    feed that follows it if any, is delivered as one line feed.
    [pendingcr] records that the previous character was a carriage
    return. *)
Fixpoint translate (pendingcr : bool) (s : string) : string :=
  match s with
  | EmptyString => EmptyString
  | String c s' =>
      if Ascii.eqb c CR then String LF (translate true s')
      else if Ascii.eqb c LF then
             if pendingcr then translate false s'
             else String LF (translate false s')
           else String c (translate false s')
  end.

(** Iterating a file yields its lines, each with its line feed. *)
Fixpoint split_lines (s : string) : list string :=
  match s with
  | EmptyString => []
  | String c s' =>
      if Ascii.eqb c LF then str1 c :: split_lines s'
      else match split_lines s' with
           | [] => [str1 c]
           | l :: ls => String c l :: ls
           end
  end.

(** [open(filename, encoding='utf-8-sig')], then iteration, for a
    file that holds UTF-8 text. *)
Definition read_lines (content : string) : list string :=
  split_lines (translate false (strip_bom content)).

(** [open(filename, 'w')] translates each line feed written to
    [os.linesep]. *)
Fixpoint write_text (linesep : string) (s : string) : string :=
  match s with
  | EmptyString => EmptyString
  | String c s' =>
      if Ascii.eqb c LF then linesep ++ write_text linesep s'
      else String c (write_text linesep s')
  end.

End TextIO.

(** ** The csv module, for the dialect of the source *)

(** [csv.field_size_limit()], which the source leaves at its default. *)
Definition field_size_limit : N := 131072.

Module Csv.

(** *** csv.writer with QUOTE_ALL *)

Fixpoint double_quotes (s : string) : string :=
  match s with
  | EmptyString => EmptyString
  | String c s' =>
      if Ascii.eqb c DQUOTE then String DQUOTE (String DQUOTE (double_quotes s'))
      else String c (double_quotes s')
  end.

Definition quoted (s : string) : string :=
  String DQUOTE (double_quotes s ++ str1 DQUOTE).

Fixpoint join_fields (cells : list string) : string :=
  match cells with
  | [] => EmptyString
  | [c] => quoted c
  | c :: cs => quoted c ++ String COMMA (join_fields cs)
  end.

(** One call of [writer.writerow] on cells already turned to text. *)
Definition writerow (cells : list string) : string :=
  join_fields cells ++ CRLF.

(** *** csv.reader *)

Inductive ParserState : Type :=
| START_RECORD
| START_FIELD
| IN_FIELD
| IN_QUOTED_FIELD
| QUOTE_IN_QUOTED_FIELD
| EAT_CRNL.

Definition state_eqb (a b : ParserState) : bool :=
  match a, b with
  | START_RECORD, START_RECORD | START_FIELD, START_FIELD
  | IN_FIELD, IN_FIELD | IN_QUOTED_FIELD, IN_QUOTED_FIELD
  | QUOTE_IN_QUOTED_FIELD, QUOTE_IN_QUOTED_FIELD | EAT_CRNL, EAT_CRNL => true
  | _, _ => false
  end.

Record Reader : Type := mkReader {
  state : ParserState;
  field : string;          (* characters of the field being read *)
  fields : list string     (* fields of the record being read *)
}.

(** What [parse_process_char] is given: a character of the line, or
    the end-of-line marker the reader feeds after each line. *)
Inductive input : Type :=
| Ch (c : ascii)
| EOL.

Definition parse_reset : Reader := mkReader START_RECORD EmptyString [].

(** A code unit that continues a character of UTF-8 text: the bits
    are 10xxxxxx. *)
Definition is_continuation (c : ascii) : bool :=
  match c with Ascii _ _ _ _ _ _ b6 b7 => b7 && negb b6 end.

(** The number of characters of a text: of code units that start
    one. *)
Fixpoint code_points (s : string) : nat :=
  match s with
  | EmptyString => O
  | String c s' =>
      if is_continuation c then code_points s' else S (code_points s')
  end.

(** The reader counts the characters of the field it reads and raises
    when one more is added to a field that has reached the limit.  The
    check is made where a character starts. *)
Definition parse_add_char (r : Reader) (c : ascii) : result Reader :=
  if negb (is_continuation c)
     && (field_size_limit <=? N.of_nat (code_points (field r)))%N
  then Raise CsvError
  else Ok (mkReader (state r) (field r ++ str1 c) (fields r)).

Definition parse_save_field (r : Reader) : Reader :=
  mkReader (state r) EmptyString (fields r ++ [field r]).

Definition with_state (s : ParserState) (r : Reader) : Reader :=
  mkReader s (field r) (fields r).

(** The state the parser is put in when the character is added. *)
Definition add_char_then (s : ParserState) (r : Reader) (c : ascii) : result Reader :=
  match parse_add_char r c with
  | Ok r' => Ok (with_state s r')
  | Raise e => Raise e
  end.

Definition is_newline (c : ascii) : bool := Ascii.eqb c LF || Ascii.eqb c CR.

Definition after_line_end (c : input) : ParserState :=
  match c with EOL => START_RECORD | Ch _ => EAT_CRNL end.

Definition ends_line (c : input) : bool :=
  match c with EOL => true | Ch c => is_newline c end.

Definition is_char (x : ascii) (c : input) : bool :=
  match c with EOL => false | Ch c => Ascii.eqb c x end.

(** The case START_FIELD, which START_RECORD falls through to. *)
Definition start_field (r : Reader) (c : input) : result Reader :=
  if ends_line c then
    Ok (with_state (after_line_end c) (parse_save_field r))
  else if is_char DQUOTE c then Ok (with_state IN_QUOTED_FIELD r)
  else if is_char COMMA c then Ok (parse_save_field r)
  else match c with
       | Ch x => add_char_then IN_FIELD r x
       | EOL => Ok r
       end.

Definition parse_process_char (r : Reader) (c : input) : result Reader :=
  match state r with
  | START_RECORD =>
      match c with
      | EOL => Ok r
      | Ch x =>
          if is_newline x then Ok (with_state EAT_CRNL r)
          else start_field (with_state START_FIELD r) c
      end
  | START_FIELD => start_field r c
  | IN_FIELD =>
      if ends_line c then
        Ok (with_state (after_line_end c) (parse_save_field r))
      else if is_char COMMA c then
        Ok (with_state START_FIELD (parse_save_field r))
      else match c with
           | Ch x => parse_add_char r x
           | EOL => Ok r
           end
  | IN_QUOTED_FIELD =>
      match c with
      | EOL => Ok r
      | Ch x =>
          if Ascii.eqb x DQUOTE then Ok (with_state QUOTE_IN_QUOTED_FIELD r)
          else parse_add_char r x
      end
  | QUOTE_IN_QUOTED_FIELD =>
      if is_char DQUOTE c then
        match c with
        | Ch x => add_char_then IN_QUOTED_FIELD r x
        | EOL => Ok r
        end
      else if is_char COMMA c then
        Ok (with_state START_FIELD (parse_save_field r))
      else if ends_line c then
        Ok (with_state (after_line_end c) (parse_save_field r))
      else match c with
           | Ch x => add_char_then IN_FIELD r x
           | EOL => Ok r
           end
  | EAT_CRNL =>
      match c with
      | EOL => Ok (with_state START_RECORD r)
      | Ch x => if is_newline x then Ok r else Raise CsvError
      end
  end.

(** The inner loop of [Reader_iternext] over one line. *)
Fixpoint process_line (r : Reader) (line : string) : result Reader :=
  match line with
  | EmptyString => Ok r
  | String c line' =>
      (let! r1 := parse_process_char r (Ch c) in process_line r1 line')%result
  end.

(** All the rows [Reader_iternext] returns over the lines of a file.
    Each call resets the parser, then consumes lines until the
    parser is back at START_RECORD; when the lines run out inside a
    record, the record read so far is returned. *)
Fixpoint reader (r : Reader) (lines : list string) : result (list (list string)) :=
  match lines with
  | [] =>
      if negb (String.eqb (field r) EmptyString)
         || state_eqb (state r) IN_QUOTED_FIELD
      then Ok [fields (parse_save_field r)]
      else Ok []
  | line :: lines' =>
      (let! r1 := process_line r line in
       let! r2 := parse_process_char r1 EOL in
       if state_eqb (state r2) START_RECORD then
         let! rows := reader parse_reset lines' in Ok (fields r2 :: rows)
       else reader r2 lines')%result
  end.

(** The rows the reader has returned when it raises, or all its rows
    when it does not: the loop of the source takes them as they come. *)
Fixpoint yielded (r : Reader) (lines : list string) : list (list string) :=
  match lines with
  | [] =>
      if negb (String.eqb (field r) EmptyString)
         || state_eqb (state r) IN_QUOTED_FIELD
      then [fields (parse_save_field r)]
      else []
  | line :: lines' =>
      match (let! r1 := process_line r line in parse_process_char r1 EOL)%result with
      | Raise _ => []
      | Ok r2 =>
          if state_eqb (state r2) START_RECORD then fields r2 :: yielded parse_reset lines'
          else yielded r2 lines'
      end
  end.

(** *** csv.DictReader *)

Definition zip_dict (names row : list string) : record :=
  fold_left (fun d kv => PyDict.set (PStr (fst kv)) (PStr (snd kv)) d)
            (combine names row) PyDict.empty.

Definition DictReader_next (fieldnames row : list string) : record :=
  let d := zip_dict fieldnames row in
  let lf := List.length fieldnames in
  let lr := List.length row in
  if (lf <? lr)%nat then PyDict.set PNone (PList (skipn lf row)) d
  else if (lr <? lf)%nat then
    fold_left (fun d k => PyDict.set (PStr k) PNone d) (skipn lr fieldnames) d
  else d.

Definition is_blank (row : list string) : bool :=
  match row with [] => true | _ => false end.

(** The first row names the fields; blank rows after it are skipped. *)
Definition DictReader (rows : list (list string)) : list record :=
  match rows with
  | [] => []
  | fieldnames :: rows' =>
      map (DictReader_next fieldnames) (filter (fun r => negb (is_blank r)) rows')
  end.

End Csv.

(** ** What the run-time system decides

    The source leaves four things to the Python run-time system and its
    host: the order in which a [set] of strings is iterated (it depends
    on the hash seed of the process), the text [str] makes of a list,
    the line separator of the host and the reading of the clock. *)

Record datetime : Type := mkDatetime {
  year : N; month : N; day : N; hour : N; minute : N
}.

Record runtime : Type := mkRuntime {
  set_iter : list string -> list string;
  str_of_list : list string -> string;
  os_linesep : string;
  now : datetime
}.

(** Iterating a set visits each of its elements once. *)
Definition iter_ok (rt : runtime) (s : list string) : Prop :=
  Permutation (set_iter rt s) s.

(** ** The world: files, console input, and the effects so far *)

Inductive event : Type :=
| EvPrompt (id name : pyval)
| EvWrite (filename content : string)
| EvTouch (filename : string).

Record world : Type := mkWorld {
  fs : string -> option string;
  stdin : list string;
  trace : list event
}.

Definition fs_put (name content : string) (f : string -> option string)
  : string -> option string :=
  fun n => if String.eqb n name then Some content else f n.

Definition M (A : Type) : Type := world -> result A * world.

Definition ret {A} (a : A) : M A := fun w => (Ok a, w).

Definition bind {A B} (c : M A) (k : A -> M B) : M B :=
  fun w => match c w with
           | (Ok a, w') => k a w'
           | (Raise e, w') => (Raise e, w')
           end.

Definition lift {A} (r : result A) : M A := fun w => (r, w).

Declare Scope monad_scope.
Delimit Scope monad_scope with monad.
Notation "x <- c ;; k" := (bind c (fun x => k))
  (at level 61, c at next level, right associativity) : monad_scope.
Local Open Scope monad_scope.

Definition emit (ev : event) (w : world) : world :=
  mkWorld (fs w) (stdin w) (trace w ++ [ev]).

(** ** Variables of the source *)

Definition SOURCE_HEADERS : list string :=
  ["No"; "Customer ID"; "Company Name"; "Flat Charge"; "Current Volume";
   "Current Amount"; "YTD Volume"; "YTD Amount"].

Definition MAPPING_HEADERS : list string :=
  ["Customer ID"; "Company Name"; "Account Number"].

Definition ACCOUNT_KEY : string := "Customer ID".

Definition FIELD_NAME_CHANGE : list (string * string) :=
  [("SOURCE_FIELD_NAME", "DESTINATION_FIELD_NAME")].

Definition BILLING_HEADERS : list string :=
  ["No"; "Customer ID"; "Company Name"; "Account Number"; "Flat Charge";
   "Current Volume"; "Current Amount"; "YTD Volume"; "YTD Amount"].

Definition DEFAULT_SOURCE_CSV_FILENAME : string := "accounting.csv".
Definition DEFAULT_MAPPING_CSV_FILENAME : string := "account_mapping.csv".
Definition DEFAULT_DEST_CSV_FILENAME_PREFIX : string := "billing_".
Definition DEFAULT_DEST_CSV_FILENAME : string :=
  DEFAULT_DEST_CSV_FILENAME_PREFIX ++ "YYYYMMDD_HHMM.csv".

(** ** csv.DictWriter *)

Module DictWriter.

Definition in_fieldnames (fieldnames : list string) (k : pyval) : bool :=
  match k with
  | PStr s => existsb (String.eqb s) fieldnames
  | _ => false
  end.

(** [rowdict.keys() - self.fieldnames] *)
Definition wrong_fields (fieldnames : list string) (rowdict : record) : list pyval :=
  filter (fun k => negb (in_fieldnames fieldnames k)) (PyDict.keys rowdict).

Definition restval : pyval := PStr EmptyString.

Definition dict_to_list (rt : runtime) (fieldnames : list string) (rowdict : record)
  : result (list pyval) :=
  match wrong_fields fieldnames rowdict with
  | [] =>
      Ok (map (fun key => match PyDict.get (PStr key) rowdict with
                          | Some v => v
                          | None => restval
                          end)
              (set_iter rt fieldnames))
  | _ :: _ => Raise ValueError
  end.

(** The text the csv writer makes of one cell. *)
Definition cell_text (rt : runtime) (v : pyval) : string :=
  match v with
  | PStr s => s
  | PNone => EmptyString
  | PList l => str_of_list rt l
  end.

Definition writerow (rt : runtime) (fieldnames : list string) (rowdict : record)
  : result string :=
  (let! cells := dict_to_list rt fieldnames rowdict in
   Ok (Csv.writerow (map (cell_text rt) cells)))%result.

Definition header (rt : runtime) (fieldnames : list string) : record :=
  Csv.zip_dict (set_iter rt fieldnames) (set_iter rt fieldnames).

Definition writeheader (rt : runtime) (fieldnames : list string) : result string :=
  writerow rt fieldnames (header rt fieldnames).

(** [writerows] writes row after row; the rows before one that raises
    are written. *)
Fixpoint writerows (rt : runtime) (fieldnames : list string) (rowdicts : list record)
  : string * option exn :=
  match rowdicts with
  | [] => (EmptyString, None)
  | rowdict :: rest =>
      match writerow rt fieldnames rowdict with
      | Raise e => (EmptyString, Some e)
      | Ok line =>
          let (text, err) := writerows rt fieldnames rest in ((line ++ text)%string, err)
      end
  end.

End DictWriter.

(** ** Functions of the source *)

(** Line 209.  The file is truncated when it is opened and holds what
    was written when the [with] block is left, also when a row raises. *)
Definition write_csv (rt : runtime) (filename : string) (headers : list string)
  (dataset : list record) : M bool :=
  fun w =>
    let (text, err) :=
      match DictWriter.writeheader rt headers with
      | Raise e => (EmptyString, Some e)
      | Ok head =>
          let (body, err) := DictWriter.writerows rt headers dataset in
          ((head ++ body)%string, err)
      end in
    let content := TextIO.write_text (os_linesep rt) text in
    let w' := emit (EvWrite filename content)
                (mkWorld (fs_put filename content (fs w)) (stdin w) (trace w)) in
    match err with
    | None => (Ok true, w')
    | Some e => (Raise e, w')
    end.

(** What [load_csv] returns: a list of rows, or a dict of rows. *)
Inductive dataset : Type :=
| DList (rows : list record)
| DDict (table : mapping).

(** [dataset[row[ACCOUNT_KEY]] = row], row after row. *)
Fixpoint load_dict (rows : list record) (table : mapping) : result mapping :=
  match rows with
  | [] => Ok table
  | row :: rows' =>
      (let! key := PyDict.getitem (PStr ACCOUNT_KEY) row in
       if hashable key then load_dict rows' (PyDict.set key row table)
       else Raise TypeError)%result
  end.

(** Lines 154 to 178, on the text of the file that was opened.  The
    loop takes the rows as the reader yields them: a row that cannot
    be stored raises before an error the reader meets in a later
    line, and that error is raised when the rows before it have been
    stored. *)
Definition read_dataset (content : string) (load_as_dict : bool) : result dataset :=
  let lines := TextIO.read_lines content in
  let csv_reader := Csv.DictReader (Csv.yielded Csv.parse_reset lines) in
  if load_as_dict then
    (let! table := load_dict csv_reader PyDict.empty in
     let! _ := Csv.reader Csv.parse_reset lines in
     Ok (DDict table))%result
  else
    (let! _ := Csv.reader Csv.parse_reset lines in
     Ok (DList csv_reader))%result.

(** Line 149.  [headers] is not used by the source either. *)
Definition load_csv (filename : string) (headers : list string) (load_as_dict : bool)
  : M dataset :=
  fun w =>
    match fs w filename with
    | None => (Raise (FileNotFoundError filename), w)
    | Some content => (read_dataset content load_as_dict, w)
    end.

(** Line 181.  The operator's answers are the lines of [stdin]. *)
Definition prompt_user_for_account (id name : pyval) : M string :=
  fun w =>
    match stdin w with
    | [] => (Raise EOFError, emit (EvPrompt id name) w)
    | answer :: rest =>
        (Ok answer, emit (EvPrompt id name) (mkWorld (fs w) rest (trace w)))
    end.

(** Lines 139 to 142. *)
Definition rename_fields (row : record) : record :=
  fold_left
    (fun row sd =>
       match PyDict.get (PStr (fst sd)) row with
       | Some v => PyDict.del (PStr (fst sd)) (PyDict.set (PStr (snd sd)) v row)
       | None => row
       end)
    FIELD_NAME_CHANGE row.

(** The body of the loop of [convert_formats], lines 121 to 142. *)
Definition convert_row (rt : runtime) (row : record) (mapping_data : mapping)
  : M (record * mapping) :=
  key <- lift (PyDict.getitem (PStr ACCOUNT_KEY) row) ;;
  _ <- lift (if hashable key then Ok tt else Raise TypeError) ;;
  rm <-
    (if negb (PyDict.mem key mapping_data) then
       id <- lift (PyDict.getitem (PStr "Customer ID") row) ;;
       name <- lift (PyDict.getitem (PStr "Company Name") row) ;;
       answer <- prompt_user_for_account id name ;;
       let row := PyDict.set (PStr "Account Number") (PStr answer) row in
       cid <- lift (PyDict.getitem (PStr "Customer ID") row) ;;
       cname <- lift (PyDict.getitem (PStr "Company Name") row) ;;
       acct <- lift (PyDict.getitem (PStr "Account Number") row) ;;
       let entry : record :=
         [(PStr "Customer ID", cid); (PStr "Company Name", cname);
          (PStr "Account Number", acct)] in
       let mapping_data := PyDict.set key entry mapping_data in
       _ <- write_csv rt DEFAULT_MAPPING_CSV_FILENAME MAPPING_HEADERS
              (PyDict.values mapping_data) ;;
       ret (row, mapping_data)
     else
       entry <- lift (PyDict.getitem key mapping_data) ;;
       acct <- lift (PyDict.getitem (PStr "Account Number") entry) ;;
       ret (PyDict.set (PStr "Account Number") acct row, mapping_data)) ;;
  ret (rename_fields (fst rm), snd rm).

(** Line 112.  The rows are changed in place and the list is returned;
    the mapping table is changed in place too, so it is returned here. *)
Fixpoint convert_formats (rt : runtime) (accounting_data : list record)
  (mapping_data : mapping) : M (list record * mapping) :=
  match accounting_data with
  | [] => ret ([], mapping_data)
  | row :: rest =>
      rm <- convert_row rt row mapping_data ;;
      dm <- convert_formats rt rest (snd rm) ;;
      ret (fst rm :: fst dm, snd dm)
  end.

(** [timestamp.strftime] with the format of line 201: year, month,
    day, an underscore, hour, minute, each a decimal number padded
    with zeros to its width.  (Below the year 1000 the padding of the
    year depends on the C library; no clock reads such a year.) *)
Definition zero_pad (width : nat) (n : N) : string :=
  let s := NilZero.string_of_uint (N.to_uint n) in
  String.concat EmptyString (repeat "0" (width - String.length s)) ++ s.

Definition strftime (t : datetime) : string :=
  zero_pad 4 (year t) ++ zero_pad 2 (month t) ++ zero_pad 2 (day t) ++ "_"
  ++ zero_pad 2 (hour t) ++ zero_pad 2 (minute t).

(** Lines 198 to 204. *)
Definition billing_filename (rt : runtime) (user_filename : string) : string :=
  if String.eqb user_filename DEFAULT_DEST_CSV_FILENAME then
    DEFAULT_DEST_CSV_FILENAME_PREFIX ++ strftime (now rt) ++ ".csv"
  else user_filename.

(** Line 190. *)
Definition write_billing_csv (rt : runtime) (data : list record)
  (user_filename : string) : M bool :=
  write_csv rt (billing_filename rt user_filename) BILLING_HEADERS data.

Record args : Type := mkArgs {
  source_csv_filename : string;
  dest_csv_filename : string
}.

(** [Path(name).touch()] when the file is missing. *)
Definition touch_if_missing (name : string) : M unit :=
  fun w =>
    match fs w name with
    | Some _ => (Ok tt, w)
    | None =>
        (Ok tt, emit (EvTouch name)
                  (mkWorld (fs_put name EmptyString (fs w)) (stdin w) (trace w)))
    end.

(** Line 264, without the logging.  The [json.dumps] of lines 288 and
    301 is evaluated whatever the log level; it accepts everything
    [load_csv] returns and has no effect. *)
Definition main (rt : runtime) (a : args) : M bool :=
  this_months_data <- load_csv (source_csv_filename a) SOURCE_HEADERS false ;;
  _ <- touch_if_missing DEFAULT_MAPPING_CSV_FILENAME ;;
  account_mapping <- load_csv DEFAULT_MAPPING_CSV_FILENAME MAPPING_HEADERS true ;;
  match this_months_data, account_mapping with
  | DList rows, DDict table =>
      processed_data <- convert_formats rt rows table ;;
      write_billing_csv rt (fst processed_data) (dest_csv_filename a)
  | _, _ => lift (Raise TypeError)
  end.

(** * Vocabulary of the statements *)

(** ** The text of a table *)

(** The cells of a row, in the order the header set is iterated. *)
Definition row_cells (rt : runtime) (headers : list string) (r : record) : list string :=
  map (fun key => DictWriter.cell_text rt
                    (match PyDict.get (PStr key) r with
                     | Some v => v
                     | None => DictWriter.restval
                     end))
      (set_iter rt headers).

(** One line for each row, in the order of the rows. *)
Definition rows_text (rt : runtime) (headers : list string) (rows : list record) : string :=
  String.concat EmptyString (map (fun r => Csv.writerow (row_cells rt headers r)) rows).

(** The text of a table: the header line, then the lines of the rows. *)
Definition table_text (rt : runtime) (headers : list string) (rows : list record) : string :=
  (Csv.writerow (set_iter rt headers) ++ rows_text rt headers rows)%string.

(** The text the writer makes of rows of cells. *)
Definition lines_text (cellss : list (list string)) : string :=
  String.concat EmptyString (map Csv.writerow cellss).

(** What the mapping file holds after the table is written to it. *)
Definition MAPPING_FILE_TEXT (rt : runtime) (table : mapping) : string :=
  TextIO.write_text (os_linesep rt)
    (table_text rt MAPPING_HEADERS (PyDict.values table)).

(** ** The text of a CSV file, as the specification describes it

    A quoted, comma-delimited, CRLF-terminated file: every cell stands
    between double quotes, a double quote inside a cell is written
    twice, the cells of a row are separated by commas, and every row
    is ended by a carriage return and a line feed.  The file is
    written in text mode, so a line feed, of the end of a row or
    inside a cell, reaches the file as the line separator of the
    host. *)

Module FileFormat.

Definition char_text (linesep : string) (c : ascii) : string :=
  if Ascii.eqb c DQUOTE then String DQUOTE (str1 DQUOTE)
  else if Ascii.eqb c LF then linesep
  else str1 c.

Definition cell_text (linesep cell : string) : string :=
  (str1 DQUOTE
   ++ String.concat EmptyString (map (char_text linesep) (list_ascii_of_string cell))
   ++ str1 DQUOTE)%string.

Definition row_text (linesep : string) (cells : list string) : string :=
  (String.concat (str1 COMMA) (map (cell_text linesep) cells)
   ++ str1 CR ++ linesep)%string.

Definition text (linesep : string) (rows : list (list string)) : string :=
  String.concat EmptyString (map (row_text linesep) rows).

End FileFormat.

(** What a cell shows of a field of a row: a string as it is, nothing
    for None and for a field the row does not have, and what [str]
    makes of a list. *)
Definition field_text (rt : runtime) (r : record) (h : string) : string :=
  match PyDict.get (PStr h) r with
  | Some (PStr x) => x
  | Some (PList l) => str_of_list rt l
  | Some PNone => EmptyString
  | None => EmptyString
  end.

(** The cells of a row, one for each header, in the order in which the
    process iterates the header set. *)
Definition cells_of (rt : runtime) (headers : list string) (r : record) : list string :=
  map (field_text rt r) (set_iter rt headers).

(** The file of a table: a row that names the headers, then one row
    for each record, in the order of the records. *)
Definition csv_file (rt : runtime) (headers : list string) (rows : list record) : string :=
  FileFormat.text (os_linesep rt)
    (set_iter rt headers :: map (cells_of rt headers) rows).

(** ** Fields of a row *)

(** No field of the row is outside the headers: the row serializer does
    not raise. *)
Definition fields_ok (headers : list string) (r : record) : Prop :=
  DictWriter.wrong_fields headers r = [].

(** The field names of the row are exactly the headers. *)
Definition has_fields (headers : list string) (r : record) : Prop :=
  forall k, In k (PyDict.keys r) <-> In k (map PStr headers).

(** Under a field name, DictReader stores a string or None. *)
Definition string_fields_hashable (d : record) : Prop :=
  forall s v, PyDict.get (PStr s) d = Some v -> hashable v = true.

Definition no_cr (cells : list string) : Prop :=
  forall c, In c cells -> has_char CR c = false.

Definition str_pair (kv : string * string) : pyval * pyval :=
  (PStr (fst kv), PStr (snd kv)).

(** ** Enrichment *)

(** One pair of the rename table applied to a row (lines 140 to 142). *)
Definition rename_step (row : record) (sd : string * string) : record :=
  match PyDict.get (PStr (fst sd)) row with
  | Some v => PyDict.del (PStr (fst sd)) (PyDict.set (PStr (snd sd)) v row)
  | None => row
  end.

(** The rename table names the field neither as a source nor as a
    destination. *)
Definition untouched_by_rename (k : pyval) : Prop :=
  forall s d, In (s, d) FIELD_NAME_CHANGE -> k <> PStr s /\ k <> PStr d.

(** The entry line 129 stores in the mapping table. *)
Definition new_entry (id name : pyval) (answer : string) : record :=
  [(PStr "Customer ID", id); (PStr "Company Name", name);
   (PStr "Account Number", PStr answer)].

(** The rows [done] were processed before the run [r] of the rows
    after them. *)
Definition continue_with (done : list record)
  (r : result (list record * mapping) * world) : result (list record * mapping) * world :=
  match r with
  | (Ok (rows, table), w) => (Ok (done ++ rows, table), w)
  | (Raise e, w) => (Raise e, w)
  end.

(** The Account Number the table stores for the identifier of a row. *)
Definition stored_account (table : mapping) (row : record) : option pyval :=
  match PyDict.get (PStr ACCOUNT_KEY) row with
  | Some id =>
      if hashable id then
        match PyDict.get id table with
        | Some entry => PyDict.get (PStr "Account Number") entry
        | None => None
        end
      else None
  | None => None
  end.

(** A row as enrichment leaves it when its identifier is mapped. *)
Definition enrich (table : mapping) (row : record) : record :=
  rename_fields
    (PyDict.set (PStr "Account Number")
       (match stored_account table row with Some a => a | None => PNone end) row).

(** ** Loading as a dict *)

Definition account_key_is (k : pyval) (r : record) : bool :=
  match PyDict.get (PStr ACCOUNT_KEY) r with
  | Some k' => if pyval_eq_dec k' k then true else false
  | None => false
  end.

(** The last row, in the order of the file, whose account key is [k]. *)
Definition last_with_key (k : pyval) (rows : list record) : option record :=
  find (account_key_is k) (rev rows).

(** ** The stamp in the name of the destination file *)

Definition digit (n : N) : ascii := ascii_of_N (48 + n mod 10).

Definition two_digits (n : N) : string :=
  String (digit (n / 10)) (str1 (digit n)).

Definition four_digits (n : N) : string :=
  String (digit (n / 1000)) (String (digit (n / 100)) (two_digits n)).

(** The stamp as the specification words it: the year on four digits,
    the month and the day on two, an underscore, the hour and the
    minute on two. *)
Definition YYYYMMDD_HHMM (t : datetime) : string :=
  (four_digits (year t) ++ two_digits (month t) ++ two_digits (day t) ++ "_"
   ++ two_digits (hour t) ++ two_digits (minute t))%string.

(** What a clock can read, from the year 1000 on. *)
Definition valid_clock (t : datetime) : Prop :=
  (1000 <= year t <= 9999 /\ 1 <= month t <= 12 /\ 1 <= day t <= 31
   /\ hour t <= 23 /\ minute t <= 59)%N.

(** [f] holds of every number whose binary digits above the lowest
    [k] are those of [high]. *)
Fixpoint all_below (k : nat) (f : N -> bool) (high : N) : bool :=
  match k with
  | O => f high
  | S k' => all_below k' f (N.double high) && all_below k' f (N.succ_double high)
  end.

(** ** Writing a table and reading it *)

(** The reader in the middle of a line whose rest, with the lines
    after it, is the text [s]. *)
Definition reader_mid (r : Csv.Reader) (s : string) : result (list (list string)) :=
  match TextIO.split_lines s with
  | [] => Csv.reader r [EmptyString]
  | l :: ls => Csv.reader r (l :: ls)
  end.

(** A text of no more characters than the reader allows in a field. *)
Definition within_field_limit (s : string) : Prop :=
  (N.of_nat (Csv.code_points s) <= field_size_limit)%N.

Definition cells_within_field_limit (cells : list string) : Prop :=
  forall c, In c cells -> within_field_limit c.

(** The line separators of the hosts Python runs on. *)
Definition known_linesep (sep : string) : Prop :=
  sep = str1 LF \/ sep = CRLF.

(** On a host whose line separator is CR LF, the line terminator of
    the csv writer comes back as two line feeds, and the reader
    returns a blank row after each row. *)
Definition extra_blank (sep : string) : string :=
  if String.eqb sep CRLF then str1 LF else EmptyString.

Definition blank_rows (sep : string) : list (list string) :=
  if String.eqb sep CRLF then [[]] else [].

(** The dict DictReader makes of the line the writer made of [e]. *)
Definition reload (rt : runtime) (headers : list string) (e : record) : record :=
  Csv.DictReader_next (set_iter rt headers) (row_cells rt headers e).

(** An entry of the mapping table as the specification describes it:
    its fields are the three mapping fields, each a string without a
    carriage return, and its identifier is the key it is stored under. *)
Definition plain_entry (k : pyval) (e : record) : Prop :=
  fields_ok MAPPING_HEADERS e
  /\ PyDict.get (PStr ACCOUNT_KEY) e = Some k
  /\ forall h, In h MAPPING_HEADERS ->
       exists x, PyDict.get (PStr h) e = Some (PStr x) /\ has_char CR x = false.

(** No string the entry holds is longer than the reader allows a field
    to be. *)
Definition entry_within_field_limit (e : record) : Prop :=
  forall h x, PyDict.get (PStr h) e = Some (PStr x) -> within_field_limit x.

(** The same keys, and under each key the same fields. *)
Definition same_table (table table' : mapping) : Prop :=
  forall k,
    match PyDict.get k table, PyDict.get k table' with
    | Some e, Some e' => forall f, PyDict.get f e' = PyDict.get f e
    | None, None => True
    | _, _ => False
    end.

(** * Concrete data *)

(** A process that iterates a set in the order its elements are
    written in the source, on a host whose line separator is the line
    feed, at 14:07 on 5 March 2024. *)
Definition example_runtime : runtime :=
  mkRuntime (fun s => s) (fun _ => EmptyString) (str1 LF) (mkDatetime 2024 3 5 14 7).

(** The same, a minute later. *)
Definition later_runtime : runtime :=
  mkRuntime (fun s => s) (fun _ => EmptyString) (str1 LF) (mkDatetime 2024 3 5 14 8).

(** A process whose hash seed makes it iterate sets the other way
    round. *)
Definition reversed_runtime : runtime :=
  mkRuntime (@rev string) (fun _ => EmptyString) (str1 LF) (mkDatetime 2024 3 5 14 8).

(** The source row of the end-to-end example of the specification. *)
Definition example_row : record :=
  [(PStr "No", PStr "1"); (PStr "Customer ID", PStr "C1");
   (PStr "Company Name", PStr "Acme"); (PStr "Flat Charge", PStr "10");
   (PStr "Current Volume", PStr "5"); (PStr "Current Amount", PStr "50");
   (PStr "YTD Volume", PStr "20"); (PStr "YTD Amount", PStr "200")].

(** A second source row, of a customer that is not mapped yet. *)
Definition second_row : record :=
  [(PStr "No", PStr "2"); (PStr "Customer ID", PStr "C2");
   (PStr "Company Name", PStr "Bolt"); (PStr "Flat Charge", PStr "10");
   (PStr "Current Volume", PStr "7"); (PStr "Current Amount", PStr "70");
   (PStr "YTD Volume", PStr "30"); (PStr "YTD Amount", PStr "300")].

Definition example_entry : record := new_entry (PStr "C1") (PStr "Acme") "ACC-1".

Definition example_table : mapping := [(PStr "C1", example_entry)].

(** No file, the given answers waiting on the console. *)
Definition example_world (answers : list string) : world :=
  mkWorld (fun _ => None) answers [].

Definition world_with_file (name content : string) : world :=
  mkWorld (fs_put name content (fun _ => None)) [] [].

Definition line (s : string) : string := (s ++ str1 LF)%string.

Definition example_source_file : string :=
  (line "No,Customer ID,Company Name,Flat Charge,Current Volume,Current Amount,YTD Volume,YTD Amount"
   ++ line "1,C1,Acme,10,5,50,20,200")%string.

Definition example_mapping_file : string :=
  (line "Customer ID,Company Name,Account Number" ++ line "C1,Acme,ACC-1")%string.

(** The two files of the example, nothing on the console. *)
Definition example_files : world :=
  mkWorld (fs_put DEFAULT_SOURCE_CSV_FILENAME example_source_file
             (fs_put DEFAULT_MAPPING_CSV_FILENAME example_mapping_file (fun _ => None)))
          [] [].

Definition example_args : args := mkArgs DEFAULT_SOURCE_CSV_FILENAME "out.csv".

Definition default_args : args :=
  mkArgs DEFAULT_SOURCE_CSV_FILENAME DEFAULT_DEST_CSV_FILENAME.

(** A source row that has both names of the rename table. *)
Definition row_with_both_names : record :=
  [(PStr "Customer ID", PStr "C1"); (PStr "Company Name", PStr "Acme");
   (PStr "SOURCE_FIELD_NAME", PStr "x"); (PStr "DESTINATION_FIELD_NAME", PStr "y")].

(** A mapping file in which the identifier C1 occurs twice. *)
Definition duplicate_mapping_file : string :=
  (line "Customer ID,Company Name,Account Number"
   ++ line "C1,Acme,1" ++ line "C2,Bolt,2" ++ line "C1,Acme Ltd,3")%string.

(** Its rows. *)
Definition duplicate_rows : list record :=
  [[(PStr "Customer ID", PStr "C1"); (PStr "Company Name", PStr "Acme");
    (PStr "Account Number", PStr "1")];
   [(PStr "Customer ID", PStr "C2"); (PStr "Company Name", PStr "Bolt");
    (PStr "Account Number", PStr "2")];
   [(PStr "Customer ID", PStr "C1"); (PStr "Company Name", PStr "Acme Ltd");
    (PStr "Account Number", PStr "3")]].

(** A mapping table in which the customers of both source rows are
    mapped. *)
Definition two_entry_table : mapping :=
  example_table ++ [(PStr "C2", new_entry (PStr "C2") (PStr "Bolt") "ACC-2")].

(** A mapping file one of whose lines has a cell more than the header
    row. *)
Definition surplus_mapping_file : string :=
  (line "Customer ID,Company Name,Account Number" ++ line "C1,Acme,ACC-1,extra")%string.

(** The table it is loaded as: the surplus cell is under the key None. *)
Definition surplus_table : mapping :=
  [(PStr "C1",
    [(PStr "Customer ID", PStr "C1"); (PStr "Company Name", PStr "Acme");
     (PStr "Account Number", PStr "ACC-1"); (PNone, PList ["extra"])])].

(** A source file whose only row is [second_row]. *)
Definition second_source_file : string :=
  (line "No,Customer ID,Company Name,Flat Charge,Current Volume,Current Amount,YTD Volume,YTD Amount"
   ++ line "2,C2,Bolt,10,7,70,30,300")%string.

(** That source file, the mapping file with the surplus cell, and an
    operator who answers with an empty line. *)
Definition surplus_files : world :=
  mkWorld (fs_put DEFAULT_SOURCE_CSV_FILENAME second_source_file
             (fs_put DEFAULT_MAPPING_CSV_FILENAME surplus_mapping_file (fun _ => None)))
          [EmptyString] [].

(** A mapping file that holds the header row and nothing else, on a
    host whose line separator is the line feed. *)
Definition header_only_file : string :=
  FileFormat.text (str1 LF) [MAPPING_HEADERS].

(** An entry whose company name has a carriage return in it. *)
Definition entry_with_cr : record :=
  new_entry (PStr "C1") (PStr ("A" ++ String CR "B")) "1".

(** * Vocabulary of the further properties *)

(** ** What a run of the loop resolves *)

(** One resolution by the operator: the identifier, the company name
    shown in the prompt, and the answer. *)
Definition resolution : Type := (pyval * pyval * string)%type.

Definition resolved_id (r : resolution) : pyval := fst (fst r).
Definition resolved_name (r : resolution) : pyval := snd (fst r).
Definition resolved_answer (r : resolution) : string := snd r.

(** The entry a resolution adds to the mapping table. *)
Definition resolved_entry (r : resolution) : pyval * record :=
  (resolved_id r, new_entry (resolved_id r) (resolved_name r) (resolved_answer r)).

(** The effects of a series of resolutions on a table: for each, the
    prompt, then the write of the table as it is with the new entry. *)
Fixpoint resolution_events (rt : runtime) (table : mapping) (added : list resolution)
  : list event :=
  match added with
  | [] => []
  | r :: rest =>
      let table1 := table ++ [resolved_entry r] in
      EvPrompt (resolved_id r) (resolved_name r)
      :: EvWrite DEFAULT_MAPPING_CSV_FILENAME (MAPPING_FILE_TEXT rt table1)
      :: resolution_events rt table1 rest
  end.

Definition is_prompt (ev : event) : bool :=
  match ev with EvPrompt _ _ => true | _ => false end.

(** ** Rows and entries that lack a field *)

Definition row_without_id : record :=
  [(PStr "No", PStr "1"); (PStr "Company Name", PStr "Acme")].

Definition row_without_name : record :=
  [(PStr "No", PStr "1"); (PStr "Customer ID", PStr "C9")].

(** A mapping table whose file had no Account Number column. *)
Definition table_without_accounts : mapping :=
  [(PStr "C1", [(PStr "Customer ID", PStr "C1"); (PStr "Company Name", PStr "Acme")])].

(** ** Lines and header of a file *)

(** A line as a file opened with universal newlines yields it: it has
    no carriage return, and a line feed only as its last character. *)
Fixpoint line_ok (l : string) : bool :=
  match l with
  | EmptyString => true
  | String c l' =>
      negb (Ascii.eqb c CR)
      && match l' with
         | EmptyString => true
         | String _ _ => negb (Ascii.eqb c LF) && line_ok l'
         end
  end.

(** A text of no more code units than the reader allows characters
    in a field. *)
Definition fits_field_limit (s : string) : Prop :=
  (N.of_nat (String.length s) <= field_size_limit)%N.

Definition cells_fit_field_limit (cells : list string) : Prop :=
  forall c, In c cells -> fits_field_limit c.

(** The field being read and [n] more characters are within the limit
    on the size of a field. *)
Definition room (r : Csv.Reader) (n : nat) : Prop :=
  (N.of_nat (String.length (Csv.field r) + n) <= field_size_limit)%N.

(** The row DictReader takes the field names from. *)
Definition header_row (content : string) : option (list string) :=
  match Csv.reader Csv.parse_reset (TextIO.read_lines content) with
  | Ok (fieldnames :: _) => Some fieldnames
  | _ => None
  end.

(** Rows of cells with a quote, a comma and a line feed in them, an
    empty row, and a row of one empty cell. *)
Definition awkward_cells : list (list string) :=
  [[("a" ++ str1 DQUOTE ++ "b,c")%string; ("two" ++ str1 LF ++ "lines")%string];
   []; [EmptyString]].




(** ** Cells on their way out and back *)

(** The value the row serializer takes for a field of a row: the
    value of the field, or the empty string when the row lacks it. *)
Definition field_or_restval (r : record) (h : string) : pyval :=
  match PyDict.get (PStr h) r with
  | Some v => v
  | None => DictWriter.restval
  end.

(** A mapping row whose Company Name is None and whose Account Number
    is missing. *)
Definition row_with_gaps : record :=
  [(PStr "Customer ID", PStr "C1"); (PStr "Company Name", PNone)].

(** A source row with its surplus cells under the key None, as
    DictReader makes it of a line longer than the header. *)
Definition long_row : record :=
  Csv.DictReader_next ["Customer ID"; "Company Name"] ["C1"; "Acme"; "extra"].

(** ** The world after the mapping file is created *)

(** [Path(DEFAULT_MAPPING_CSV_FILENAME).touch()] on a world without
    that file. *)
Definition touched (w : world) : world :=
  mkWorld (fs_put DEFAULT_MAPPING_CSV_FILENAME EmptyString (fs w)) (stdin w)
          (trace w ++ [EvTouch DEFAULT_MAPPING_CSV_FILENAME]).

(** The source file of the example, no mapping file, one answer. *)
Definition first_run_world : world :=
  mkWorld (fs_put DEFAULT_SOURCE_CSV_FILENAME example_source_file (fun _ => None))
          ["ACC-1"] [].

(** Another process started in the same minute as the example. *)
Definition same_minute_runtime : runtime :=
  mkRuntime (@rev string) (fun _ => EmptyString) CRLF (mkDatetime 2024 3 5 14 7).

(** * Properties *)

(** ** Strings *)

Lemma append_nil_r (s : string) : (s ++ EmptyString)%string = s.
Proof. induction s as [|c s IH]; simpl; [reflexivity | now rewrite IH]. Qed.

Lemma append_assoc (a b c : string) :
  ((a ++ b) ++ c)%string = (a ++ (b ++ c))%string.
Proof. induction a as [|x a IH]; simpl; [reflexivity | now rewrite IH]. Qed.

Lemma has_char_app (c : ascii) (a b : string) :
  has_char c (a ++ b) = has_char c a || has_char c b.
Proof.
  induction a as [|x a IH]; simpl; [reflexivity|].
  now rewrite IH, orb_assoc.
Qed.

(** ** Dictionaries *)

Module PyDictFacts.
Import PyDict.
Section Facts.
Context {V : Type}.
Implicit Types (d : PyDict.t V) (k : pyval) (v : V).

Lemma get_set_eq k v d : get k (set k v d) = Some v.
Proof.
  induction d as [|[k' v'] d IH]; simpl.
  - destruct (pyval_eq_dec k k); congruence.
  - destruct (pyval_eq_dec k k') as [->|N]; simpl.
    + destruct (pyval_eq_dec k' k'); congruence.
    + destruct (pyval_eq_dec k k'); [contradiction | exact IH].
Qed.

Lemma get_set_neq k k' v d : k <> k' -> get k (set k' v d) = get k d.
Proof.
  intros N. induction d as [|[k2 v2] d IH]; simpl.
  - destruct (pyval_eq_dec k k'); [contradiction | reflexivity].
  - destruct (pyval_eq_dec k' k2) as [->|N2]; simpl.
    + destruct (pyval_eq_dec k k2); [contradiction | reflexivity].
    + destruct (pyval_eq_dec k k2); [reflexivity | exact IH].
Qed.

Lemma get_del_neq k k' d : k <> k' -> get k (del k' d) = get k d.
Proof.
  intros N. induction d as [|[k2 v2] d IH]; simpl; [reflexivity|].
  destruct (pyval_eq_dec k' k2) as [->|N2]; simpl.
  - destruct (pyval_eq_dec k k2); [contradiction | reflexivity].
  - destruct (pyval_eq_dec k k2); [reflexivity | exact IH].
Qed.

Lemma get_none_not_in k d : get k d = None <-> ~ In k (keys d).
Proof.
  induction d as [|[k' v'] d IH]; simpl.
  - tauto.
  - destruct (pyval_eq_dec k k') as [->|N].
    + split; [discriminate | intros H; exfalso; apply H; now left].
    + rewrite IH. split.
      * intros H [E|I]; [now apply N | now apply H].
      * intros H I. apply H. now right.
Qed.

Lemma get_some_in k v d : get k d = Some v -> In (k, v) d.
Proof.
  induction d as [|[k' v'] d IH]; simpl; [discriminate|].
  destruct (pyval_eq_dec k k') as [->|N].
  - intros [= ->]. now left.
  - intros H. right. now apply IH.
Qed.

Lemma in_get_nodup k v d : NoDup (keys d) -> In (k, v) d -> get k d = Some v.
Proof.
  induction d as [|[k' v'] d IH]; simpl; [tauto|].
  intros ND [E|I].
  - injection E as -> ->. destruct (pyval_eq_dec k k); congruence.
  - inversion ND as [|? ? NI ND']; subst.
    destruct (pyval_eq_dec k k') as [->|N].
    + exfalso. apply NI. change (In (fst (k', v)) (map fst d)). now apply in_map.
    + now apply IH.
Qed.

(** A new key goes last. *)
Lemma set_absent k v d : get k d = None -> set k v d = d ++ [(k, v)].
Proof.
  induction d as [|[k' v'] d IH]; simpl; [reflexivity|].
  destruct (pyval_eq_dec k k'); [discriminate|].
  intros H. now rewrite IH.
Qed.

Lemma keys_set_present k v d :
  get k d <> None -> keys (set k v d) = keys d.
Proof.
  induction d as [|[k' v'] d IH]; simpl; [congruence|].
  destruct (pyval_eq_dec k k'); simpl; [reflexivity|].
  intros H. now rewrite IH.
Qed.

Lemma keys_set k v d :
  keys (set k v d) = if mem k d then keys d else keys d ++ [k].
Proof.
  unfold mem. destruct (get k d) eqn:E.
  - apply keys_set_present. congruence.
  - rewrite set_absent by assumption. unfold keys. now rewrite map_app.
Qed.

Lemma in_keys_set k k' v d :
  In k (keys (set k' v d)) <-> k = k' \/ In k (keys d).
Proof.
  rewrite keys_set. unfold mem. destruct (get k' d) eqn:E.
  - split; [tauto|]. intros [->|I]; [|assumption].
    destruct (in_dec pyval_eq_dec k' (keys d)) as [I|NI]; [assumption|].
    apply get_none_not_in in NI. congruence.
  - rewrite in_app_iff. simpl. intuition congruence.
Qed.

Lemma in_keys_del k k' d : In k (keys (del k' d)) -> In k (keys d).
Proof.
  induction d as [|[k2 v2] d IH]; simpl; [tauto|].
  destruct (pyval_eq_dec k' k2); simpl; intuition.
Qed.

Lemma nodup_keys_set k v d : NoDup (keys d) -> NoDup (keys (set k v d)).
Proof.
  intros ND. rewrite keys_set. unfold mem. destruct (get k d) eqn:E; [assumption|].
  apply get_none_not_in in E.
  apply NoDup_app; [assumption | repeat constructor; simpl; tauto |].
  intros x Ix [<-|[]]. contradiction.
Qed.

Lemma del_absent k d : get k d = None -> del k d = d.
Proof.
  induction d as [|[k' v'] d IH]; simpl; [reflexivity|].
  destruct (pyval_eq_dec k k'); [discriminate|].
  intros H. now rewrite IH.
Qed.
End Facts.
End PyDictFacts.
Import PyDictFacts.

Lemma get_app {V} (k : pyval) (d1 d2 : PyDict.t V) :
  PyDict.get k (d1 ++ d2) =
  match PyDict.get k d1 with Some v => Some v | None => PyDict.get k d2 end.
Proof.
  induction d1 as [|[k' v'] d1 IH]; simpl; [reflexivity|].
  destruct (pyval_eq_dec k k'); [reflexivity | exact IH].
Qed.

(** ** The dictionary DictReader and DictWriter build from two lists *)

Lemma fold_set_fresh (l : list (string * string)) (d : record) :
  NoDup (map fst l) ->
  (forall k, In k (map fst l) -> PyDict.get (PStr k) d = None) ->
  fold_left (fun d kv => PyDict.set (PStr (fst kv)) (PStr (snd kv)) d) l d
  = d ++ map str_pair l.
Proof.
  revert d. induction l as [|[k v] l IH]; intros d ND Fresh; simpl.
  - now rewrite app_nil_r.
  - inversion ND as [|? ? NI ND']; subst.
    rewrite set_absent by (apply Fresh; now left).
    rewrite IH; [now rewrite <- app_assoc | assumption |].
    intros k' I. rewrite get_app, Fresh by now right.
    simpl. destruct (pyval_eq_dec (PStr k') (PStr k)) as [E|_]; [|reflexivity].
    injection E as ->. contradiction.
Qed.

Lemma in_fst_combine {A B} (x : A) (l : list A) (r : list B) :
  In x (map fst (combine l r)) -> In x l.
Proof.
  revert r. induction l as [|a l IH]; intros [|b r]; simpl; try tauto.
  intros [E|I]; [now left | right; now apply (IH r)].
Qed.

Lemma nodup_fst_combine {A B} (l : list A) (r : list B) :
  NoDup l -> NoDup (map fst (combine l r)).
Proof.
  revert r. induction l as [|a l IH]; intros [|b r] ND; simpl; try constructor.
  - inversion ND; subst. intros I. now apply in_fst_combine in I.
  - inversion ND; subst. now apply IH.
Qed.

Lemma zip_dict_nodup (names row : list string) :
  NoDup names -> Csv.zip_dict names row = map str_pair (combine names row).
Proof.
  intros ND. unfold Csv.zip_dict.
  rewrite fold_set_fresh; [reflexivity | now apply nodup_fst_combine | reflexivity].
Qed.

Lemma get_diag (l : list string) (h : string) :
  In h l ->
  PyDict.get (PStr h) (map str_pair (combine l l)) = Some (PStr h).
Proof.
  induction l as [|a l IH]; simpl; [tauto|].
  intros I. destruct (pyval_eq_dec (PStr h) (PStr a)) as [E|N].
  - now injection E as ->.
  - destruct I as [->|I]; [congruence | now apply IH].
Qed.

Lemma keys_diag (l : list string) :
  PyDict.keys (map str_pair (combine l l)) = map PStr l.
Proof. induction l as [|a l IH]; simpl; [reflexivity | now rewrite IH]. Qed.

(** ** The writer *)

Lemma concat_cons (s : string) (l : list string) :
  String.concat EmptyString (s :: l) = (s ++ String.concat EmptyString l)%string.
Proof. destruct l; simpl; [now rewrite append_nil_r | reflexivity]. Qed.

Lemma in_fieldnames_in (headers : list string) (s : string) :
  DictWriter.in_fieldnames headers (PStr s) = true <-> In s headers.
Proof.
  simpl. rewrite existsb_exists. split.
  - intros (x & I & E). apply String.eqb_eq in E. now subst.
  - intros I. exists s. split; [assumption | apply String.eqb_refl].
Qed.

Lemma wrong_fields_nil (headers : list string) (r : record) :
  fields_ok headers r <->
  forall k, In k (PyDict.keys r) -> DictWriter.in_fieldnames headers k = true.
Proof.
  unfold fields_ok, DictWriter.wrong_fields. split.
  - intros E k I. destruct (DictWriter.in_fieldnames headers k) eqn:F; [reflexivity|].
    assert (In k (filter (fun k => negb (DictWriter.in_fieldnames headers k)) (PyDict.keys r))) as X
      by (apply filter_In; split; [assumption | now rewrite F]).
    rewrite E in X. destruct X.
  - intros H. induction (PyDict.keys r) as [|k ks IH]; simpl; [reflexivity|].
    rewrite (H k) by now left. simpl. apply IH. intros k' I. apply H. now right.
Qed.

Lemma dict_to_list_ok (rt : runtime) (headers : list string) (r : record) :
  fields_ok headers r ->
  DictWriter.writerow rt headers r = Ok (Csv.writerow (row_cells rt headers r)).
Proof.
  unfold fields_ok, DictWriter.writerow, DictWriter.dict_to_list, row_cells.
  intros ->. simpl. now rewrite map_map.
Qed.

Lemma writeheader_ok (rt : runtime) (headers : list string) :
  iter_ok rt headers -> NoDup headers ->
  DictWriter.writeheader rt headers = Ok (Csv.writerow (set_iter rt headers)).
Proof.
  intros P ND. unfold DictWriter.writeheader.
  assert (NoDup (set_iter rt headers)) as NDi
    by (apply (Permutation_NoDup (Permutation_sym P) ND)).
  rewrite dict_to_list_ok.
  - f_equal. f_equal. unfold row_cells, DictWriter.header.
    rewrite zip_dict_nodup by assumption.
    transitivity (map (fun h : string => h) (set_iter rt headers)); [|apply map_id].
    apply map_ext_in. intros h I. now rewrite get_diag.
  - apply wrong_fields_nil. unfold DictWriter.header.
    rewrite zip_dict_nodup, keys_diag by assumption.
    intros k I. apply in_map_iff in I. destruct I as (h & <- & I).
    apply in_fieldnames_in. now apply (Permutation_in _ P).
Qed.

Lemma writerows_ok (rt : runtime) (headers : list string) (rows : list record) :
  (forall r, In r rows -> fields_ok headers r) ->
  DictWriter.writerows rt headers rows = (rows_text rt headers rows, None).
Proof.
  induction rows as [|r rows IH]; intros H; [reflexivity|].
  simpl DictWriter.writerows. rewrite dict_to_list_ok by (apply H; now left).
  rewrite IH by (intros r' I; apply H; now right).
  unfold rows_text. simpl map. now rewrite concat_cons.
Qed.

(** A write of rows whose fields are all header names succeeds and
    leaves the text of the table in the file. *)
Lemma write_csv_ok (rt : runtime) (filename : string) (headers : list string)
  (rows : list record) (w : world) :
  iter_ok rt headers -> NoDup headers ->
  (forall r, In r rows -> fields_ok headers r) ->
  let content := TextIO.write_text (os_linesep rt) (table_text rt headers rows) in
  write_csv rt filename headers rows w
  = (Ok true, mkWorld (fs_put filename content (fs w)) (stdin w)
                (trace w ++ [EvWrite filename content])).
Proof.
  intros P ND H. unfold write_csv.
  rewrite writeheader_ok, writerows_ok by assumption. reflexivity.
Qed.

(** ** Renaming *)

(** A field that the rename table names neither as a source nor as a
    destination goes through the renaming untouched. *)
Lemma rename_table_frame (table : list (string * string)) (k : pyval) (row : record) :
  (forall s d, In (s, d) table -> k <> PStr s /\ k <> PStr d) ->
  PyDict.get k (fold_left rename_step table row) = PyDict.get k row.
Proof.
  revert row. induction table as [|[s d] table IH]; intros row H; simpl; [reflexivity|].
  rewrite IH by (intros s' d' I; apply H; now right).
  destruct (H s d (or_introl eq_refl)) as [Ns Nd].
  unfold rename_step. simpl. destruct (PyDict.get (PStr s) row); [|reflexivity].
  now rewrite get_del_neq, get_set_neq.
Qed.

Lemma rename_fields_frame (k : pyval) (row : record) :
  (forall s d, In (s, d) FIELD_NAME_CHANGE -> k <> PStr s /\ k <> PStr d) ->
  PyDict.get k (rename_fields row) = PyDict.get k row.
Proof. apply rename_table_frame. Qed.

Lemma rename_fields_account_number (row : record) :
  PyDict.get (PStr "Account Number") (rename_fields row)
  = PyDict.get (PStr "Account Number") row.
Proof.
  apply rename_fields_frame. intros s d [[= <- <-]|[]]. split; discriminate.
Qed.

Lemma rename_fields_absent (row : record) :
  PyDict.get (PStr "SOURCE_FIELD_NAME") row = None -> rename_fields row = row.
Proof. intros H. unfold rename_fields. simpl. now rewrite H. Qed.

(** ** One row of the loop *)

Lemma nodup_mapping_headers : NoDup MAPPING_HEADERS.
Proof.
  unfold MAPPING_HEADERS.
  repeat constructor; simpl; intuition discriminate.
Qed.

Lemma nodup_billing_headers : NoDup BILLING_HEADERS.
Proof.
  unfold BILLING_HEADERS.
  repeat constructor; simpl; intuition discriminate.
Qed.

(** The identifier is not in the table: one prompt, one new entry that
    goes last, one rewrite of the whole mapping file. *)
Lemma convert_row_absent (rt : runtime) (row : record) (table : mapping) (w : world)
  (id name : pyval) (answer : string) (rest : list string) :
  iter_ok rt MAPPING_HEADERS ->
  PyDict.get (PStr ACCOUNT_KEY) row = Some id ->
  hashable id = true ->
  PyDict.get (PStr "Company Name") row = Some name ->
  PyDict.mem id table = false ->
  stdin w = answer :: rest ->
  (forall e, In e (PyDict.values table) -> fields_ok MAPPING_HEADERS e) ->
  let table' := table ++ [(id, new_entry id name answer)] in
  let content := MAPPING_FILE_TEXT rt table' in
  convert_row rt row table w
  = (Ok (rename_fields (PyDict.set (PStr "Account Number") (PStr answer) row), table'),
     mkWorld (fs_put DEFAULT_MAPPING_CSV_FILENAME content (fs w)) rest
       (trace w ++ [EvPrompt id name; EvWrite DEFAULT_MAPPING_CSV_FILENAME content])).
Proof.
  intros P Hid Hh Hname Hmem Hin Hok table' content.
  assert (PyDict.get id table = None) as Hnone
    by (unfold PyDict.mem in Hmem; destruct (PyDict.get id table); [discriminate | reflexivity]).
  unfold convert_row, bind, lift, ret, PyDict.getitem.
  rewrite Hid, Hh, Hmem. cbn [negb]. cbv beta iota.
  change (PStr "Customer ID") with (PStr ACCOUNT_KEY). rewrite Hid, Hname.
  unfold prompt_user_for_account. rewrite Hin.
  rewrite !get_set_neq by discriminate. rewrite Hid, Hname, get_set_eq.
  rewrite set_absent by assumption.
  rewrite write_csv_ok; [| assumption | apply nodup_mapping_headers |].
  - unfold emit. cbn [fst snd fs stdin trace]. rewrite <- app_assoc. reflexivity.
  - intros e I. unfold PyDict.values in I. rewrite map_app, in_app_iff in I.
    destruct I as [I|[<-|[]]]; [now apply Hok | reflexivity].
Qed.

(** The identifier is in the table: no effect on the world. *)
Lemma convert_row_present (rt : runtime) (row : record) (table : mapping) (w : world)
  (id acct : pyval) (entry : record) :
  PyDict.get (PStr ACCOUNT_KEY) row = Some id ->
  hashable id = true ->
  PyDict.get id table = Some entry ->
  PyDict.get (PStr "Account Number") entry = Some acct ->
  convert_row rt row table w
  = (Ok (rename_fields (PyDict.set (PStr "Account Number") acct row), table), w).
Proof.
  intros Hid Hh Hget Hacct.
  unfold convert_row, bind, lift, ret, PyDict.getitem, PyDict.mem.
  now rewrite Hid, Hh, Hget, Hacct.
Qed.

(** ** The loop *)

Lemma convert_formats_cons (rt : runtime) (row : record) (rest : list record)
  (table : mapping) (w : world) :
  convert_formats rt (row :: rest) table w
  = match convert_row rt row table w with
    | (Ok (row', table'), w') => continue_with [row'] (convert_formats rt rest table' w')
    | (Raise e, w') => (Raise e, w')
    end.
Proof.
  simpl. unfold bind, ret.
  destruct (convert_row rt row table w) as [[[row' table']|e] w']; [|reflexivity].
  simpl. destruct (convert_formats rt rest table' w') as [[[rows t]|e] w'']; reflexivity.
Qed.

(** Processing a list of rows is processing a first part of it, then
    the rest from the table and the world the first part leaves. *)
Lemma convert_formats_app (rt : runtime) (pre post : list record)
  (table : mapping) (w : world) :
  convert_formats rt (pre ++ post) table w
  = match convert_formats rt pre table w with
    | (Ok (done, table'), w') => continue_with done (convert_formats rt post table' w')
    | (Raise e, w') => (Raise e, w')
    end.
Proof.
  revert table w. induction pre as [|row pre IH]; intros table w.
  - simpl. unfold ret, continue_with.
    destruct (convert_formats rt post table w) as [[[rows t]|e] w']; reflexivity.
  - rewrite <- app_comm_cons, !convert_formats_cons.
    destruct (convert_row rt row table w) as [[[row' table']|e] w']; [|reflexivity].
    rewrite IH.
    destruct (convert_formats rt pre table' w') as [[[done t]|e] w'']; [|reflexivity].
    simpl. destruct (convert_formats rt post t w'') as [[[rows t']|e] w3]; reflexivity.
Qed.

Lemma continue_with_app (a b : list record)
  (r : result (list record * mapping) * world) :
  continue_with a (continue_with b r) = continue_with (a ++ b) r.
Proof.
  destruct r as [[[rows t]|e] w]; simpl; [now rewrite app_assoc | reflexivity].
Qed.

(** A row in the middle of the data: the rows before it have been
    processed, the rows after it are processed from what it leaves. *)
Lemma convert_formats_at (rt : runtime) (pre post : list record) (row : record)
  (table table1 table2 : mapping) (w w1 w2 : world) (done : list record) (row' : record) :
  convert_formats rt pre table w = (Ok (done, table1), w1) ->
  convert_row rt row table1 w1 = (Ok (row', table2), w2) ->
  convert_formats rt (pre ++ row :: post) table w
  = continue_with (done ++ [row']) (convert_formats rt post table2 w2).
Proof.
  intros Hpre Hrow.
  now rewrite convert_formats_app, Hpre, convert_formats_cons, Hrow, continue_with_app.
Qed.

Lemma concat_app (a b : list string) :
  String.concat EmptyString (a ++ b)
  = (String.concat EmptyString a ++ String.concat EmptyString b)%string.
Proof.
  induction a as [|s a IH]; [reflexivity|].
  rewrite <- app_comm_cons, !concat_cons, IH. now rewrite append_assoc.
Qed.

Lemma rows_text_app (rt : runtime) (headers : list string) (a b : list record) :
  rows_text rt headers (a ++ b)
  = (rows_text rt headers a ++ rows_text rt headers b)%string.
Proof. unfold rows_text. now rewrite map_app, concat_app. Qed.

Lemma fs_put_same (name content : string) (f : string -> option string) :
  fs_put name content f name = Some content.
Proof. unfold fs_put. now rewrite String.eqb_refl. Qed.

Lemma fs_put_other (name content n : string) (f : string -> option string) :
  n <> name -> fs_put name content f n = f n.
Proof. unfold fs_put. intros N. apply String.eqb_neq in N. now rewrite N. Qed.

(** The cell of a row in the column of a field it has. *)
Lemma row_cells_at (rt : runtime) (headers : list string) (r : record)
  (i : nat) (h : string) (v : pyval) :
  nth_error (set_iter rt headers) i = Some h ->
  PyDict.get (PStr h) r = Some v ->
  nth_error (row_cells rt headers r) i = Some (DictWriter.cell_text rt v).
Proof.
  intros Hi Hv. unfold row_cells. rewrite nth_error_map, Hi. simpl. now rewrite Hv.
Qed.

Lemma example_iter_ok (s : list string) : iter_ok example_runtime s.
Proof. apply Permutation_refl. Qed.

(** ** The file the writer leaves

    What the csv writer and the text layer make of rows of cells is
    the text of a quoted, comma-delimited, CRLF-terminated file. *)

Lemma write_text_app (sep a b : string) :
  TextIO.write_text sep (a ++ b)
  = (TextIO.write_text sep a ++ TextIO.write_text sep b)%string.
Proof.
  induction a as [|c a IH]; [reflexivity|]. simpl.
  destruct (Ascii.eqb c LF); rewrite IH; [now rewrite append_assoc | reflexivity].
Qed.

Lemma table_text_lines (rt : runtime) (headers : list string) (rows : list record) :
  table_text rt headers rows
  = lines_text (set_iter rt headers :: map (row_cells rt headers) rows).
Proof.
  unfold table_text, rows_text, lines_text. simpl map.
  now rewrite concat_cons, map_map.
Qed.

Lemma write_text_double_quotes (sep s : string) :
  TextIO.write_text sep (Csv.double_quotes s)
  = String.concat EmptyString (map (FileFormat.char_text sep) (list_ascii_of_string s)).
Proof.
  induction s as [|c s IH]; [reflexivity|].
  simpl list_ascii_of_string. simpl map. rewrite concat_cons, <- IH.
  unfold FileFormat.char_text. simpl Csv.double_quotes.
  destruct (Ascii.eqb c DQUOTE) eqn:E.
  - apply Ascii.eqb_eq in E. subst c. reflexivity.
  - simpl TextIO.write_text. destruct (Ascii.eqb c LF); reflexivity.
Qed.

Lemma write_text_quoted (sep s : string) :
  TextIO.write_text sep (Csv.quoted s) = FileFormat.cell_text sep s.
Proof.
  unfold Csv.quoted, FileFormat.cell_text.
  change (String DQUOTE (Csv.double_quotes s ++ str1 DQUOTE))
    with (str1 DQUOTE ++ Csv.double_quotes s ++ str1 DQUOTE)%string.
  now rewrite !write_text_app, write_text_double_quotes.
Qed.

Lemma write_text_join_fields (sep : string) (cells : list string) :
  TextIO.write_text sep (Csv.join_fields cells)
  = String.concat (str1 COMMA) (map (FileFormat.cell_text sep) cells).
Proof.
  induction cells as [|c cs IH]; [reflexivity|].
  destruct cs as [|c2 cs].
  - simpl. apply write_text_quoted.
  - change (Csv.join_fields (c :: c2 :: cs))
      with (Csv.quoted c ++ str1 COMMA ++ Csv.join_fields (c2 :: cs))%string.
    rewrite !write_text_app, IH, write_text_quoted. reflexivity.
Qed.

Lemma write_text_writerow (sep : string) (cells : list string) :
  TextIO.write_text sep (Csv.writerow cells) = FileFormat.row_text sep cells.
Proof.
  unfold Csv.writerow, FileFormat.row_text.
  rewrite write_text_app, write_text_join_fields.
  simpl TextIO.write_text. now rewrite append_nil_r.
Qed.

Lemma write_text_lines (sep : string) (cellss : list (list string)) :
  TextIO.write_text sep (lines_text cellss) = FileFormat.text sep cellss.
Proof.
  unfold lines_text, FileFormat.text.
  induction cellss as [|cells cellss IH]; [reflexivity|].
  simpl map. rewrite !concat_cons, write_text_app, IH, write_text_writerow.
  reflexivity.
Qed.

Lemma row_cells_of (rt : runtime) (headers : list string) (r : record) :
  row_cells rt headers r = cells_of rt headers r.
Proof.
  unfold row_cells, cells_of, field_text. apply map_ext. intros h.
  destruct (PyDict.get (PStr h) r) as [[x| |l]|]; reflexivity.
Qed.

(** The text the writer leaves of a table is the file of the table. *)
Lemma written_table_is_csv_file (rt : runtime) (headers : list string)
  (rows : list record) :
  TextIO.write_text (os_linesep rt) (table_text rt headers rows)
  = csv_file rt headers rows.
Proof.
  rewrite table_text_lines, write_text_lines. unfold csv_file.
  f_equal. f_equal. apply map_ext. intros r. apply row_cells_of.
Qed.

Lemma csv_file_app (rt : runtime) (headers : list string) (a b : list record) :
  csv_file rt headers (a ++ b)
  = (csv_file rt headers a
     ++ FileFormat.text (os_linesep rt) (map (cells_of rt headers) b))%string.
Proof.
  unfold csv_file, FileFormat.text. simpl map.
  now rewrite !concat_cons, !map_app, concat_app, append_assoc.
Qed.

(** ** C1: a row whose identifier is not mapped yet *)

Lemma mapping_file_text_is_csv_file (rt : runtime) (table : mapping) :
  MAPPING_FILE_TEXT rt table = csv_file rt MAPPING_HEADERS (PyDict.values table).
Proof. apply written_table_is_csv_file. Qed.

(** C1, as stated, fails.  A mapping file with a surplus cell in a
    line is loaded as a table whose entry has a field outside the
    mapping headers.  When the row of a customer that is not mapped is
    reached, the operator is asked and answers, then the rewrite of the
    mapping file raises ValueError: the file is left with its header
    row and no entry, neither the one it held nor the new one, and the
    row after is not processed. *)
Lemma surplus_cell_stops_the_rewrite :
  let w := example_world ["ACC-2"] in
  read_dataset surplus_mapping_file true = Ok (DDict surplus_table)
  /\ PyDict.get (PStr ACCOUNT_KEY) second_row = Some (PStr "C2")
  /\ PyDict.mem (PStr "C2") surplus_table = false
  /\ convert_formats example_runtime [second_row; example_row] surplus_table w
     = (Raise ValueError,
        mkWorld (fs_put DEFAULT_MAPPING_CSV_FILENAME header_only_file (fs w)) []
          [EvPrompt (PStr "C2") (PStr "Bolt");
           EvWrite DEFAULT_MAPPING_CSV_FILENAME header_only_file])
  /\ header_only_file
     <> csv_file example_runtime MAPPING_HEADERS
          (PyDict.values
             (surplus_table ++ [(PStr "C2", new_entry (PStr "C2") (PStr "Bolt") "ACC-2")])).
Proof.
  cbv zeta. split; [vm_compute; reflexivity|]. split; [reflexivity|].
  split; [reflexivity|]. split; [vm_compute; reflexivity|].
  intros H. apply (f_equal String.length) in H. vm_compute in H. discriminate H.
Qed.

(** C1, amended.  When a row is reached whose Customer ID is not a key
    of the mapping table as the rows before it left it, the row has a
    Company Name, the operator gives an answer and no entry of the
    table has a field outside the mapping headers, processing that row
    prompts the operator exactly once (one prompt event, one answer
    consumed), appends exactly one entry to the table, keyed by the
    identifier and holding the identifier, the company name and the
    answer, leaves every other entry as it was, and leaves in the
    mapping file the quoted, comma-delimited, CRLF-terminated text of
    the whole new table: the header row, then a row for each entry;
    the rows after it are processed from the world in which the file
    is already written. *)
Theorem unmapped_row_prompts_once_and_persists
  (rt : runtime) (pre post : list record) (row : record) (table table1 : mapping)
  (w w1 : world) (done : list record) (id name : pyval) (answer : string)
  (rest : list string) :
  iter_ok rt MAPPING_HEADERS ->
  convert_formats rt pre table w = (Ok (done, table1), w1) ->
  PyDict.get (PStr ACCOUNT_KEY) row = Some id ->
  hashable id = true ->
  PyDict.get (PStr "Company Name") row = Some name ->
  PyDict.mem id table1 = false ->
  stdin w1 = answer :: rest ->
  (forall e, In e (PyDict.values table1) -> fields_ok MAPPING_HEADERS e) ->
  let entry := new_entry id name answer in
  let table2 := table1 ++ [(id, entry)] in
  let content := csv_file rt MAPPING_HEADERS (PyDict.values table2) in
  let row' := rename_fields (PyDict.set (PStr "Account Number") (PStr answer) row) in
  let w2 := mkWorld (fs_put DEFAULT_MAPPING_CSV_FILENAME content (fs w1)) rest
              (trace w1 ++ [EvPrompt id name;
                            EvWrite DEFAULT_MAPPING_CSV_FILENAME content]) in
  convert_row rt row table1 w1 = (Ok (row', table2), w2)
  /\ PyDict.get id table2 = Some entry
  /\ (forall k, k <> id -> PyDict.get k table2 = PyDict.get k table1)
  /\ PyDict.keys table2 = PyDict.keys table1 ++ [id]
  /\ fs w2 DEFAULT_MAPPING_CSV_FILENAME = Some content
  /\ content
     = (csv_file rt MAPPING_HEADERS (PyDict.values table1)
        ++ FileFormat.row_text (os_linesep rt) (cells_of rt MAPPING_HEADERS entry))%string
  /\ convert_formats rt (pre ++ row :: post) table w
     = continue_with (done ++ [row']) (convert_formats rt post table2 w2).
Proof.
  intros P Hpre Hid Hh Hname Hmem Hin Hok entry table2 content row' w2.
  assert (convert_row rt row table1 w1 = (Ok (row', table2), w2)) as Hrow.
  { unfold w2, content. rewrite <- mapping_file_text_is_csv_file.
    apply convert_row_absent; assumption. }
  assert (PyDict.get id table1 = None) as Hnone
    by (unfold PyDict.mem in Hmem; destruct (PyDict.get id table1); [discriminate | reflexivity]).
  split; [exact Hrow|]. split; [|split; [|split; [|split; [|split]]]].
  - unfold table2. rewrite get_app, Hnone. simpl.
    destruct (pyval_eq_dec id id); congruence.
  - intros k N. unfold table2. rewrite get_app.
    destruct (PyDict.get k table1); [reflexivity|]. simpl.
    destruct (pyval_eq_dec k id); [contradiction | reflexivity].
  - unfold table2, PyDict.keys. now rewrite map_app.
  - apply fs_put_same.
  - unfold content, table2, PyDict.values. rewrite map_app, csv_file_app.
    simpl map. unfold FileFormat.text. simpl map.
    now rewrite concat_cons, append_nil_r.
  - now apply convert_formats_at with (table1 := table1) (w1 := w1).
Qed.

Lemma unmapped_row_prompts_once_and_persists_witness :
  let rt := example_runtime in
  let w := example_world ["ACC-2"] in
  let entry := new_entry (PStr "C2") (PStr "Bolt") "ACC-2" in
  let table2 := example_table ++ [(PStr "C2", entry)] in
  let content := csv_file rt MAPPING_HEADERS (PyDict.values table2) in
  let row' := rename_fields (PyDict.set (PStr "Account Number") (PStr "ACC-2") second_row) in
  let w2 := mkWorld (fs_put DEFAULT_MAPPING_CSV_FILENAME content (fs w)) []
              (trace w ++ [EvPrompt (PStr "C2") (PStr "Bolt");
                           EvWrite DEFAULT_MAPPING_CSV_FILENAME content]) in
  convert_row rt second_row example_table w = (Ok (row', table2), w2)
  /\ PyDict.get (PStr "C2") table2 = Some entry
  /\ (forall k, k <> PStr "C2" -> PyDict.get k table2 = PyDict.get k example_table)
  /\ PyDict.keys table2 = PyDict.keys example_table ++ [PStr "C2"]
  /\ fs w2 DEFAULT_MAPPING_CSV_FILENAME = Some content
  /\ content
     = (csv_file rt MAPPING_HEADERS (PyDict.values example_table)
        ++ FileFormat.row_text (os_linesep rt) (cells_of rt MAPPING_HEADERS entry))%string
  /\ convert_formats rt ([example_row] ++ second_row :: [example_row]) example_table w
     = continue_with ([enrich example_table example_row] ++ [row'])
         (convert_formats rt [example_row] table2 w2).
Proof.
  apply (@unmapped_row_prompts_once_and_persists example_runtime [example_row]
           [example_row] second_row example_table example_table
           (example_world ["ACC-2"]) (example_world ["ACC-2"])
           [enrich example_table example_row] (PStr "C2") (PStr "Bolt") "ACC-2" []).
  - apply Permutation_refl.
  - reflexivity.
  - reflexivity.
  - reflexivity.
  - reflexivity.
  - reflexivity.
  - reflexivity.
  - intros e [<-|[]]. reflexivity.
Defined.

(** ** C2: a row whose identifier is mapped *)

(** C2.  When a row is reached whose Customer ID is a key of the
    mapping table, processing that row leaves the world as it was (no
    prompt, no answer consumed, no file written) and the table as it
    was, the Account Number of the resulting row is the Account Number
    the table stores for that key, and so is the cell written for the
    row in the Account Number column of the destination. *)
Theorem mapped_row_copies_account_number
  (rt : runtime) (pre post : list record) (row : record) (table table1 : mapping)
  (w w1 : world) (done : list record) (id acct : pyval) (entry : record) :
  convert_formats rt pre table w = (Ok (done, table1), w1) ->
  PyDict.get (PStr ACCOUNT_KEY) row = Some id ->
  hashable id = true ->
  PyDict.get id table1 = Some entry ->
  PyDict.get (PStr "Account Number") entry = Some acct ->
  exists row',
    convert_row rt row table1 w1 = (Ok (row', table1), w1)
    /\ PyDict.get (PStr "Account Number") row' = Some acct
    /\ (forall i, nth_error (set_iter rt BILLING_HEADERS) i = Some "Account Number" ->
        nth_error (row_cells rt BILLING_HEADERS row') i
        = Some (DictWriter.cell_text rt acct))
    /\ convert_formats rt (pre ++ row :: post) table w
       = continue_with (done ++ [row']) (convert_formats rt post table1 w1).
Proof.
  intros Hpre Hid Hh Hget Hacct.
  exists (rename_fields (PyDict.set (PStr "Account Number") acct row)).
  assert (PyDict.get (PStr "Account Number")
            (rename_fields (PyDict.set (PStr "Account Number") acct row)) = Some acct) as Hout
    by (now rewrite rename_fields_account_number, get_set_eq).
  pose proof (@convert_row_present rt row table1 w1 id acct entry Hid Hh Hget Hacct) as Hrow.
  split; [exact Hrow|]. split; [exact Hout|]. split.
  - intros i Hi. now apply row_cells_at with (h := "Account Number").
  - now apply convert_formats_at with (table1 := table1) (w1 := w1).
Qed.

Lemma mapped_row_copies_account_number_witness :
  exists row',
    convert_row example_runtime example_row example_table (example_world [])
    = (Ok (row', example_table), example_world [])
    /\ PyDict.get (PStr "Account Number") row' = Some (PStr "ACC-1")
    /\ (forall i, nth_error (set_iter example_runtime BILLING_HEADERS) i
                  = Some "Account Number" ->
        nth_error (row_cells example_runtime BILLING_HEADERS row') i
        = Some (DictWriter.cell_text example_runtime (PStr "ACC-1")))
    /\ convert_formats example_runtime ([] ++ example_row :: []) example_table
         (example_world [])
       = continue_with ([] ++ [row'])
           (convert_formats example_runtime [] example_table (example_world [])).
Proof.
  apply (@mapped_row_copies_account_number example_runtime [] [] example_row
           example_table example_table (example_world []) (example_world []) []
           (PStr "C1") (PStr "ACC-1") example_entry);
    reflexivity.
Defined.

(** ** What a processed row looks like *)

(** Whatever branch is taken, a row that has been processed is the
    source row with its Account Number set and the renaming applied. *)
Lemma convert_row_shape (rt : runtime) (row row' : record) (table table' : mapping)
  (w w' : world) :
  convert_row rt row table w = (Ok (row', table'), w') ->
  exists v, row' = rename_fields (PyDict.set (PStr "Account Number") v row).
Proof.
  unfold convert_row, bind, lift, ret, PyDict.getitem.
  destruct (PyDict.get (PStr ACCOUNT_KEY) row) as [key|]; [|discriminate].
  destruct (hashable key); [|discriminate].
  destruct (PyDict.mem key table); cbn [negb]; cbv beta iota.
  - destruct (PyDict.get key table) as [entry|]; [|discriminate].
    destruct (PyDict.get (PStr "Account Number") entry) as [acct|]; [|discriminate].
    intros [= <- _ _]. now exists acct.
  - destruct (PyDict.get (PStr "Customer ID") row); [|discriminate].
    destruct (PyDict.get (PStr "Company Name") row); [|discriminate].
    destruct (prompt_user_for_account p p0 w) as [[answer|e] w1]; [|discriminate].
    rewrite get_set_eq.
    destruct (PyDict.get (PStr "Customer ID") _); [|discriminate].
    destruct (PyDict.get (PStr "Company Name") _); [|discriminate].
    destruct (write_csv rt _ _ _ w1) as [[b|e] w2]; [|discriminate].
    intros [= <- _ _]. now exists (PStr answer).
Qed.

Lemma convert_formats_shape (rt : runtime) (data out : list record)
  (table table' : mapping) (w w' : world) :
  convert_formats rt data table w = (Ok (out, table'), w') ->
  Forall2 (fun row row' =>
             exists v, row' = rename_fields (PyDict.set (PStr "Account Number") v row))
          data out.
Proof.
  revert out table w. induction data as [|row data IH]; intros out table w.
  - intros [= <- _ _]. constructor.
  - rewrite convert_formats_cons.
    destruct (convert_row rt row table w) as [[[row' t1]|e] w1] eqn:Hrow; [|discriminate].
    destruct (convert_formats rt data t1 w1) as [[[rows t2]|e] w2] eqn:Hrest;
      [|discriminate].
    simpl. intros [= <- <- <-]. constructor.
    + eapply convert_row_shape, Hrow.
    + eapply IH, Hrest.
Qed.

(** ** C9: the shipped rename table *)

(** C9.  With the rename table as shipped (the single placeholder pair
    from SOURCE_FIELD_NAME to DESTINATION_FIELD_NAME), renaming leaves
    unchanged every record whose field names are among the source
    headers, before and after its Account Number is set: no field is
    renamed or removed. *)
Theorem shipped_rename_table_is_noop (row : record) :
  (forall k, In k (PyDict.keys row) -> DictWriter.in_fieldnames SOURCE_HEADERS k = true) ->
  FIELD_NAME_CHANGE = [("SOURCE_FIELD_NAME", "DESTINATION_FIELD_NAME")]
  /\ rename_fields row = row
  /\ forall v, rename_fields (PyDict.set (PStr "Account Number") v row)
               = PyDict.set (PStr "Account Number") v row.
Proof.
  intros H.
  assert (PyDict.get (PStr "SOURCE_FIELD_NAME") row = None) as Hnone.
  { apply get_none_not_in. intros I. apply H in I. discriminate I. }
  split; [reflexivity|]. split.
  - now apply rename_fields_absent.
  - intros v. apply rename_fields_absent. now rewrite get_set_neq.
Qed.

Lemma example_row_source_fields (k : pyval) :
  In k (PyDict.keys example_row) -> DictWriter.in_fieldnames SOURCE_HEADERS k = true.
Proof.
  simpl. intros I.
  repeat (destruct I as [<-|I]; [reflexivity|]). destruct I.
Qed.

Lemma shipped_rename_table_is_noop_witness :
  FIELD_NAME_CHANGE = [("SOURCE_FIELD_NAME", "DESTINATION_FIELD_NAME")]
  /\ rename_fields example_row = example_row
  /\ forall v, rename_fields (PyDict.set (PStr "Account Number") v example_row)
               = PyDict.set (PStr "Account Number") v example_row.
Proof.
  apply (@shipped_rename_table_is_noop example_row). exact example_row_source_fields.
Defined.

(** ** C10: the fields of the rows that reach the final write *)

Lemma has_fields_ok (headers : list string) (r : record) :
  has_fields headers r -> fields_ok headers r.
Proof.
  intros H. apply wrong_fields_nil. intros k I. apply H in I.
  apply in_map_iff in I. destruct I as (s & <- & I). now apply in_fieldnames_in.
Qed.

Lemma enrich_source_row (row : record) (v : pyval) :
  has_fields SOURCE_HEADERS row ->
  has_fields BILLING_HEADERS
    (rename_fields (PyDict.set (PStr "Account Number") v row)).
Proof.
  intros H.
  assert (PyDict.get (PStr "SOURCE_FIELD_NAME") row = None) as Hnone.
  { apply get_none_not_in. intros I. apply H in I. simpl in I.
    intuition discriminate. }
  rewrite rename_fields_absent by now rewrite get_set_neq.
  intros k. rewrite in_keys_set, (H k). simpl. intuition.
Qed.

(** C10.  When every source row has exactly the eight source fields,
    every row that enrichment produces has exactly the nine billing
    fields, no row has a field outside the billing headers, and the
    final write of these rows succeeds: the ValueError of the row
    serializer is not raised. *)
Theorem enriched_rows_have_billing_fields
  (rt : runtime) (data out : list record) (table table' : mapping) (w w' : world)
  (user_filename : string) :
  iter_ok rt BILLING_HEADERS ->
  (forall row, In row data -> has_fields SOURCE_HEADERS row) ->
  convert_formats rt data table w = (Ok (out, table'), w') ->
  (forall row', In row' out -> has_fields BILLING_HEADERS row')
  /\ (forall row', In row' out -> DictWriter.wrong_fields BILLING_HEADERS row' = [])
  /\ fst (write_billing_csv rt out user_filename w') = Ok true.
Proof.
  intros P Hsrc Hrun.
  assert (forall row', In row' out -> has_fields BILLING_HEADERS row') as Hout.
  { apply convert_formats_shape in Hrun.
    induction Hrun as [|row row' data out [v ->] _ IH]; intros r I; [destruct I|].
    destruct I as [<-|I].
    - apply enrich_source_row, Hsrc. now left.
    - apply IH; [|assumption]. intros r' I'. apply Hsrc. now right. }
  split; [exact Hout|]. split.
  - intros r I. now apply has_fields_ok, Hout.
  - unfold write_billing_csv. rewrite write_csv_ok; [reflexivity | assumption | |].
    + apply nodup_billing_headers.
    + intros r I. now apply has_fields_ok, Hout.
Qed.

Lemma example_row_has_source_fields : has_fields SOURCE_HEADERS example_row.
Proof. intros k. simpl. tauto. Qed.

Lemma enriched_rows_have_billing_fields_witness :
  (forall row',
      In row' [rename_fields (PyDict.set (PStr "Account Number") (PStr "ACC-1") example_row)] ->
      has_fields BILLING_HEADERS row')
  /\ (forall row',
      In row' [rename_fields (PyDict.set (PStr "Account Number") (PStr "ACC-1") example_row)] ->
      DictWriter.wrong_fields BILLING_HEADERS row' = [])
  /\ fst (write_billing_csv example_runtime
            [rename_fields (PyDict.set (PStr "Account Number") (PStr "ACC-1") example_row)]
            DEFAULT_DEST_CSV_FILENAME (example_world [])) = Ok true.
Proof.
  apply (@enriched_rows_have_billing_fields example_runtime [example_row] _
           example_table example_table (example_world []) (example_world [])).
  - apply Permutation_refl.
  - intros row [<-|[]]. exact example_row_has_source_fields.
  - reflexivity.
Defined.

(** ** C7: what enrichment leaves alone, and the order of the rows *)

Lemma Forall2_nth_error {A B} (R : A -> B -> Prop) (l : list A) (l' : list B)
  (i : nat) (a : A) (b : B) :
  Forall2 R l l' -> nth_error l i = Some a -> nth_error l' i = Some b -> R a b.
Proof.
  intros F. revert i. induction F as [|x y l l' Rxy F IH]; intros [|i]; simpl;
    try discriminate.
  - now intros [= <-] [= <-].
  - apply IH.
Qed.

Lemma Forall2_length_eq {A B} (R : A -> B -> Prop) (l : list A) (l' : list B) :
  Forall2 R l l' -> List.length l' = List.length l.
Proof. induction 1; simpl; congruence. Qed.

(** C7, as stated, fails: the field DESTINATION_FIELD_NAME is neither
    the Account Number nor a source of the rename table, and
    enrichment changes its value from y to x. *)
Lemma rename_overwrites_destination_field :
  exists row',
    fst (convert_formats example_runtime [row_with_both_names] example_table
           (example_world []))
    = Ok ([row'], example_table)
    /\ PStr "DESTINATION_FIELD_NAME" <> PStr "Account Number"
    /\ (forall s d, In (s, d) FIELD_NAME_CHANGE -> PStr "DESTINATION_FIELD_NAME" <> PStr s)
    /\ PyDict.get (PStr "DESTINATION_FIELD_NAME") row_with_both_names = Some (PStr "y")
    /\ PyDict.get (PStr "DESTINATION_FIELD_NAME") row' = Some (PStr "x").
Proof.
  eexists. split; [vm_compute; reflexivity|].
  split; [discriminate|]. split; [|split; reflexivity].
  intros s d [[= <- <-]|[]]. discriminate.
Qed.

(** C7, amended.  Enrichment returns as many rows as it was given, and
    the row at each position comes from the source row at that
    position: every field other than the Account Number and the names
    the rename table mentions, as a source or as a destination, has
    the value it had.  When no row that enrichment returns has a field
    outside the billing headers, the final write leaves in the
    destination file the header row and then one row for each of
    them, in that order. *)
Theorem enrichment_frame_and_order
  (rt : runtime) (data out : list record) (table table' : mapping) (w w' : world) :
  convert_formats rt data table w = (Ok (out, table'), w') ->
  List.length out = List.length data
  /\ (forall i row row' k,
        nth_error data i = Some row -> nth_error out i = Some row' ->
        k <> PStr "Account Number" -> untouched_by_rename k ->
        PyDict.get k row' = PyDict.get k row)
  /\ (forall user_filename,
        iter_ok rt BILLING_HEADERS ->
        (forall r, In r out -> DictWriter.wrong_fields BILLING_HEADERS r = []) ->
        let content :=
          FileFormat.text (os_linesep rt)
            (set_iter rt BILLING_HEADERS :: map (cells_of rt BILLING_HEADERS) out) in
        let filename := billing_filename rt user_filename in
        write_billing_csv rt out user_filename w'
        = (Ok true, mkWorld (fs_put filename content (fs w')) (stdin w')
                      (trace w' ++ [EvWrite filename content]))).
Proof.
  intros Hrun. apply convert_formats_shape in Hrun.
  split; [now apply Forall2_length_eq in Hrun|]. split.
  - intros i row row' k Hi Ho Nk Hk.
    destruct (Forall2_nth_error i Hrun Hi Ho) as [v ->].
    rewrite rename_fields_frame by exact Hk. now apply get_set_neq.
  - intros user_filename P Hok content filename.
    unfold write_billing_csv.
    rewrite write_csv_ok; [| assumption | apply nodup_billing_headers | assumption].
    now rewrite written_table_is_csv_file.
Qed.

(** Two source rows of customers that are both mapped: the premise of
    the final write holds of the rows enrichment returns, and they are
    written. *)
Lemma enrichment_frame_and_order_witness :
  let data := [example_row; second_row] in
  let out := map (enrich two_entry_table) data in
  let content :=
    FileFormat.text (os_linesep example_runtime)
      (set_iter example_runtime BILLING_HEADERS
       :: map (cells_of example_runtime BILLING_HEADERS) out) in
  convert_formats example_runtime data two_entry_table (example_world [])
  = (Ok (out, two_entry_table), example_world [])
  /\ (forall r, In r out -> DictWriter.wrong_fields BILLING_HEADERS r = [])
  /\ List.length out = List.length data
  /\ (forall i row row' k,
        nth_error data i = Some row -> nth_error out i = Some row' ->
        k <> PStr "Account Number" -> untouched_by_rename k ->
        PyDict.get k row' = PyDict.get k row)
  /\ write_billing_csv example_runtime out "out.csv" (example_world [])
     = (Ok true, mkWorld (fs_put "out.csv" content (fs (example_world [])))
                   (stdin (example_world []))
                   (trace (example_world []) ++ [EvWrite "out.csv" content])).
Proof.
  cbv zeta.
  assert (convert_formats example_runtime [example_row; second_row] two_entry_table
            (example_world [])
          = (Ok (map (enrich two_entry_table) [example_row; second_row], two_entry_table),
             example_world [])) as Hrun by reflexivity.
  assert (forall r, In r (map (enrich two_entry_table) [example_row; second_row]) ->
          DictWriter.wrong_fields BILLING_HEADERS r = []) as Hok
    by (intros r [<-|[<-|[]]]; reflexivity).
  destruct (@enrichment_frame_and_order example_runtime [example_row; second_row]
              (map (enrich two_entry_table) [example_row; second_row])
              two_entry_table two_entry_table (example_world []) (example_world [])
              Hrun) as (Hlen & Hframe & Hwrite).
  split; [exact Hrun|]. split; [exact Hok|]. split; [exact Hlen|].
  split; [exact Hframe|].
  exact (Hwrite "out.csv" (example_iter_ok BILLING_HEADERS) Hok).
Defined.

(** ** C8: an empty answer *)

(** C8, as stated, fails.  With a mapping file that has a surplus cell
    in a line, the program asks for the account number of a customer
    that is not mapped and takes the empty answer, then the rewrite of
    the mapping file raises ValueError: the run stops, the mapping
    file holds its header row and no entry, and no destination file is
    written, so the empty field reaches neither. *)
Lemma empty_answer_is_lost_after_a_surplus_cell :
  exists w',
    main example_runtime example_args surplus_files = (Raise ValueError, w')
    /\ stdin surplus_files = [EmptyString]
    /\ stdin w' = []
    /\ trace w' = [EvPrompt (PStr "C2") (PStr "Bolt");
                   EvWrite DEFAULT_MAPPING_CSV_FILENAME header_only_file]
    /\ fs w' DEFAULT_MAPPING_CSV_FILENAME = Some header_only_file
    /\ fs w' (dest_csv_filename example_args) = None.
Proof.
  eexists. split; [vm_compute; reflexivity|].
  repeat split; reflexivity.
Qed.

(** C8, amended.  When the operator answers the prompt with the empty
    string and no entry of the mapping table has a field outside the
    mapping headers, the row is processed like any other unmapped row:
    the answer is taken as it is and nothing more is read from the
    console, there is one prompt, the Account Number of the row that
    goes to the output and of the new table entry is the empty string,
    and the mapping file holds the rows it held for the table and,
    last, the row of the new entry, whose Account Number cell is
    empty. *)
Theorem empty_answer_is_accepted
  (rt : runtime) (row : record) (table : mapping) (w : world) (id name : pyval)
  (rest : list string) :
  iter_ok rt MAPPING_HEADERS ->
  PyDict.get (PStr ACCOUNT_KEY) row = Some id ->
  hashable id = true ->
  PyDict.get (PStr "Company Name") row = Some name ->
  PyDict.mem id table = false ->
  stdin w = EmptyString :: rest ->
  (forall e, In e (PyDict.values table) -> DictWriter.wrong_fields MAPPING_HEADERS e = []) ->
  let entry := new_entry id name EmptyString in
  let entry_cells := cells_of rt MAPPING_HEADERS entry in
  let content :=
    (csv_file rt MAPPING_HEADERS (PyDict.values table)
     ++ FileFormat.row_text (os_linesep rt) entry_cells)%string in
  exists row',
    convert_row rt row table w
    = (Ok (row', table ++ [(id, entry)]),
       mkWorld (fs_put DEFAULT_MAPPING_CSV_FILENAME content (fs w)) rest
         (trace w ++ [EvPrompt id name;
                      EvWrite DEFAULT_MAPPING_CSV_FILENAME content]))
    /\ PyDict.get (PStr "Account Number") row' = Some (PStr EmptyString)
    /\ PyDict.get id (table ++ [(id, entry)]) = Some entry
    /\ PyDict.get (PStr "Account Number") entry = Some (PStr EmptyString)
    /\ (forall i, nth_error (set_iter rt MAPPING_HEADERS) i = Some "Account Number" ->
        nth_error entry_cells i = Some EmptyString)
    /\ FileFormat.cell_text (os_linesep rt) EmptyString = String DQUOTE (str1 DQUOTE).
Proof.
  intros P Hid Hh Hname Hmem Hin Hok entry entry_cells content.
  pose proof (@convert_row_absent rt row table w id name EmptyString rest
                P Hid Hh Hname Hmem Hin Hok) as Hrow.
  cbv zeta in Hrow.
  assert (PyDict.get id table = None) as Hnone
    by (unfold PyDict.mem in Hmem; destruct (PyDict.get id table); [discriminate | reflexivity]).
  assert (MAPPING_FILE_TEXT rt (table ++ [(id, new_entry id name EmptyString)]) = content)
    as Hcontent.
  { rewrite mapping_file_text_is_csv_file. unfold content, PyDict.values.
    rewrite map_app, csv_file_app. simpl map. unfold FileFormat.text. simpl map.
    now rewrite concat_cons, append_nil_r. }
  rewrite Hcontent in Hrow.
  eexists. split; [exact Hrow|].
  split; [now rewrite rename_fields_account_number, get_set_eq|].
  split.
  { rewrite get_app, Hnone. simpl. destruct (pyval_eq_dec id id); congruence. }
  split; [reflexivity|]. split; [|reflexivity].
  intros i Hi. unfold entry_cells, cells_of. rewrite nth_error_map, Hi. reflexivity.
Qed.

Lemma empty_answer_is_accepted_witness :
  let rt := example_runtime in
  let entry := new_entry (PStr "C2") (PStr "Bolt") EmptyString in
  let entry_cells := cells_of rt MAPPING_HEADERS entry in
  let content :=
    (csv_file rt MAPPING_HEADERS (PyDict.values example_table)
     ++ FileFormat.row_text (os_linesep rt) entry_cells)%string in
  exists row',
    convert_row rt second_row example_table (example_world [EmptyString; "later"])
    = (Ok (row', example_table ++ [(PStr "C2", entry)]),
       mkWorld (fs_put DEFAULT_MAPPING_CSV_FILENAME content
                  (fs (example_world [EmptyString; "later"]))) ["later"]
         (trace (example_world [EmptyString; "later"])
          ++ [EvPrompt (PStr "C2") (PStr "Bolt");
              EvWrite DEFAULT_MAPPING_CSV_FILENAME content]))
    /\ PyDict.get (PStr "Account Number") row' = Some (PStr EmptyString)
    /\ PyDict.get (PStr "C2") (example_table ++ [(PStr "C2", entry)]) = Some entry
    /\ PyDict.get (PStr "Account Number") entry = Some (PStr EmptyString)
    /\ (forall i, nth_error (set_iter rt MAPPING_HEADERS) i = Some "Account Number" ->
        nth_error entry_cells i = Some EmptyString)
    /\ FileFormat.cell_text (os_linesep rt) EmptyString = String DQUOTE (str1 DQUOTE).
Proof.
  apply (@empty_answer_is_accepted example_runtime second_row example_table
           (example_world [EmptyString; "later"]) (PStr "C2") (PStr "Bolt") ["later"]).
  - apply Permutation_refl.
  - reflexivity.
  - reflexivity.
  - reflexivity.
  - reflexivity.
  - reflexivity.
  - intros e [<-|[]]. reflexivity.
Defined.

(** ** The rows of a file that is read to its end *)

Lemma yielded_ok (lines : list string) :
  forall (r : Csv.Reader) (rows : list (list string)),
    Csv.reader r lines = Ok rows -> Csv.yielded r lines = rows.
Proof.
  induction lines as [|l lines IH]; intros r rows.
  - simpl. destruct (_ || _); now intros [= <-].
  - simpl. destruct (Csv.process_line r l) as [r1|e]; [|discriminate]. cbn [rbind].
    destruct (Csv.parse_process_char r1 Csv.EOL) as [r2|e]; [|discriminate]. cbn [rbind].
    destruct (Csv.state_eqb (Csv.state r2) Csv.START_RECORD).
    + destruct (Csv.reader Csv.parse_reset lines) as [rs|e] eqn:E; [|discriminate].
      cbn [rbind]. intros [= <-]. now rewrite (IH _ _ E).
    + apply IH.
Qed.

(** When the reader returns all the rows of the file, they are stored. *)
Lemma read_dataset_ok (content : string) (load_as_dict : bool)
  (rows : list (list string)) :
  Csv.reader Csv.parse_reset (TextIO.read_lines content) = Ok rows ->
  read_dataset content load_as_dict
  = (if load_as_dict then
       let! table := load_dict (Csv.DictReader rows) PyDict.empty in Ok (DDict table)
     else Ok (DList (Csv.DictReader rows)))%result.
Proof.
  intros E. unfold read_dataset. cbv zeta. rewrite E, (yielded_ok _ _ E).
  destruct load_as_dict; [|reflexivity].
  now destruct (load_dict (Csv.DictReader rows) PyDict.empty).
Qed.

(** When the reader raises, nothing is loaded. *)
Lemma read_dataset_raise (content : string) (load_as_dict : bool) (e : exn) :
  Csv.reader Csv.parse_reset (TextIO.read_lines content) = Raise e ->
  read_dataset content false = Raise e
  /\ exists e', read_dataset content load_as_dict = Raise e'.
Proof.
  intros E. unfold read_dataset. cbv zeta. rewrite E. split; [reflexivity|].
  destruct load_as_dict; [|now exists e].
  destruct (load_dict _ PyDict.empty) as [table|e']; [now exists e | now exists e'].
Qed.

(** ** C5: loading as a dict, duplicate keys *)

Lemma find_app_first {A} (f : A -> bool) (l1 l2 : list A) :
  find f (l1 ++ l2) = match find f l1 with Some x => Some x | None => find f l2 end.
Proof.
  induction l1 as [|a l1 IH]; simpl; [reflexivity|].
  destruct (f a); [reflexivity | exact IH].
Qed.

Lemma last_with_key_cons (k : pyval) (r : record) (rows : list record) :
  last_with_key k (r :: rows)
  = match last_with_key k rows with
    | Some r' => Some r'
    | None => if account_key_is k r then Some r else None
    end.
Proof. unfold last_with_key. simpl rev. now rewrite find_app_first. Qed.

Lemma load_dict_spec (rows : list record) (table : mapping) :
  (forall r, In r rows ->
     exists k, PyDict.get (PStr ACCOUNT_KEY) r = Some k /\ hashable k = true) ->
  exists table',
    load_dict rows table = Ok table'
    /\ (forall k, PyDict.get k table'
                  = match last_with_key k rows with
                    | Some r => Some r
                    | None => PyDict.get k table
                    end)
    /\ (NoDup (PyDict.keys table) -> NoDup (PyDict.keys table')).
Proof.
  revert table. induction rows as [|r rows IH]; intros table H.
  - exists table. repeat split; trivial.
  - destruct (H r (or_introl eq_refl)) as (kr & Hk & Hh).
    destruct (IH (PyDict.set kr r table)) as (table' & Hload & Hget & Hnd).
    { intros r' I. apply H. now right. }
    exists table'. split; [|split].
    + simpl. unfold PyDict.getitem. rewrite Hk. simpl. now rewrite Hh.
    + intros k. rewrite Hget, last_with_key_cons.
      destruct (last_with_key k rows); [reflexivity|].
      unfold account_key_is. rewrite Hk.
      destruct (pyval_eq_dec kr k) as [->|N].
      * apply get_set_eq.
      * apply get_set_neq. congruence.
    + intros ND. now apply Hnd, nodup_keys_set.
Qed.

Lemma hashable_set (d : record) (k v : pyval) :
  string_fields_hashable d -> (hashable v = true \/ k = PNone) ->
  string_fields_hashable (PyDict.set k v d).
Proof.
  intros H Hv s x. destruct (pyval_eq_dec (PStr s) k) as [<-|N].
  - rewrite get_set_eq. intros [= <-]. destruct Hv as [Hv|Hv]; [assumption | discriminate].
  - rewrite get_set_neq by assumption. apply H.
Qed.

Lemma hashable_fold {A} (f : record -> A -> record) (l : list A) (d : record) :
  (forall d a, string_fields_hashable d -> string_fields_hashable (f d a)) ->
  string_fields_hashable d -> string_fields_hashable (fold_left f l d).
Proof.
  intros Hf. revert d. induction l as [|a l IH]; intros d H; simpl; [assumption|].
  apply IH, Hf, H.
Qed.

Lemma DictReader_next_hashable (fieldnames row : list string) :
  string_fields_hashable (Csv.DictReader_next fieldnames row).
Proof.
  assert (string_fields_hashable (Csv.zip_dict fieldnames row)) as Hz.
  { unfold Csv.zip_dict. apply hashable_fold.
    - intros d a H. apply hashable_set; [assumption | now left].
    - intros s v. discriminate. }
  unfold Csv.DictReader_next.
  destruct (_ <? _)%nat.
  - apply hashable_set; [assumption | now right].
  - destruct (_ <? _)%nat; [|assumption].
    apply hashable_fold; [|assumption].
    intros d a H. apply hashable_set; [assumption | now left].
Qed.

Lemma DictReader_hashable (rs : list (list string)) (r : record) :
  In r (Csv.DictReader rs) -> string_fields_hashable r.
Proof.
  destruct rs as [|fieldnames rs]; simpl; [tauto|].
  intros I. apply in_map_iff in I. destruct I as (row & <- & _).
  apply DictReader_next_hashable.
Qed.

(** C5.  When loading a file as a list gives [rows], each with an
    account key, loading it as a dict succeeds without any effect, the
    dict has no key twice, and under each key it holds the last of the
    rows that have that key, in the order of the file.  So when several
    rows share a key, the dict has exactly one entry for it, which is
    the last of them. *)
Theorem duplicate_keys_last_row_wins
  (filename : string) (headers : list string) (w : world) (rows : list record) :
  load_csv filename headers false w = (Ok (DList rows), w) ->
  (forall r, In r rows -> PyDict.get (PStr ACCOUNT_KEY) r <> None) ->
  exists table,
    load_csv filename headers true w = (Ok (DDict table), w)
    /\ NoDup (PyDict.keys table)
    /\ (forall k, PyDict.get k table = last_with_key k rows)
    /\ (forall pre r post k,
          rows = pre ++ r :: post ->
          PyDict.get (PStr ACCOUNT_KEY) r = Some k ->
          (forall r', In r' post -> PyDict.get (PStr ACCOUNT_KEY) r' <> Some k) ->
          PyDict.get k table = Some r
          /\ count_occ pyval_eq_dec (PyDict.keys table) k = 1).
Proof.
  unfold load_csv. intros Hlist Hkeys.
  destruct (fs w filename) as [content|]; [|discriminate].
  destruct (Csv.reader Csv.parse_reset (TextIO.read_lines content)) as [rs|e] eqn:Er.
  2:{ rewrite (proj1 (@read_dataset_raise content false e Er)) in Hlist. discriminate. }
  rewrite (@read_dataset_ok content false rs Er) in Hlist.
  rewrite (@read_dataset_ok content true rs Er).
  injection Hlist as <-.
  destruct (@load_dict_spec (Csv.DictReader rs) PyDict.empty) as (table & Hload & Hget & Hnd).
  { intros r I. destruct (PyDict.get (PStr ACCOUNT_KEY) r) as [k|] eqn:E.
    - exists k. split; [reflexivity|]. apply (DictReader_hashable _ _ I _ E).
    - now apply Hkeys in I. }
  assert (forall k, PyDict.get k table = last_with_key k (Csv.DictReader rs)) as Hlast.
  { intros k. rewrite Hget. now destruct (last_with_key k (Csv.DictReader rs)). }
  assert (NoDup (PyDict.keys table)) as ND by (apply Hnd; constructor).
  exists table. simpl. rewrite Hload.
  split; [reflexivity|]. split; [exact ND|]. split; [exact Hlast|].
  intros pre r post k Hrows Hk Hpost.
  assert (PyDict.get k table = Some r) as Hr.
  { rewrite Hlast, Hrows. unfold last_with_key.
    rewrite rev_app_distr. simpl rev. rewrite <- app_assoc, find_app_first.
    destruct (find (account_key_is k) (rev post)) as [r'|] eqn:F.
    - apply find_some in F. destruct F as [I F]. apply in_rev in I.
      unfold account_key_is in F.
      destruct (PyDict.get (PStr ACCOUNT_KEY) r') as [k'|] eqn:E; [|discriminate].
      destruct (pyval_eq_dec k' k) as [->|]; [|discriminate].
      now apply Hpost in I.
    - simpl. unfold account_key_is. rewrite Hk.
      destruct (pyval_eq_dec k k); congruence. }
  split; [exact Hr|].
  apply get_some_in in Hr.
  assert (In k (PyDict.keys table)) as I
    by (change k with (fst (k, r)); now apply in_map).
  apply (count_occ_In pyval_eq_dec) in I.
  pose proof (proj1 (NoDup_count_occ pyval_eq_dec _) ND k). lia.
Qed.

Lemma duplicate_keys_last_row_wins_witness :
  let w := world_with_file DEFAULT_MAPPING_CSV_FILENAME duplicate_mapping_file in
  exists table,
    load_csv DEFAULT_MAPPING_CSV_FILENAME MAPPING_HEADERS true w = (Ok (DDict table), w)
    /\ NoDup (PyDict.keys table)
    /\ (forall k, PyDict.get k table = last_with_key k duplicate_rows)
    /\ (forall pre r post k,
          duplicate_rows = pre ++ r :: post ->
          PyDict.get (PStr ACCOUNT_KEY) r = Some k ->
          (forall r', In r' post -> PyDict.get (PStr ACCOUNT_KEY) r' <> Some k) ->
          PyDict.get k table = Some r
          /\ count_occ pyval_eq_dec (PyDict.keys table) k = 1).
Proof.
  apply (@duplicate_keys_last_row_wins DEFAULT_MAPPING_CSV_FILENAME MAPPING_HEADERS
           (world_with_file DEFAULT_MAPPING_CSV_FILENAME duplicate_mapping_file)
           duplicate_rows).
  - reflexivity.
  - intros r [<-|[<-|[<-|[]]]]; discriminate.
Defined.

(** ** C6: the name of the destination file *)

Lemma all_below_spec (k : nat) (f : N -> bool) (high : N) :
  all_below k f high = true ->
  forall n, N.shiftr n (N.of_nat k) = high -> f n = true.
Proof.
  revert high. induction k as [|k IH]; intros high H n Hn.
  - change (N.of_nat 0) with 0%N in Hn. rewrite N.shiftr_0_r in Hn. now subst.
  - simpl in H. apply andb_prop in H. destruct H as [H0 H1].
    assert (N.shiftr n (N.of_nat k) = N.double high \/
            N.shiftr n (N.of_nat k) = N.succ_double high) as [E|E].
    { rewrite Nat2N.inj_succ in Hn. rewrite <- N.add_1_r in Hn.
      rewrite <- N.shiftr_shiftr in Hn. rewrite N.shiftr_div_pow2 in Hn.
      change (2 ^ 1)%N with 2%N in Hn.
      rewrite N.double_spec, N.succ_double_spec.
      pose proof (N.div_mod' (N.shiftr n (N.of_nat k)) 2) as D.
      assert ((N.shiftr n (N.of_nat k)) mod 2 < 2)%N as B
        by (apply N.mod_upper_bound; lia).
      rewrite Hn in D.
      set (x := N.shiftr n (N.of_nat k)) in *. set (m := (x mod 2)%N) in *.
      clearbody m. lia. }
    + now apply (@IH _ H0).
    + now apply (@IH _ H1).
Qed.

Lemma below_by_cases (k : nat) (f : N -> bool) :
  all_below k f 0 = true -> forall n, (n < 2 ^ N.of_nat k)%N -> f n = true.
Proof.
  intros H n Hn. apply (@all_below_spec k f 0 H).
  rewrite N.shiftr_div_pow2. now apply N.div_small.
Qed.

Lemma zero_pad_two (n : N) : (n < 100)%N -> zero_pad 2 n = two_digits n.
Proof.
  intros Hn.
  assert ((100 <=? n)%N || String.eqb (zero_pad 2 n) (two_digits n) = true) as H.
  { apply (@below_by_cases 7
             (fun n => (100 <=? n)%N || String.eqb (zero_pad 2 n) (two_digits n))).
    - vm_compute. reflexivity.
    - change (2 ^ N.of_nat 7)%N with 128%N. lia. }
  apply orb_prop in H. destruct H as [H|H].
  - apply N.leb_le in H. lia.
  - now apply String.eqb_eq.
Qed.

Lemma zero_pad_four (n : N) : (n < 10000)%N -> zero_pad 4 n = four_digits n.
Proof.
  intros Hn.
  assert ((10000 <=? n)%N || String.eqb (zero_pad 4 n) (four_digits n) = true) as H.
  { apply (@below_by_cases 14
             (fun n => (10000 <=? n)%N || String.eqb (zero_pad 4 n) (four_digits n))).
    - vm_compute. reflexivity.
    - change (2 ^ N.of_nat 14)%N with 16384%N. lia. }
  apply orb_prop in H. destruct H as [H|H].
  - apply N.leb_le in H. lia.
  - now apply String.eqb_eq.
Qed.

Lemma strftime_stamp (t : datetime) : valid_clock t -> strftime t = YYYYMMDD_HHMM t.
Proof.
  intros (Hy & Hm & Hd & Hh & Hmin). unfold strftime, YYYYMMDD_HHMM.
  now rewrite zero_pad_four, !zero_pad_two by lia.
Qed.

(** C6.  When the name the caller gives is the default sentinel, the
    file written is named by the prefix, the stamp YYYYMMDD_HHMM of
    the local time and the extension (billing_20240305_1407.csv at
    14:07 on 5 March 2024); any other name is used as it is.  The
    write goes to the file of that name. *)
Theorem destination_filename_policy
  (rt : runtime) (user_filename : string) (data : list record) (w : world) :
  valid_clock (now rt) ->
  (user_filename = DEFAULT_DEST_CSV_FILENAME ->
   billing_filename rt user_filename
   = ("billing_" ++ YYYYMMDD_HHMM (now rt) ++ ".csv")%string)
  /\ (user_filename = DEFAULT_DEST_CSV_FILENAME ->
      now rt = mkDatetime 2024 3 5 14 7 ->
      billing_filename rt user_filename = "billing_20240305_1407.csv")
  /\ (user_filename <> DEFAULT_DEST_CSV_FILENAME ->
      billing_filename rt user_filename = user_filename)
  /\ exists content,
       trace (snd (write_billing_csv rt data user_filename w))
       = trace w ++ [EvWrite (billing_filename rt user_filename) content]
       /\ fs (snd (write_billing_csv rt data user_filename w))
            (billing_filename rt user_filename) = Some content.
Proof.
  intros Hclock. split; [|split; [|split]].
  - intros ->. unfold billing_filename. rewrite String.eqb_refl.
    now rewrite strftime_stamp.
  - intros -> Hnow. unfold billing_filename. rewrite String.eqb_refl, Hnow.
    reflexivity.
  - intros N. unfold billing_filename. apply String.eqb_neq in N. now rewrite N.
  - unfold write_billing_csv, write_csv.
    destruct (DictWriter.writeheader rt BILLING_HEADERS) as [head|e].
    + destruct (DictWriter.writerows rt BILLING_HEADERS data) as [body [e|]];
        eexists; (split; [reflexivity | apply fs_put_same]).
    + eexists. split; [reflexivity | apply fs_put_same].
Qed.

Lemma example_clock_valid : valid_clock (now example_runtime).
Proof. unfold valid_clock. simpl. lia. Qed.

Lemma destination_filename_policy_witness :
  billing_filename example_runtime DEFAULT_DEST_CSV_FILENAME = "billing_20240305_1407.csv"
  /\ billing_filename example_runtime "out.csv" = "out.csv"
  /\ exists content,
       trace (snd (write_billing_csv example_runtime [example_row] "out.csv"
                     (example_world [])))
       = [EvWrite "out.csv" content].
Proof.
  destruct (@destination_filename_policy example_runtime DEFAULT_DEST_CSV_FILENAME
              [] (example_world []) example_clock_valid) as (_ & Hdefault & _).
  destruct (@destination_filename_policy example_runtime "out.csv"
              [example_row] (example_world []) example_clock_valid)
    as (_ & _ & Hother & content & Htrace & _).
  split; [now apply Hdefault|]. split.
  - apply Hother. discriminate.
  - exists content. rewrite Htrace. now rewrite Hother by discriminate.
Defined.

(** ** C4: two runs over the same files *)

Lemma stored_account_some (table : mapping) (row : record) (acct : pyval) :
  stored_account table row = Some acct ->
  exists id entry,
    PyDict.get (PStr ACCOUNT_KEY) row = Some id /\ hashable id = true
    /\ PyDict.get id table = Some entry
    /\ PyDict.get (PStr "Account Number") entry = Some acct.
Proof.
  unfold stored_account.
  destruct (PyDict.get (PStr ACCOUNT_KEY) row) as [id|]; [|discriminate].
  destruct (hashable id) eqn:Hh; [|discriminate].
  destruct (PyDict.get id table) as [entry|] eqn:Hget; [|discriminate].
  intros Hacct. now exists id, entry.
Qed.

Lemma convert_formats_all_mapped (rt : runtime) (rows : list record)
  (table : mapping) (w : world) :
  (forall row, In row rows -> stored_account table row <> None) ->
  convert_formats rt rows table w = (Ok (map (enrich table) rows, table), w).
Proof.
  induction rows as [|row rows IH]; intros H; [reflexivity|].
  rewrite convert_formats_cons.
  destruct (stored_account table row) as [acct|] eqn:E;
    [|now apply (H row (or_introl eq_refl)) in E].
  destruct (stored_account_some _ _ E) as (id & entry & Hid & Hh & Hget & Hacct).
  rewrite (@convert_row_present rt row table w id acct entry Hid Hh Hget Hacct).
  rewrite IH by (intros r I; apply H; now right).
  cbn [continue_with map app]. unfold enrich at 2. now rewrite E.
Qed.

Lemma enrich_fields_ok (table : mapping) (row : record) :
  fields_ok BILLING_HEADERS row -> fields_ok BILLING_HEADERS (enrich table row).
Proof.
  intros H. pose proof (proj1 (wrong_fields_nil _ _) H) as Hk.
  assert (PyDict.get (PStr "SOURCE_FIELD_NAME") row = None) as Hnone.
  { apply get_none_not_in. intros I. apply Hk in I. discriminate I. }
  unfold enrich. rewrite rename_fields_absent by now rewrite get_set_neq.
  apply wrong_fields_nil. intros k I. apply in_keys_set in I.
  destruct I as [->|I]; [reflexivity | now apply Hk].
Qed.

(** A run in which every identifier of the source is mapped reads its
    two files and writes the destination; it does nothing else. *)
Lemma main_all_mapped (rt : runtime) (a : args) (w : world) (src mp : string)
  (rows : list record) (table : mapping) :
  fs w (source_csv_filename a) = Some src ->
  fs w DEFAULT_MAPPING_CSV_FILENAME = Some mp ->
  read_dataset src false = Ok (DList rows) ->
  read_dataset mp true = Ok (DDict table) ->
  (forall row, In row rows -> stored_account table row <> None) ->
  main rt a w
  = write_billing_csv rt (map (enrich table) rows) (dest_csv_filename a) w.
Proof.
  intros Hsrc Hmp Hrows Htable Hall.
  unfold main, bind, load_csv, touch_if_missing.
  rewrite Hsrc, Hrows. cbv beta iota. rewrite Hmp. cbv beta iota.
  rewrite Hmp, Htable. cbv beta iota.
  now rewrite convert_formats_all_mapped.
Qed.

Lemma table_text_same (rt1 rt2 : runtime) (headers : list string) (rows : list record) :
  set_iter rt1 headers = set_iter rt2 headers ->
  str_of_list rt1 = str_of_list rt2 ->
  table_text rt1 headers rows = table_text rt2 headers rows.
Proof.
  intros Ho Hs. unfold table_text, rows_text, row_cells, DictWriter.cell_text.
  now rewrite Ho, Hs.
Qed.

(** C4, as stated, fails: two runs on the same source file and the
    same fully populated mapping file, in two processes that iterate
    the set of billing headers in different orders, prompt for nothing
    and write destination files that differ. *)
Lemma set_order_changes_destination :
  iter_ok example_runtime BILLING_HEADERS
  /\ iter_ok reversed_runtime BILLING_HEADERS
  /\ read_dataset example_source_file false = Ok (DList [example_row])
  /\ read_dataset example_mapping_file true = Ok (DDict example_table)
  /\ stored_account example_table example_row = Some (PStr "ACC-1")
  /\ exists c1 c2,
       fst (main example_runtime example_args example_files) = Ok true
       /\ fst (main reversed_runtime example_args example_files) = Ok true
       /\ trace (snd (main example_runtime example_args example_files))
          = [EvWrite "out.csv" c1]
       /\ trace (snd (main reversed_runtime example_args example_files))
          = [EvWrite "out.csv" c2]
       /\ fs (snd (main example_runtime example_args example_files)) "out.csv" = Some c1
       /\ fs (snd (main reversed_runtime example_args example_files)) "out.csv" = Some c2
       /\ c1 <> c2.
Proof.
  split; [apply Permutation_refl|].
  split; [apply Permutation_sym, Permutation_rev|].
  split; [reflexivity|]. split; [reflexivity|]. split; [reflexivity|].
  eexists _, _.
  split; [vm_compute; reflexivity|]. split; [vm_compute; reflexivity|].
  split; [vm_compute; reflexivity|]. split; [vm_compute; reflexivity|].
  split; [vm_compute; reflexivity|]. split; [vm_compute; reflexivity|].
  discriminate.
Qed.

(** C4, amended.  Two runs that find the same source file and the same
    mapping file, in which every identifier of the source is mapped,
    and whose processes iterate the set of billing headers in the same
    order, both succeed, write the same text to their destination
    files, whatever the clocks read and whatever the names of those
    files, and neither prompts, reads the console or writes any other
    file. *)
Theorem rerun_gives_same_destination
  (rt1 rt2 : runtime) (a1 a2 : args) (w1 w2 : world) (src mp : string)
  (rows : list record) (table : mapping) :
  set_iter rt1 BILLING_HEADERS = set_iter rt2 BILLING_HEADERS ->
  str_of_list rt1 = str_of_list rt2 ->
  os_linesep rt1 = os_linesep rt2 ->
  iter_ok rt1 BILLING_HEADERS ->
  fs w1 (source_csv_filename a1) = Some src ->
  fs w2 (source_csv_filename a2) = Some src ->
  fs w1 DEFAULT_MAPPING_CSV_FILENAME = Some mp ->
  fs w2 DEFAULT_MAPPING_CSV_FILENAME = Some mp ->
  read_dataset src false = Ok (DList rows) ->
  read_dataset mp true = Ok (DDict table) ->
  (forall row, In row rows -> stored_account table row <> None) ->
  (forall row, In row rows -> DictWriter.wrong_fields BILLING_HEADERS row = []) ->
  exists content,
    let f1 := billing_filename rt1 (dest_csv_filename a1) in
    let f2 := billing_filename rt2 (dest_csv_filename a2) in
    main rt1 a1 w1
    = (Ok true, mkWorld (fs_put f1 content (fs w1)) (stdin w1)
                  (trace w1 ++ [EvWrite f1 content]))
    /\ main rt2 a2 w2
       = (Ok true, mkWorld (fs_put f2 content (fs w2)) (stdin w2)
                     (trace w2 ++ [EvWrite f2 content])).
Proof.
  intros Ho Hs Hl P Hs1 Hs2 Hm1 Hm2 Hrows Htable Hall Hok.
  assert (iter_ok rt2 BILLING_HEADERS) as P2 by (unfold iter_ok; now rewrite <- Ho).
  assert (forall r, In r (map (enrich table) rows) -> fields_ok BILLING_HEADERS r) as Hout.
  { intros r I. apply in_map_iff in I. destruct I as (row & <- & I).
    now apply enrich_fields_ok, Hok. }
  exists (TextIO.write_text (os_linesep rt1)
            (table_text rt1 BILLING_HEADERS (map (enrich table) rows))).
  cbv zeta. split.
  - rewrite (main_all_mapped rt1 a1 w1 Hs1 Hm1 Hrows Htable Hall).
    unfold write_billing_csv.
    now rewrite write_csv_ok; [| | apply nodup_billing_headers |].
  - rewrite (main_all_mapped rt2 a2 w2 Hs2 Hm2 Hrows Htable Hall).
    unfold write_billing_csv.
    rewrite write_csv_ok; [| assumption | apply nodup_billing_headers | assumption].
    now rewrite Hl, (table_text_same rt1 rt2 BILLING_HEADERS _ Ho Hs).
Qed.

Lemma rerun_gives_same_destination_witness :
  exists content,
    let f1 := billing_filename example_runtime (dest_csv_filename default_args) in
    let f2 := billing_filename later_runtime (dest_csv_filename default_args) in
    main example_runtime default_args example_files
    = (Ok true, mkWorld (fs_put f1 content (fs example_files)) (stdin example_files)
                  (trace example_files ++ [EvWrite f1 content]))
    /\ main later_runtime default_args example_files
       = (Ok true, mkWorld (fs_put f2 content (fs example_files)) (stdin example_files)
                     (trace example_files ++ [EvWrite f2 content])).
Proof.
  apply (@rerun_gives_same_destination example_runtime later_runtime default_args
           default_args example_files example_files example_source_file
           example_mapping_file [example_row] example_table).
  - reflexivity.
  - reflexivity.
  - reflexivity.
  - apply Permutation_refl.
  - reflexivity.
  - reflexivity.
  - reflexivity.
  - reflexivity.
  - reflexivity.
  - reflexivity.
  - intros row [<-|[]]. discriminate.
  - intros row [<-|[]]. reflexivity.
Defined.

(** ** Reading back what the writer wrote *)

Lemma reader_nonempty (r : Csv.Reader) (s : string) :
  s <> EmptyString -> Csv.reader r (TextIO.split_lines s) = reader_mid r s.
Proof.
  unfold reader_mid. destruct s as [|c s]; [congruence|]. intros _.
  simpl TextIO.split_lines. destruct (Ascii.eqb c LF); [reflexivity|].
  destruct (TextIO.split_lines s); reflexivity.
Qed.

(** The reader takes the text one character at a time; after a line
    feed it is given the end of the line. *)
Lemma reader_mid_step (r : Csv.Reader) (c : ascii) (s : string) :
  reader_mid r (String c s)
  = (let! r1 := Csv.parse_process_char r (Csv.Ch c) in
     if Ascii.eqb c LF then
       let! r2 := Csv.parse_process_char r1 Csv.EOL in
       if Csv.state_eqb (Csv.state r2) Csv.START_RECORD then
         let! rows := Csv.reader Csv.parse_reset (TextIO.split_lines s) in
         Ok (Csv.fields r2 :: rows)
       else Csv.reader r2 (TextIO.split_lines s)
     else reader_mid r1 s)%result.
Proof.
  unfold reader_mid. simpl TextIO.split_lines.
  destruct (Ascii.eqb c LF).
  - simpl. destruct (Csv.parse_process_char r (Csv.Ch c)); reflexivity.
  - destruct (TextIO.split_lines s) as [|l ls]; simpl;
      destruct (Csv.parse_process_char r (Csv.Ch c)); reflexivity.
Qed.

Lemma double_quotes_then_nonempty (f t : string) (c : ascii) :
  (Csv.double_quotes f ++ String c t)%string <> EmptyString.
Proof. destruct (Csv.double_quotes f); discriminate. Qed.

(** The transitions of the parser that reading a written row takes. *)

Lemma step_start_quote (st : Csv.ParserState) (buf : string) (flds : list string) :
  st = Csv.START_RECORD \/ st = Csv.START_FIELD ->
  Csv.parse_process_char (Csv.mkReader st buf flds) (Csv.Ch DQUOTE)
  = Ok (Csv.mkReader Csv.IN_QUOTED_FIELD buf flds).
Proof. intros [->| ->]; reflexivity. Qed.

Lemma step_in_quoted_quote (buf : string) (flds : list string) :
  Csv.parse_process_char (Csv.mkReader Csv.IN_QUOTED_FIELD buf flds) (Csv.Ch DQUOTE)
  = Ok (Csv.mkReader Csv.QUOTE_IN_QUOTED_FIELD buf flds).
Proof. reflexivity. Qed.

Lemma code_points_app (a b : string) :
  Csv.code_points (a ++ b) = Csv.code_points a + Csv.code_points b.
Proof.
  induction a as [|c a IH]; [reflexivity|]. simpl.
  destruct (Csv.is_continuation c); rewrite IH; reflexivity.
Qed.

Lemma code_points_le_length (s : string) : Csv.code_points s <= String.length s.
Proof.
  induction s as [|c s IH]; [apply Nat.le_refl|]. simpl.
  destruct (Csv.is_continuation c); lia.
Qed.

Lemma within_field_limit_prefix (a b : string) :
  within_field_limit (a ++ b) -> within_field_limit a.
Proof. unfold within_field_limit. rewrite code_points_app. lia. Qed.

(** A character is added to a field that stays within the limit. *)
Lemma add_char_within (st : Csv.ParserState) (buf : string) (flds : list string)
  (x : ascii) :
  within_field_limit (buf ++ str1 x) ->
  Csv.parse_add_char (Csv.mkReader st buf flds) x
  = Ok (Csv.mkReader st (buf ++ str1 x) flds).
Proof.
  unfold within_field_limit, Csv.parse_add_char. rewrite code_points_app.
  cbn [Csv.field Csv.state Csv.fields Csv.code_points str1].
  destruct (Csv.is_continuation x); [reflexivity|]. intros H.
  cbn [negb andb].
  assert ((field_size_limit <=? N.of_nat (Csv.code_points buf))%N = false) as ->
    by (apply N.leb_gt; lia).
  reflexivity.
Qed.

Lemma step_in_quoted_char (buf : string) (flds : list string) (x : ascii) :
  Ascii.eqb x DQUOTE = false ->
  within_field_limit (buf ++ str1 x) ->
  Csv.parse_process_char (Csv.mkReader Csv.IN_QUOTED_FIELD buf flds) (Csv.Ch x)
  = Ok (Csv.mkReader Csv.IN_QUOTED_FIELD (buf ++ str1 x) flds).
Proof.
  intros E H. unfold Csv.parse_process_char. cbn [Csv.state]. rewrite E.
  now apply add_char_within.
Qed.

Lemma step_in_quoted_eol (buf : string) (flds : list string) :
  Csv.parse_process_char (Csv.mkReader Csv.IN_QUOTED_FIELD buf flds) Csv.EOL
  = Ok (Csv.mkReader Csv.IN_QUOTED_FIELD buf flds).
Proof. reflexivity. Qed.

Lemma step_quote_quote (buf : string) (flds : list string) :
  within_field_limit (buf ++ str1 DQUOTE) ->
  Csv.parse_process_char (Csv.mkReader Csv.QUOTE_IN_QUOTED_FIELD buf flds) (Csv.Ch DQUOTE)
  = Ok (Csv.mkReader Csv.IN_QUOTED_FIELD (buf ++ str1 DQUOTE) flds).
Proof.
  intros H. unfold Csv.parse_process_char. cbn [Csv.state Csv.is_char].
  change (Ascii.eqb DQUOTE DQUOTE) with true. cbv iota.
  unfold Csv.add_char_then. now rewrite add_char_within.
Qed.

Lemma step_quote_comma (buf : string) (flds : list string) :
  Csv.parse_process_char (Csv.mkReader Csv.QUOTE_IN_QUOTED_FIELD buf flds) (Csv.Ch COMMA)
  = Ok (Csv.mkReader Csv.START_FIELD EmptyString (flds ++ [buf])).
Proof. reflexivity. Qed.

Lemma step_quote_lf (buf : string) (flds : list string) :
  Csv.parse_process_char (Csv.mkReader Csv.QUOTE_IN_QUOTED_FIELD buf flds) (Csv.Ch LF)
  = Ok (Csv.mkReader Csv.EAT_CRNL EmptyString (flds ++ [buf])).
Proof. reflexivity. Qed.

Lemma step_eat_eol (buf : string) (flds : list string) :
  Csv.parse_process_char (Csv.mkReader Csv.EAT_CRNL buf flds) Csv.EOL
  = Ok (Csv.mkReader Csv.START_RECORD buf flds).
Proof. reflexivity. Qed.

Lemma dquote_not_lf : Ascii.eqb DQUOTE LF = false.
Proof. reflexivity. Qed.

Lemma comma_not_lf : Ascii.eqb COMMA LF = false.
Proof. reflexivity. Qed.

(** Inside quotes, the reader takes the doubled form of a field up to
    the closing quote and has the field. *)
Lemma read_quoted_body (f : string) :
  forall (buf : string) (flds : list string) (t : string),
    within_field_limit (buf ++ f) ->
    reader_mid (Csv.mkReader Csv.IN_QUOTED_FIELD buf flds)
               (Csv.double_quotes f ++ String DQUOTE t)
    = reader_mid (Csv.mkReader Csv.QUOTE_IN_QUOTED_FIELD (buf ++ f) flds) t.
Proof.
  induction f as [|x f IH]; intros buf flds t Hfit.
  - change (Csv.double_quotes EmptyString ++ String DQUOTE t)%string
      with (String DQUOTE t).
    rewrite reader_mid_step, step_in_quoted_quote, dquote_not_lf, append_nil_r.
    reflexivity.
  - assert ((buf ++ str1 x) ++ f = buf ++ String x f)%string as Happ
      by (now rewrite append_assoc).
    assert (within_field_limit (buf ++ str1 x)) as Hx
      by (apply within_field_limit_prefix with (b := f); now rewrite Happ).
    assert (within_field_limit ((buf ++ str1 x) ++ f)) as Hf by (now rewrite Happ).
    simpl Csv.double_quotes. destruct (Ascii.eqb x DQUOTE) eqn:E.
    + apply Ascii.eqb_eq in E. subst x.
      change (String DQUOTE (String DQUOTE (Csv.double_quotes f)) ++ String DQUOTE t)%string
        with (String DQUOTE (String DQUOTE (Csv.double_quotes f ++ String DQUOTE t))).
      rewrite reader_mid_step, step_in_quoted_quote, dquote_not_lf. cbn [rbind].
      rewrite reader_mid_step, step_quote_quote, dquote_not_lf by exact Hx. cbn [rbind].
      now rewrite IH, Happ.
    + change (String x (Csv.double_quotes f) ++ String DQUOTE t)%string
        with (String x (Csv.double_quotes f ++ String DQUOTE t)).
      rewrite reader_mid_step, step_in_quoted_char by assumption. cbn [rbind].
      destruct (Ascii.eqb x LF).
      * rewrite step_in_quoted_eol. cbn [rbind Csv.state Csv.state_eqb].
        rewrite reader_nonempty by apply double_quotes_then_nonempty.
        now rewrite IH, Happ.
      * now rewrite IH, Happ.
Qed.

(** From the start of a field, the reader takes the fields of a
    written row up to the line feed that ends it. *)
Lemma read_fields (cells : list string) :
  forall (st : Csv.ParserState) (flds : list string) (rest : string),
    cells <> [] ->
    cells_within_field_limit cells ->
    st = Csv.START_RECORD \/ st = Csv.START_FIELD ->
    reader_mid (Csv.mkReader st EmptyString flds)
               (Csv.join_fields cells ++ String LF rest)
    = (let! rows := Csv.reader Csv.parse_reset (TextIO.split_lines rest) in
       Ok ((flds ++ cells) :: rows))%result.
Proof.
  induction cells as [|c cs IH]; intros st flds rest Hne Hfit Hst; [congruence|].
  assert (within_field_limit (EmptyString ++ c)) as Hc by (apply Hfit; now left).
  destruct cs as [|c2 cs].
  - change (Csv.join_fields [c] ++ String LF rest)%string
      with (String DQUOTE ((Csv.double_quotes c ++ str1 DQUOTE) ++ String LF rest)).
    rewrite append_assoc.
    change (str1 DQUOTE ++ String LF rest)%string with (String DQUOTE (String LF rest)).
    rewrite reader_mid_step, step_start_quote, dquote_not_lf by exact Hst. cbn [rbind].
    rewrite read_quoted_body by exact Hc.
    rewrite reader_mid_step, step_quote_lf. cbn [rbind].
    change (Ascii.eqb LF LF) with true. cbv iota.
    rewrite step_eat_eol. reflexivity.
  - change (Csv.join_fields (c :: c2 :: cs) ++ String LF rest)%string
      with (String DQUOTE ((Csv.double_quotes c ++ str1 DQUOTE)
                           ++ String COMMA (Csv.join_fields (c2 :: cs)))
            ++ String LF rest)%string.
    change (String DQUOTE ((Csv.double_quotes c ++ str1 DQUOTE)
                           ++ String COMMA (Csv.join_fields (c2 :: cs)))
            ++ String LF rest)%string
      with (String DQUOTE (((Csv.double_quotes c ++ str1 DQUOTE)
                            ++ String COMMA (Csv.join_fields (c2 :: cs)))
                           ++ String LF rest))%string.
    rewrite !append_assoc.
    change (str1 DQUOTE ++ String COMMA (Csv.join_fields (c2 :: cs)) ++ String LF rest)%string
      with (String DQUOTE (String COMMA (Csv.join_fields (c2 :: cs) ++ String LF rest))).
    rewrite reader_mid_step, step_start_quote, dquote_not_lf by exact Hst. cbn [rbind].
    rewrite read_quoted_body by exact Hc.
    rewrite reader_mid_step, step_quote_comma, comma_not_lf. cbn [rbind].
    rewrite IH;
      [| discriminate | intros x I; apply Hfit; now right | now right].
    now rewrite <- app_assoc.
Qed.

(** The reader gives back the cells of a written row, then goes on
    with the text after it. *)
Lemma read_row (cells : list string) (rest : string) :
  cells_within_field_limit cells ->
  Csv.reader Csv.parse_reset
    (TextIO.split_lines (Csv.join_fields cells ++ String LF rest))
  = (let! rows := Csv.reader Csv.parse_reset (TextIO.split_lines rest) in
     Ok (cells :: rows))%result.
Proof.
  intros Hfit. destruct cells as [|c cs].
  - change (Csv.join_fields [] ++ String LF rest)%string with (String LF rest).
    reflexivity.
  - rewrite reader_nonempty.
    + unfold Csv.parse_reset.
      rewrite read_fields; [reflexivity | discriminate | assumption | now left].
    + destruct cs; discriminate.
Qed.

(** ** Writing text, then reading it with universal newlines *)

(** Text without carriage returns comes back as it was written. *)
Lemma translate_written (sep s t : string) :
  known_linesep sep -> has_char CR s = false ->
  TextIO.translate false (TextIO.write_text sep s ++ t)
  = (s ++ TextIO.translate false t)%string.
Proof.
  intros Hsep. induction s as [|c s IH]; intros H; [reflexivity|].
  simpl in H. apply orb_false_elim in H. destruct H as [Hc Hs].
  simpl TextIO.write_text. destruct (Ascii.eqb c LF) eqn:E.
  - apply Ascii.eqb_eq in E. subst c.
    destruct Hsep as [-> | ->]; simpl; now rewrite IH.
  - simpl. rewrite Hc, E. now rewrite IH.
Qed.

(** The line terminator comes back as one line feed, or as two. *)
Lemma translate_terminator (sep t : string) :
  known_linesep sep ->
  TextIO.translate false (TextIO.write_text sep CRLF ++ t)
  = String LF (extra_blank sep ++ TextIO.translate false t)%string.
Proof. intros [-> | ->]; reflexivity. Qed.

Lemma has_char_double_quotes (f : string) :
  has_char CR (Csv.double_quotes f) = has_char CR f.
Proof.
  induction f as [|x f IH]; [reflexivity|]. simpl.
  destruct (Ascii.eqb x DQUOTE) eqn:E; simpl; rewrite IH; [|reflexivity].
  apply Ascii.eqb_eq in E. now subst x.
Qed.

Lemma has_char_quoted (f : string) : has_char CR (Csv.quoted f) = has_char CR f.
Proof.
  unfold Csv.quoted. simpl. rewrite has_char_app, has_char_double_quotes.
  simpl. now rewrite !orb_false_r.
Qed.

Lemma has_char_join_fields (cells : list string) :
  no_cr cells -> has_char CR (Csv.join_fields cells) = false.
Proof.
  induction cells as [|c cs IH]; intros H; [reflexivity|].
  assert (has_char CR c = false) as Hc by (apply H; now left).
  assert (no_cr cs) as Hcs by (intros x I; apply H; now right).
  destruct cs as [|c2 cs].
  - simpl Csv.join_fields. now rewrite has_char_quoted.
  - change (Csv.join_fields (c :: c2 :: cs))
      with (Csv.quoted c ++ String COMMA (Csv.join_fields (c2 :: cs)))%string.
    rewrite has_char_app, has_char_quoted, Hc. simpl. now apply IH.
Qed.

Lemma lines_text_cons (cells : list string) (cellss : list (list string)) :
  lines_text (cells :: cellss)
  = (Csv.join_fields cells ++ CRLF ++ lines_text cellss)%string.
Proof.
  unfold lines_text. simpl map. rewrite concat_cons. unfold Csv.writerow.
  now rewrite append_assoc.
Qed.

(** Rows of cells without carriage returns, written as text to a file
    and read from it, are the rows the reader returns; on a host whose
    line separator is CR LF a blank row follows each of them. *)
Lemma read_written (sep : string) (cellss : list (list string)) :
  known_linesep sep ->
  (forall cells, In cells cellss -> no_cr cells) ->
  (forall cells, In cells cellss -> cells_within_field_limit cells) ->
  Csv.reader Csv.parse_reset
    (TextIO.split_lines
       (TextIO.translate false (TextIO.write_text sep (lines_text cellss))))
  = Ok (flat_map (fun cells => cells :: blank_rows sep) cellss).
Proof.
  intros Hsep. induction cellss as [|cells cellss IH]; intros H Hfit; [reflexivity|].
  rewrite lines_text_cons, !write_text_app.
  rewrite translate_written, translate_terminator;
    [| assumption | assumption | now apply has_char_join_fields, H; left].
  rewrite read_row by (apply Hfit; now left).
  assert (Csv.reader Csv.parse_reset
            (TextIO.split_lines
               (TextIO.translate false (TextIO.write_text sep (lines_text cellss))))
          = Ok (flat_map (fun cells => cells :: blank_rows sep) cellss)) as IH'
    by (apply IH; intros c I; [apply H | apply Hfit]; now right).
  unfold extra_blank, blank_rows in *. simpl flat_map.
  destruct (String.eqb sep CRLF).
  - change (str1 LF ++ ?t)%string with (Csv.join_fields [] ++ String LF t)%string.
    rewrite read_row by (intros x []). now rewrite IH'.
  - change (EmptyString ++ ?t)%string with t. now rewrite IH'.
Qed.

Lemma strip_bom_quote (s : string) :
  TextIO.strip_bom (String DQUOTE s) = String DQUOTE s.
Proof. reflexivity. Qed.

Lemma lines_text_starts_with_quote (sep h : string) (hs : list string)
  (cellss : list (list string)) :
  exists s, TextIO.write_text sep (lines_text ((h :: hs) :: cellss)) = String DQUOTE s.
Proof.
  rewrite lines_text_cons. destruct hs; simpl; eauto.
Qed.

Lemma filter_blank_rows (sep : string) (cellss : list (list string)) :
  (forall cells, In cells cellss -> cells <> []) ->
  filter (fun r => negb (Csv.is_blank r))
         (flat_map (fun cells => cells :: blank_rows sep) cellss)
  = cellss.
Proof.
  induction cellss as [|cells cellss IH]; intros H; [reflexivity|].
  simpl flat_map. simpl filter.
  destruct cells as [|c cs]; [now specialize (H [] (or_introl eq_refl))|].
  simpl. rewrite filter_app, IH by (intros c' I; apply H; now right).
  unfold blank_rows. now destruct (String.eqb sep CRLF).
Qed.

(** Reading the text of a table gives one dict for each row of cells,
    named by the header row; as a dict they are stored key by key. *)
Lemma read_table_text (sep : string) (names : list string) (cellss : list (list string))
  (load_as_dict : bool) :
  known_linesep sep ->
  names <> [] -> no_cr names ->
  (forall cells, In cells cellss -> no_cr cells /\ cells <> []) ->
  cells_within_field_limit names ->
  (forall cells, In cells cellss -> cells_within_field_limit cells) ->
  read_dataset (TextIO.write_text sep (lines_text (names :: cellss))) load_as_dict
  = (if load_as_dict then
       let! table := load_dict (map (Csv.DictReader_next names) cellss) PyDict.empty in
       Ok (DDict table)
     else Ok (DList (map (Csv.DictReader_next names) cellss)))%result.
Proof.
  intros Hsep Hne Hnames Hcells Hfn Hfc.
  assert (Csv.reader Csv.parse_reset
            (TextIO.read_lines (TextIO.write_text sep (lines_text (names :: cellss))))
          = Ok (flat_map (fun cells => cells :: blank_rows sep) (names :: cellss))) as E.
  { unfold TextIO.read_lines. destruct names as [|h hs]; [congruence|].
    destruct (lines_text_starts_with_quote sep h hs cellss) as [s Hs].
    rewrite Hs, strip_bom_quote, <- Hs.
    apply read_written; [assumption | |].
    - intros cells [<-|I]; [assumption | now apply Hcells].
    - intros cells [<-|I]; [assumption | now apply Hfc]. }
  rewrite (@read_dataset_ok _ load_as_dict _ E).
  cbn [flat_map Csv.DictReader app].
  rewrite filter_app, filter_blank_rows by (intros c I; now apply Hcells).
  assert (filter (fun r => negb (Csv.is_blank r)) (blank_rows sep) = []) as ->
    by (unfold blank_rows; now destruct (String.eqb sep CRLF)).
  reflexivity.
Qed.

(** ** C3: writing the mapping table and loading it again *)

Lemma get_zip_map (g : string -> string) (l : list string) (h : string) :
  In h l ->
  PyDict.get (PStr h) (map str_pair (combine l (map g l))) = Some (PStr (g h)).
Proof.
  induction l as [|a l IH]; simpl; [tauto|].
  intros I. destruct (pyval_eq_dec (PStr h) (PStr a)) as [E|N].
  - now injection E as ->.
  - destruct I as [->|I]; [congruence | now apply IH].
Qed.

Lemma keys_zip_map (g : string -> string) (l : list string) :
  PyDict.keys (map str_pair (combine l (map g l))) = map PStr l.
Proof. induction l as [|a l IH]; simpl; [reflexivity | now rewrite IH]. Qed.

Lemma reload_zip (rt : runtime) (headers : list string) (e : record) :
  NoDup (set_iter rt headers) ->
  reload rt headers e
  = map str_pair (combine (set_iter rt headers) (row_cells rt headers e)).
Proof.
  intros ND. unfold reload, Csv.DictReader_next, row_cells.
  rewrite length_map, Nat.ltb_irrefl. now apply zip_dict_nodup.
Qed.

Section RoundTrip.
Variable rt : runtime.
Hypothesis iter_mapping : iter_ok rt MAPPING_HEADERS.

Lemma iter_mapping_nodup : NoDup (set_iter rt MAPPING_HEADERS).
Proof.
  apply (Permutation_NoDup (Permutation_sym iter_mapping) nodup_mapping_headers).
Qed.

Lemma iter_mapping_in (h : string) :
  In h (set_iter rt MAPPING_HEADERS) <-> In h MAPPING_HEADERS.
Proof.
  split; [apply (Permutation_in _ iter_mapping)
         | apply (Permutation_in _ (Permutation_sym iter_mapping))].
Qed.

Lemma iter_mapping_no_cr : no_cr (set_iter rt MAPPING_HEADERS).
Proof.
  intros h I. apply iter_mapping_in in I. simpl in I.
  destruct I as [<-|[<-|[<-|[]]]]; reflexivity.
Qed.

Lemma iter_mapping_nonempty : set_iter rt MAPPING_HEADERS <> [].
Proof.
  intros E. pose proof (proj2 (iter_mapping_in "Customer ID")) as H.
  rewrite E in H. apply H. now left.
Qed.

Lemma plain_cells (k : pyval) (e : record) :
  plain_entry k e ->
  no_cr (row_cells rt MAPPING_HEADERS e) /\ row_cells rt MAPPING_HEADERS e <> [].
Proof.
  intros (_ & _ & Hf). split.
  - intros c I. unfold row_cells in I. apply in_map_iff in I.
    destruct I as (h & <- & I). apply iter_mapping_in in I.
    destruct (Hf h I) as (x & -> & Hx). exact Hx.
  - unfold row_cells. pose proof iter_mapping_nonempty.
    destruct (set_iter rt MAPPING_HEADERS); [congruence | discriminate].
Qed.

Lemma iter_mapping_within : cells_within_field_limit (set_iter rt MAPPING_HEADERS).
Proof.
  intros h I. apply iter_mapping_in in I. simpl in I.
  destruct I as [<-|[<-|[<-|[]]]]; unfold within_field_limit, field_size_limit;
    simpl; lia.
Qed.

Lemma plain_cells_within (k : pyval) (e : record) :
  plain_entry k e -> entry_within_field_limit e ->
  cells_within_field_limit (row_cells rt MAPPING_HEADERS e).
Proof.
  intros (_ & _ & Hf) Hfit c I. unfold row_cells in I. apply in_map_iff in I.
  destruct I as (h & <- & I). apply iter_mapping_in in I.
  destruct (Hf h I) as (x & Hx & _). rewrite Hx. apply (Hfit h x Hx).
Qed.

(** A plain entry comes back with the fields it had. *)
Lemma reload_plain (k : pyval) (e : record) (f : pyval) :
  plain_entry k e ->
  PyDict.get f (reload rt MAPPING_HEADERS e) = PyDict.get f e.
Proof.
  intros (Hok & _ & Hf). rewrite reload_zip by apply iter_mapping_nodup.
  unfold row_cells.
  destruct (in_dec pyval_eq_dec f (map PStr MAPPING_HEADERS)) as [I|NI].
  - apply in_map_iff in I. destruct I as (h & <- & I).
    rewrite get_zip_map by now apply iter_mapping_in.
    destruct (Hf h I) as (x & -> & _). reflexivity.
  - transitivity (@None pyval); [|symmetry]; apply get_none_not_in; intros I; apply NI.
    + rewrite keys_zip_map in I. apply in_map_iff in I. destruct I as (h & <- & I).
      apply in_map. now apply iter_mapping_in.
    + apply (proj1 (wrong_fields_nil _ _) Hok) in I.
      destruct f as [s| |l]; try discriminate I.
      apply in_map. now apply in_fieldnames_in.
Qed.

End RoundTrip.

(** C3, as stated, fails: a table whose company name holds a carriage
    return is written and loaded again, and the name comes back with a
    line feed in its place. *)
Lemma carriage_return_is_not_preserved :
  let table := [(PStr "C1", entry_with_cr)] in
  let w := snd (write_csv example_runtime DEFAULT_MAPPING_CSV_FILENAME MAPPING_HEADERS
                  (PyDict.values table) (example_world [])) in
  exists table' e',
    fst (write_csv example_runtime DEFAULT_MAPPING_CSV_FILENAME MAPPING_HEADERS
           (PyDict.values table) (example_world [])) = Ok true
    /\ fst (load_csv DEFAULT_MAPPING_CSV_FILENAME MAPPING_HEADERS true w)
       = Ok (DDict table')
    /\ PyDict.get (PStr "C1") table' = Some e'
    /\ PyDict.get (PStr "Company Name") entry_with_cr
       = Some (PStr ("A" ++ String CR "B"))
    /\ PyDict.get (PStr "Company Name") e' = Some (PStr ("A" ++ String LF "B"))
    /\ PyDict.get (PStr "Company Name") e'
       <> PyDict.get (PStr "Company Name") entry_with_cr.
Proof.
  eexists _, _.
  split; [vm_compute; reflexivity|]. split; [vm_compute; reflexivity|].
  split; [vm_compute; reflexivity|]. split; [reflexivity|].
  split; [reflexivity|]. discriminate.
Qed.

(** C3, amended.  A mapping table without a key twice, whose entries
    hold the three mapping fields as strings without carriage returns
    and no longer than the csv reader allows a field to be (131072
    characters), the Customer ID being the key, is written with the
    mapping headers, its rows in any order; the write succeeds, and
    loading the file as a dict gives a table with the same keys and,
    under each key, the same fields. *)
Theorem mapping_round_trip
  (rt : runtime) (filename : string) (table : mapping) (rows : list record) (w : world) :
  iter_ok rt MAPPING_HEADERS ->
  known_linesep (os_linesep rt) ->
  NoDup (PyDict.keys table) ->
  (forall k e, In (k, e) table -> plain_entry k e) ->
  (forall k e, In (k, e) table -> entry_within_field_limit e) ->
  Permutation rows (PyDict.values table) ->
  exists content table',
    write_csv rt filename MAPPING_HEADERS rows w
    = (Ok true, mkWorld (fs_put filename content (fs w)) (stdin w)
                  (trace w ++ [EvWrite filename content]))
    /\ (forall w', fs w' filename = Some content ->
        load_csv filename MAPPING_HEADERS true w' = (Ok (DDict table'), w'))
    /\ same_table table table'.
Proof.
  intros P Hsep ND Hplain Hfit Hperm.
  assert (forall e, In e rows -> exists k, In (k, e) table) as Hrows.
  { intros e I. apply (Permutation_in _ Hperm) in I. unfold PyDict.values in I.
    apply in_map_iff in I. destruct I as ([k e'] & <- & I). now exists k. }
  assert (forall k e, In (k, e) table -> In e rows) as Hrows'.
  { intros k e I. apply (Permutation_in _ (Permutation_sym Hperm)).
    change e with (snd (k, e)). now apply in_map. }
  set (records := map (reload rt MAPPING_HEADERS) rows).
  assert (forall r k, In r records -> account_key_is k r = true ->
          exists e, In (k, e) table /\ r = reload rt MAPPING_HEADERS e) as Hrec.
  { intros r k I Hk. apply in_map_iff in I. destruct I as (e & <- & I).
    destruct (Hrows e I) as (k' & Ik'). exists e. split; [|reflexivity].
    pose proof (Hplain _ _ Ik') as Hp. unfold account_key_is in Hk.
    rewrite (reload_plain P _ Hp) in Hk. destruct Hp as (_ & Hkey & _).
    rewrite Hkey in Hk. destruct (pyval_eq_dec k' k) as [<-|]; [assumption | discriminate]. }
  destruct (@load_dict_spec records PyDict.empty) as (table' & Hload & Hget & _).
  { intros r I. apply in_map_iff in I. destruct I as (e & <- & I).
    destruct (Hrows e I) as (k & Ik). pose proof (Hplain _ _ Ik) as Hp.
    exists k. rewrite (reload_plain P _ Hp). destruct Hp as (_ & Hkey & Hf).
    split; [exact Hkey|].
    destruct (Hf ACCOUNT_KEY) as (x & Hx & _); [now left|].
    rewrite Hkey in Hx. now injection Hx as ->. }
  exists (TextIO.write_text (os_linesep rt) (table_text rt MAPPING_HEADERS rows)), table'.
  split; [|split].
  - apply write_csv_ok; [assumption | apply nodup_mapping_headers |].
    intros e I. destruct (Hrows e I) as (k & Ik). now destruct (Hplain _ _ Ik).
  - intros w' Hfile. unfold load_csv. rewrite Hfile, table_text_lines.
    rewrite read_table_text;
      [| assumption | now apply iter_mapping_nonempty | now apply iter_mapping_no_cr
       | | now apply iter_mapping_within |].
    + rewrite map_map.
      change (load_dict _ PyDict.empty) with (load_dict records PyDict.empty).
      now rewrite Hload.
    + intros cells I. apply in_map_iff in I. destruct I as (e & <- & I).
      destruct (Hrows e I) as (k & Ik). now apply (plain_cells P (Hplain _ _ Ik)).
    + intros cells I. apply in_map_iff in I. destruct I as (e & <- & I).
      destruct (Hrows e I) as (k & Ik).
      apply (plain_cells_within P (Hplain _ _ Ik)), (Hfit _ _ Ik).
  - intros k. rewrite Hget. cbn [PyDict.get PyDict.empty].
    destruct (last_with_key k records) as [r|] eqn:F.
    + apply find_some in F. destruct F as [I Hk]. apply in_rev in I.
      destruct (Hrec r k I Hk) as (e & Ie & ->).
      rewrite (in_get_nodup _ _ _ ND Ie).
      intros f. now apply (reload_plain P f (Hplain _ _ Ie)).
    + destruct (PyDict.get k table) as [e|] eqn:G; [|exact I].
      apply get_some_in in G.
      assert (account_key_is k (reload rt MAPPING_HEADERS e) = true) as Hk.
      { unfold account_key_is. rewrite (reload_plain P _ (Hplain _ _ G)).
        destruct (Hplain _ _ G) as (_ & -> & _).
        destruct (pyval_eq_dec k k); congruence. }
      pose proof (find_none _ _ F (reload rt MAPPING_HEADERS e)) as Hnone.
      rewrite Hk in Hnone. discriminate Hnone.
      apply -> in_rev. unfold records. apply in_map. now apply (Hrows' k).
Qed.

Lemma example_entry_plain (k : pyval) (e : record) :
  In (k, e) example_table -> plain_entry k e.
Proof.
  intros [[= <- <-]|[]]. split; [reflexivity|]. split; [reflexivity|].
  intros h [<-|[<-|[<-|[]]]]; eexists; split; reflexivity.
Qed.

Lemma example_entry_within (k : pyval) (e : record) :
  In (k, e) example_table -> entry_within_field_limit e.
Proof.
  intros [[= <- <-]|[]] h x. unfold example_entry, new_entry. simpl.
  repeat (destruct (pyval_eq_dec _ _); [intros [= <-]; unfold within_field_limit,
    field_size_limit; simpl; lia|]).
  discriminate.
Qed.

Lemma mapping_round_trip_witness :
  exists content table',
    write_csv example_runtime DEFAULT_MAPPING_CSV_FILENAME MAPPING_HEADERS
      (PyDict.values example_table) (example_world [])
    = (Ok true, mkWorld (fs_put DEFAULT_MAPPING_CSV_FILENAME content
                           (fs (example_world [])))
                  (stdin (example_world []))
                  (trace (example_world [])
                   ++ [EvWrite DEFAULT_MAPPING_CSV_FILENAME content]))
    /\ (forall w', fs w' DEFAULT_MAPPING_CSV_FILENAME = Some content ->
        load_csv DEFAULT_MAPPING_CSV_FILENAME MAPPING_HEADERS true w'
        = (Ok (DDict table'), w'))
    /\ same_table example_table table'.
Proof.
  apply (@mapping_round_trip example_runtime DEFAULT_MAPPING_CSV_FILENAME
           example_table (PyDict.values example_table) (example_world [])).
  - apply Permutation_refl.
  - left. reflexivity.
  - repeat constructor. simpl. tauto.
  - exact example_entry_plain.
  - exact example_entry_within.
  - apply Permutation_refl.
Defined.

(** * Further properties of the code *)

(** ** What a successful write tells *)

Lemma writerow_ok_inv (rt : runtime) (headers : list string) (r : record) (text : string) :
  DictWriter.writerow rt headers r = Ok text -> fields_ok headers r.
Proof.
  unfold DictWriter.writerow, DictWriter.dict_to_list, fields_ok.
  destruct (DictWriter.wrong_fields headers r); [reflexivity | discriminate].
Qed.

Lemma writerow_bad (rt : runtime) (headers : list string) (r : record) :
  ~ fields_ok headers r -> DictWriter.writerow rt headers r = Raise ValueError.
Proof.
  unfold DictWriter.writerow, DictWriter.dict_to_list, fields_ok.
  destruct (DictWriter.wrong_fields headers r); [congruence | reflexivity].
Qed.

Lemma writerows_none_inv (rt : runtime) (headers : list string) (rows : list record)
  (body : string) :
  DictWriter.writerows rt headers rows = (body, None) ->
  forall r, In r rows -> fields_ok headers r.
Proof.
  revert body. induction rows as [|r0 rows IH]; intros body H r I; [destruct I|].
  simpl in H. destruct (DictWriter.writerow rt headers r0) as [text|e] eqn:E;
    [|discriminate].
  destruct (DictWriter.writerows rt headers rows) as [text' err] eqn:E'.
  injection H as _ ->.
  destruct I as [<-|I]; [now apply writerow_ok_inv in E | exact (IH text' eq_refl r I)].
Qed.

Lemma write_csv_ok_inv (rt : runtime) (filename : string) (headers : list string)
  (rows : list record) (w w' : world) (b : bool) :
  write_csv rt filename headers rows w = (Ok b, w') ->
  forall r, In r rows -> fields_ok headers r.
Proof.
  unfold write_csv.
  destruct (DictWriter.writeheader rt headers) as [head|e]; [|discriminate].
  destruct (DictWriter.writerows rt headers rows) as [body [e|]] eqn:E; [discriminate|].
  intros _. now apply (writerows_none_inv _ _ _ E).
Qed.

(** ** The two ways a row is processed *)

Lemma mem_false_get {V} (k : pyval) (d : PyDict.t V) :
  PyDict.mem k d = false <-> PyDict.get k d = None.
Proof. unfold PyDict.mem. destruct (PyDict.get k d); split; congruence. Qed.

(** A row that is processed was either mapped, and nothing happened,
    or resolved by one answer of the operator. *)
Lemma convert_row_inv (rt : runtime) (row row' : record) (table table' : mapping)
  (w w' : world) :
  iter_ok rt MAPPING_HEADERS ->
  convert_row rt row table w = (Ok (row', table'), w') ->
  (exists id entry acct,
      PyDict.get (PStr ACCOUNT_KEY) row = Some id /\ hashable id = true
      /\ PyDict.get id table = Some entry
      /\ PyDict.get (PStr "Account Number") entry = Some acct
      /\ row' = rename_fields (PyDict.set (PStr "Account Number") acct row)
      /\ table' = table /\ w' = w)
  \/ (exists id name answer rest,
      PyDict.get (PStr ACCOUNT_KEY) row = Some id /\ hashable id = true
      /\ PyDict.get id table = None
      /\ PyDict.get (PStr "Company Name") row = Some name
      /\ stdin w = answer :: rest
      /\ row' = rename_fields (PyDict.set (PStr "Account Number") (PStr answer) row)
      /\ table' = table ++ [(id, new_entry id name answer)]
      /\ w' = mkWorld (fs_put DEFAULT_MAPPING_CSV_FILENAME
                         (MAPPING_FILE_TEXT rt table') (fs w))
                rest
                (trace w ++ [EvPrompt id name;
                             EvWrite DEFAULT_MAPPING_CSV_FILENAME
                               (MAPPING_FILE_TEXT rt table')])).
Proof.
  intros P H. pose proof H as H0. revert H.
  unfold convert_row, bind, lift, ret, PyDict.getitem.
  destruct (PyDict.get (PStr ACCOUNT_KEY) row) as [id|] eqn:Hid; [|discriminate].
  destruct (hashable id) eqn:Hh; [|discriminate].
  destruct (PyDict.mem id table) eqn:Hmem; cbn [negb]; cbv beta iota.
  - destruct (PyDict.get id table) as [entry|] eqn:Hget; [|discriminate].
    destruct (PyDict.get (PStr "Account Number") entry) as [acct|] eqn:Hacct;
      [|discriminate].
    intros [= <- <- <-]. left. now exists id, entry, acct.
  - change (PStr "Customer ID") with (PStr ACCOUNT_KEY). rewrite Hid.
    destruct (PyDict.get (PStr "Company Name") row) as [name|] eqn:Hname; [|discriminate].
    unfold prompt_user_for_account.
    destruct (stdin w) as [|answer rest] eqn:Hin; [discriminate|].
    rewrite !get_set_neq by discriminate. rewrite Hid, Hname, get_set_eq.
    destruct (write_csv rt _ _ _ _) as [[b|e] w2] eqn:W; [|discriminate].
    intros _. pose proof (@write_csv_ok_inv _ _ _ _ _ _ _ W) as Hw. clear W.
    apply mem_false_get in Hmem. rewrite set_absent in Hw by assumption.
    assert (forall e, In e (PyDict.values table) -> fields_ok MAPPING_HEADERS e) as Hok.
    { intros e I. apply Hw. unfold PyDict.values. rewrite map_app. apply in_or_app. now left. }
    rewrite (@convert_row_absent rt row table w id name answer rest) in H0;
      [| assumption | assumption | assumption | assumption
       | now apply mem_false_get | assumption | assumption].
    injection H0 as <- <- <-.
    right. now exists id, name, answer, rest.
Qed.

(** ** What a run of the loop does, in all *)

Lemma get_app_none {V} (k : pyval) (d1 d2 : PyDict.t V) :
  PyDict.get k (d1 ++ d2) = None -> PyDict.get k d1 = None.
Proof. rewrite get_app. now destruct (PyDict.get k d1). Qed.

Lemma get_app_some {V} (k : pyval) (d1 d2 : PyDict.t V) (v : V) :
  PyDict.get k d1 = Some v -> PyDict.get k (d1 ++ d2) = Some v.
Proof. intros H. now rewrite get_app, H. Qed.

Lemma get_snoc_new {V} (k : pyval) (d : PyDict.t V) (v : V) :
  PyDict.get k d = None -> PyDict.get k (d ++ [(k, v)]) = Some v.
Proof.
  intros H. rewrite get_app, H. simpl. destruct (pyval_eq_dec k k); congruence.
Qed.

(** A run of the loop that ends well is a series of resolutions: the
    table gains their entries, in order, the console loses their
    answers, the trace gains their prompts and writes, and the mapping
    file is the only file that changes. *)
Lemma convert_formats_summary (rt : runtime) (data : list record) :
  iter_ok rt MAPPING_HEADERS ->
  forall (table : mapping) (w : world) (out : list record) (table' : mapping) (w' : world),
    convert_formats rt data table w = (Ok (out, table'), w') ->
    exists added : list resolution,
      table' = table ++ map resolved_entry added
      /\ stdin w = map resolved_answer added ++ stdin w'
      /\ trace w' = trace w ++ resolution_events rt table added
      /\ (forall r, In r added -> PyDict.get (resolved_id r) table = None)
      /\ NoDup (map resolved_id added)
      /\ (added = [] -> w' = w)
      /\ (added <> [] ->
          fs w' DEFAULT_MAPPING_CSV_FILENAME = Some (MAPPING_FILE_TEXT rt table'))
      /\ (forall n, n <> DEFAULT_MAPPING_CSV_FILENAME -> fs w' n = fs w n).
Proof.
  intros P. induction data as [|row data IH]; intros table w out table' w' H.
  - injection H as <- <- <-. exists []. simpl. rewrite !app_nil_r.
    repeat split; trivial; try constructor; try tauto.
  - rewrite convert_formats_cons in H.
    destruct (convert_row rt row table w) as [[[row' t1]|e] w1] eqn:Hrow; [|discriminate].
    destruct (convert_formats rt data t1 w1) as [[[rows t2]|e] w2] eqn:Hrest;
      [|discriminate].
    simpl in H. injection H as <- <- <-.
    destruct (IH _ _ _ _ _ Hrest)
      as (added & Ht & Hin & Htr & Hfresh & Hnd & Hnil & Hfile & Hother).
    destruct (@convert_row_inv _ _ _ _ _ _ _ P Hrow)
      as [(id & entry & acct & Hid & Hh & Hget & Hacct & _ & -> & ->)
         |(id & name & answer & rest & Hid & Hh & Hget & Hname & Hstdin & _ & -> & ->)].
    + exists added. repeat split; assumption.
    + exists ((id, name, answer) :: added).
      cbn [fs stdin trace] in *.
      split; [|split; [|split; [|split; [|split; [|split; [|split]]]]]].
      * rewrite Ht. simpl map. now rewrite <- app_assoc.
      * rewrite Hstdin, Hin. reflexivity.
      * rewrite Htr. cbn [resolution_events]. now rewrite <- app_assoc.
      * intros r [<-|I]; [exact Hget|]. apply Hfresh in I. now apply get_app_none in I.
      * simpl map. constructor; [|assumption].
        intros I. apply in_map_iff in I. destruct I as (r & E & I).
        apply Hfresh in I. rewrite E in I.
        rewrite (@get_snoc_new _ id table _ Hget) in I. discriminate I.
      * discriminate.
      * intros _. destruct added as [|r added].
        -- rewrite (Hnil eq_refl), Ht. simpl map. rewrite app_nil_r. apply fs_put_same.
        -- apply Hfile. discriminate.
      * intros n N. rewrite (Hother n N). now apply fs_put_other.
Qed.

(** ** The mapping table over a run *)

(** The mapping table only grows: a run that ends well leaves every
    entry the table had where it was, adds the new entries after them,
    and leaves a table without a key twice when it was given one. *)
Theorem mapping_table_only_grows
  (rt : runtime) (data out : list record) (table table' : mapping) (w w' : world) :
  iter_ok rt MAPPING_HEADERS ->
  convert_formats rt data table w = (Ok (out, table'), w') ->
  (exists new_entries, table' = table ++ new_entries)
  /\ (forall k e, PyDict.get k table = Some e -> PyDict.get k table' = Some e)
  /\ (NoDup (PyDict.keys table) -> NoDup (PyDict.keys table')).
Proof.
  intros P H.
  destruct (@convert_formats_summary rt data P _ _ _ _ _ H) as (added & -> & _ & _ & Hfresh & Hnd & _).
  split; [eauto|]. split.
  - intros k e G. now apply get_app_some.
  - intros ND. unfold PyDict.keys. rewrite map_app.
    apply NoDup_app; [assumption | |].
    + rewrite map_map. exact Hnd.
    + intros k Ik I. rewrite map_map in I. apply in_map_iff in I.
      destruct I as (r & <- & I). apply Hfresh in I.
      apply get_none_not_in in I. contradiction.
Qed.

Lemma mapping_table_only_grows_witness :
  (exists new_entries,
      example_table ++ [(PStr "C2", new_entry (PStr "C2") (PStr "Bolt") "ACC-2")]
      = example_table ++ new_entries)
  /\ (forall k e, PyDict.get k example_table = Some e ->
        PyDict.get k (example_table
                      ++ [(PStr "C2", new_entry (PStr "C2") (PStr "Bolt") "ACC-2")])
        = Some e)
  /\ (NoDup (PyDict.keys example_table) ->
      NoDup (PyDict.keys (example_table
                          ++ [(PStr "C2", new_entry (PStr "C2") (PStr "Bolt") "ACC-2")]))).
Proof.
  apply (@mapping_table_only_grows example_runtime [example_row; second_row; second_row]
           (map (enrich (example_table
                         ++ [(PStr "C2", new_entry (PStr "C2") (PStr "Bolt") "ACC-2")]))
                [example_row; second_row; second_row])
           example_table _ (example_world ["ACC-2"])
           (snd (convert_formats example_runtime [example_row; second_row; second_row]
                   example_table (example_world ["ACC-2"])))).
  - apply Permutation_refl.
  - vm_compute. reflexivity.
Defined.

(** ** The console and the trace over a run *)

Lemma resolution_events_prompts (rt : runtime) (added : list resolution) :
  forall table,
    List.length (filter is_prompt (resolution_events rt table added))
    = List.length added.
Proof.
  induction added as [|r added IH]; intros table; [reflexivity|].
  cbn [resolution_events filter is_prompt List.length]. now rewrite IH.
Qed.

(** A run that ends well prompts once for each entry it adds to the
    table and takes one answer from the console for each; every prompt
    is followed at once by the write of the whole table, with the new
    entry, to the mapping file, and nothing else is traced. *)
Theorem prompts_answers_and_writes_go_together
  (rt : runtime) (data out : list record) (table table' : mapping) (w w' : world) :
  iter_ok rt MAPPING_HEADERS ->
  convert_formats rt data table w = (Ok (out, table'), w') ->
  exists added : list resolution,
    table' = table ++ map resolved_entry added
    /\ stdin w = map resolved_answer added ++ stdin w'
    /\ trace w' = trace w ++ resolution_events rt table added
    /\ List.length (filter is_prompt (resolution_events rt table added))
       = List.length table' - List.length table.
Proof.
  intros P H.
  destruct (@convert_formats_summary rt data P _ _ _ _ _ H)
    as (added & Ht & Hin & Htr & _).
  exists added. repeat split; try assumption.
  rewrite resolution_events_prompts, Ht, length_app, length_map. lia.
Qed.

Lemma prompts_answers_and_writes_go_together_witness :
  let table' := example_table ++ [(PStr "C2", new_entry (PStr "C2") (PStr "Bolt") "ACC-2")] in
  let w := example_world ["ACC-2"; "unused"] in
  let w' := snd (convert_formats example_runtime [example_row; second_row; second_row]
                   example_table w) in
  exists added : list resolution,
    table' = example_table ++ map resolved_entry added
    /\ stdin w = map resolved_answer added ++ stdin w'
    /\ trace w' = trace w ++ resolution_events example_runtime example_table added
    /\ List.length (filter is_prompt (resolution_events example_runtime example_table added))
       = List.length table' - List.length example_table.
Proof.
  apply (@prompts_answers_and_writes_go_together example_runtime
           [example_row; second_row; second_row]
           (map (enrich (example_table
                         ++ [(PStr "C2", new_entry (PStr "C2") (PStr "Bolt") "ACC-2")]))
                [example_row; second_row; second_row])).
  - apply Permutation_refl.
  - vm_compute. reflexivity.
Defined.

(** ** The files over a run *)

(** A run of the loop that ends well changes no file but the mapping
    file; when it adds nothing to the table it changes nothing at all,
    and when it adds entries the mapping file holds the text of the
    table it returns. *)
Theorem mapping_file_follows_the_table
  (rt : runtime) (data out : list record) (table table' : mapping) (w w' : world) :
  iter_ok rt MAPPING_HEADERS ->
  convert_formats rt data table w = (Ok (out, table'), w') ->
  (forall n, n <> DEFAULT_MAPPING_CSV_FILENAME -> fs w' n = fs w n)
  /\ (table' = table -> w' = w)
  /\ (table' <> table ->
      fs w' DEFAULT_MAPPING_CSV_FILENAME = Some (MAPPING_FILE_TEXT rt table')).
Proof.
  intros P H.
  destruct (@convert_formats_summary rt data P _ _ _ _ _ H)
    as (added & Ht & _ & _ & _ & _ & Hnil & Hfile & Hother).
  split; [exact Hother|]. split.
  - intros E. apply Hnil. rewrite E in Ht.
    rewrite <- (app_nil_r table) in Ht at 1. apply app_inv_head in Ht.
    destruct added; [reflexivity | discriminate].
  - intros N. apply Hfile. intros ->. apply N. rewrite Ht. simpl. apply app_nil_r.
Qed.

Lemma mapping_file_follows_the_table_witness :
  let table' := example_table ++ [(PStr "C2", new_entry (PStr "C2") (PStr "Bolt") "ACC-2")] in
  let w := example_files in
  let w' := snd (convert_formats example_runtime [example_row; second_row]
                   example_table
                   (mkWorld (fs example_files) ["ACC-2"] [])) in
  (forall n, n <> DEFAULT_MAPPING_CSV_FILENAME ->
             fs w' n = fs (mkWorld (fs example_files) ["ACC-2"] []) n)
  /\ (table' = example_table -> w' = mkWorld (fs example_files) ["ACC-2"] [])
  /\ (table' <> example_table ->
      fs w' DEFAULT_MAPPING_CSV_FILENAME = Some (MAPPING_FILE_TEXT example_runtime table')).
Proof.
  apply (@mapping_file_follows_the_table example_runtime [example_row; second_row]
           (map (enrich (example_table
                         ++ [(PStr "C2", new_entry (PStr "C2") (PStr "Bolt") "ACC-2")]))
                [example_row; second_row])).
  - apply Permutation_refl.
  - vm_compute. reflexivity.
Defined.

(** ** A second pass over the same rows *)

(** After a run that ends well, the table maps the identifier of every
    source row to the Account Number its enriched row carries. *)
Lemma stored_after_run (rt : runtime) (data : list record) :
  iter_ok rt MAPPING_HEADERS ->
  forall (table : mapping) (w : world) (out : list record) (table' : mapping) (w' : world),
    convert_formats rt data table w = (Ok (out, table'), w') ->
    Forall2 (fun row row' =>
               exists acct, stored_account table' row = Some acct
                            /\ row' = rename_fields
                                        (PyDict.set (PStr "Account Number") acct row))
            data out.
Proof.
  intros P. induction data as [|row data IH]; intros table w out table' w' H.
  - injection H as <- _ _. constructor.
  - rewrite convert_formats_cons in H.
    destruct (convert_row rt row table w) as [[[row' t1]|e] w1] eqn:Hrow; [|discriminate].
    destruct (convert_formats rt data t1 w1) as [[[rows t2]|e] w2] eqn:Hrest;
      [|discriminate].
    simpl in H. injection H as <- <- <-.
    constructor; [|now apply (IH _ _ _ _ _ Hrest)].
    destruct (@convert_formats_summary rt data P _ _ _ _ _ Hrest) as (added & Ht & _).
    assert (forall id entry acct,
              PyDict.get (PStr ACCOUNT_KEY) row = Some id -> hashable id = true ->
              PyDict.get id t1 = Some entry ->
              PyDict.get (PStr "Account Number") entry = Some acct ->
              stored_account t2 row = Some acct) as Hstored.
    { intros id entry acct Hid Hh Hget Hacct. unfold stored_account.
      rewrite Hid, Hh, Ht, (@get_app_some _ _ _ _ _ Hget). exact Hacct. }
    destruct (@convert_row_inv _ _ _ _ _ _ _ P Hrow)
      as [(id & entry & acct & Hid & Hh & Hget & Hacct & -> & -> & _)
         |(id & name & answer & rest & Hid & Hh & Hget & _ & _ & -> & -> & _)].
    + exists acct. split; [|reflexivity]. now apply (Hstored id entry).
    + exists (PStr answer). split; [|reflexivity].
      apply (Hstored id (new_entry id name answer)); try assumption; [|reflexivity].
      now apply get_snoc_new.
Qed.

(** What a run has learnt makes the next pass silent: processing the
    same source rows again with the table the run returned returns the
    same enriched rows and the same table, and leaves the world as it
    is (no prompt, no answer taken, no file written). *)
Theorem second_pass_is_silent
  (rt : runtime) (data out : list record) (table table' : mapping) (w w' w2 : world) :
  iter_ok rt MAPPING_HEADERS ->
  convert_formats rt data table w = (Ok (out, table'), w') ->
  convert_formats rt data table' w2 = (Ok (out, table'), w2).
Proof.
  intros P H. pose proof (@stored_after_run rt data P _ _ _ _ _ H) as F.
  rewrite convert_formats_all_mapped.
  - f_equal. f_equal. f_equal. clear H.
    induction F as [|row row' data out (acct & Hs & ->) _ IH]; [reflexivity|].
    simpl. rewrite IH. f_equal. unfold enrich. now rewrite Hs.
  - intros row I. clear H. induction F as [|r r' data out (acct & Hs & _) _ IH];
      [destruct I|].
    destruct I as [<-|I]; [congruence | now apply IH].
Qed.

Lemma second_pass_is_silent_witness :
  let table' := example_table ++ [(PStr "C2", new_entry (PStr "C2") (PStr "Bolt") "ACC-2")] in
  let data := [example_row; second_row; second_row] in
  convert_formats example_runtime data table' (example_world [])
  = (Ok (map (enrich table') data, table'), example_world []).
Proof.
  apply (@second_pass_is_silent example_runtime [example_row; second_row; second_row]
           _ example_table _ (example_world ["ACC-2"])
           (snd (convert_formats example_runtime [example_row; second_row; second_row]
                   example_table (example_world ["ACC-2"])))).
  - apply Permutation_refl.
  - vm_compute. reflexivity.
Defined.

(** ** Runs that stop *)

Lemma convert_formats_at_error (rt : runtime) (pre post : list record) (row : record)
  (table table1 : mapping) (w w1 w2 : world) (done : list record) (e : exn) :
  convert_formats rt pre table w = (Ok (done, table1), w1) ->
  convert_row rt row table1 w1 = (Raise e, w2) ->
  convert_formats rt (pre ++ row :: post) table w = (Raise e, w2).
Proof.
  intros Hpre Hrow.
  now rewrite convert_formats_app, Hpre, convert_formats_cons, Hrow.
Qed.

Lemma convert_row_eof (rt : runtime) (row : record) (table : mapping) (w : world)
  (id name : pyval) :
  PyDict.get (PStr ACCOUNT_KEY) row = Some id ->
  hashable id = true ->
  PyDict.get id table = None ->
  PyDict.get (PStr "Company Name") row = Some name ->
  stdin w = [] ->
  convert_row rt row table w = (Raise EOFError, emit (EvPrompt id name) w).
Proof.
  intros Hid Hh Hget Hname Hin. apply mem_false_get in Hget.
  unfold convert_row, bind, lift, ret, PyDict.getitem.
  rewrite Hid, Hh, Hget. cbn [negb]. cbv beta iota.
  change (PStr "Customer ID") with (PStr ACCOUNT_KEY). rewrite Hid, Hname.
  unfold prompt_user_for_account. now rewrite Hin.
Qed.

(** When the console has no answer left at an unmapped row, the run
    stops there with EOFError, after the prompt; the files are as the
    rows before left them, so the mapping file holds every mapping
    resolved until then. *)
Theorem console_exhausted_keeps_resolved_mappings
  (rt : runtime) (pre post : list record) (row : record) (table table1 : mapping)
  (w w1 : world) (done : list record) (id name : pyval) :
  iter_ok rt MAPPING_HEADERS ->
  convert_formats rt pre table w = (Ok (done, table1), w1) ->
  PyDict.get (PStr ACCOUNT_KEY) row = Some id ->
  hashable id = true ->
  PyDict.get id table1 = None ->
  PyDict.get (PStr "Company Name") row = Some name ->
  stdin w1 = [] ->
  let w2 := mkWorld (fs w1) [] (trace w1 ++ [EvPrompt id name]) in
  convert_formats rt (pre ++ row :: post) table w = (Raise EOFError, w2)
  /\ (table1 <> table ->
      fs w2 DEFAULT_MAPPING_CSV_FILENAME = Some (MAPPING_FILE_TEXT rt table1)).
Proof.
  intros P Hpre Hid Hh Hget Hname Hin w2. split.
  - rewrite (@convert_formats_at_error rt pre post row table table1 w w1 _ done _ Hpre
               (@convert_row_eof rt row table1 w1 id name Hid Hh Hget Hname Hin)).
    unfold emit, w2. now rewrite Hin.
  - intros N. cbn [fs].
    destruct (@convert_formats_summary rt pre P _ _ _ _ _ Hpre)
      as (added & Ht & _ & _ & _ & _ & _ & Hfile & _).
    apply Hfile. intros ->. apply N. rewrite Ht. simpl. apply app_nil_r.
Qed.

Lemma console_exhausted_keeps_resolved_mappings_witness :
  let rt := example_runtime in
  let table1 := example_table ++ [(PStr "C2", new_entry (PStr "C2") (PStr "Bolt") "ACC-2")] in
  let w := example_world ["ACC-2"] in
  let w1 := snd (convert_formats rt [example_row; second_row] example_table w) in
  let w2 := mkWorld (fs w1) [] (trace w1 ++ [EvPrompt (PStr "C9") PNone]) in
  convert_formats rt ([example_row; second_row]
                      ++ [(PStr "Customer ID", PStr "C9"); (PStr "Company Name", PNone)]
                      :: [example_row])
    example_table w
  = (Raise EOFError, w2)
  /\ (table1 <> example_table ->
      fs w2 DEFAULT_MAPPING_CSV_FILENAME = Some (MAPPING_FILE_TEXT rt table1)).
Proof.
  apply (@console_exhausted_keeps_resolved_mappings example_runtime
           [example_row; second_row] [example_row]
           [(PStr "Customer ID", PStr "C9"); (PStr "Company Name", PNone)]
           example_table _ (example_world ["ACC-2"]) _
           (map (enrich (example_table
                         ++ [(PStr "C2", new_entry (PStr "C2") (PStr "Bolt") "ACC-2")]))
                [example_row; second_row])
           (PStr "C9") PNone).
  - apply Permutation_refl.
  - vm_compute. reflexivity.
  - reflexivity.
  - reflexivity.
  - reflexivity.
  - reflexivity.
  - reflexivity.
Defined.

(** A row that lacks a field the loop reads stops the run with the
    KeyError of that field, and the world stays as the rows before it
    left it: a row without Customer ID, an unmapped row without
    Company Name (no prompt is shown), a mapped row whose table entry
    has no Account Number. *)
Theorem row_with_missing_field_stops_the_run
  (rt : runtime) (pre post : list record) (row : record) (table table1 : mapping)
  (w w1 : world) (done : list record) :
  convert_formats rt pre table w = (Ok (done, table1), w1) ->
  (PyDict.get (PStr ACCOUNT_KEY) row = None ->
   convert_formats rt (pre ++ row :: post) table w
   = (Raise (KeyError (PStr "Customer ID")), w1))
  /\ (forall id,
        PyDict.get (PStr ACCOUNT_KEY) row = Some id -> hashable id = true ->
        PyDict.get id table1 = None ->
        PyDict.get (PStr "Company Name") row = None ->
        convert_formats rt (pre ++ row :: post) table w
        = (Raise (KeyError (PStr "Company Name")), w1))
  /\ (forall id entry,
        PyDict.get (PStr ACCOUNT_KEY) row = Some id -> hashable id = true ->
        PyDict.get id table1 = Some entry ->
        PyDict.get (PStr "Account Number") entry = None ->
        convert_formats rt (pre ++ row :: post) table w
        = (Raise (KeyError (PStr "Account Number")), w1)).
Proof.
  intros Hpre. split; [|split].
  - intros Hid. apply (@convert_formats_at_error rt pre post row table table1 w w1 _ done _ Hpre).
    unfold convert_row, bind, lift, PyDict.getitem. now rewrite Hid.
  - intros id Hid Hh Hget Hname. apply (@convert_formats_at_error rt pre post row table table1 w w1 _ done _ Hpre).
    apply mem_false_get in Hget.
    unfold convert_row, bind, lift, PyDict.getitem.
    rewrite Hid, Hh, Hget. cbn [negb]. cbv beta iota.
    change (PStr "Customer ID") with (PStr ACCOUNT_KEY). now rewrite Hid, Hname.
  - intros id entry Hid Hh Hget Hacct. apply (@convert_formats_at_error rt pre post row table table1 w w1 _ done _ Hpre).
    unfold convert_row, bind, lift, PyDict.getitem, PyDict.mem.
    now rewrite Hid, Hh, Hget, Hacct.
Qed.

Lemma row_with_missing_field_stops_the_run_witness :
  convert_formats example_runtime ([] ++ row_without_id :: [example_row]) example_table
    (example_world ["ACC-9"])
  = (Raise (KeyError (PStr "Customer ID")), example_world ["ACC-9"])
  /\ convert_formats example_runtime ([] ++ row_without_name :: [example_row])
       example_table (example_world ["ACC-9"])
     = (Raise (KeyError (PStr "Company Name")), example_world ["ACC-9"])
  /\ convert_formats example_runtime ([] ++ example_row :: [example_row])
       table_without_accounts (example_world ["ACC-9"])
     = (Raise (KeyError (PStr "Account Number")), example_world ["ACC-9"]).
Proof.
  split; [|split].
  - apply (@row_with_missing_field_stops_the_run example_runtime [] [example_row]
             row_without_id example_table example_table (example_world ["ACC-9"])
             (example_world ["ACC-9"]) [] eq_refl).
    reflexivity.
  - apply (proj1 (proj2 (@row_with_missing_field_stops_the_run example_runtime []
             [example_row] row_without_name example_table example_table
             (example_world ["ACC-9"]) (example_world ["ACC-9"]) [] eq_refl))
             (PStr "C9")); reflexivity.
  - apply (proj2 (proj2 (@row_with_missing_field_stops_the_run example_runtime []
             [example_row] example_row table_without_accounts table_without_accounts
             (example_world ["ACC-9"]) (example_world ["ACC-9"]) [] eq_refl))
             (PStr "C1")
             [(PStr "Customer ID", PStr "C1"); (PStr "Company Name", PStr "Acme")]);
      reflexivity.
Defined.


(** ** The reader never raises on the lines of a file *)

Lemma translate_no_cr (s : string) :
  forall pendingcr, has_char CR (TextIO.translate pendingcr s) = false.
Proof.
  induction s as [|c s IH]; intros b; [reflexivity|]. simpl.
  destruct (Ascii.eqb c CR) eqn:Ecr; [simpl; apply IH|].
  destruct (Ascii.eqb c LF) eqn:Elf.
  - destruct b; simpl; apply IH.
  - simpl. rewrite Ecr. apply IH.
Qed.

Lemma split_lines_ok (s : string) :
  has_char CR s = false ->
  Forall (fun l => line_ok l = true) (TextIO.split_lines s).
Proof.
  induction s as [|c s IH]; intros H; [constructor|].
  simpl in H. apply orb_false_elim in H. destruct H as [Hc Hs].
  specialize (IH Hs). simpl TextIO.split_lines.
  destruct (Ascii.eqb c LF) eqn:Elf.
  - constructor; [|assumption]. simpl. now rewrite Hc.
  - destruct (TextIO.split_lines s) as [|l ls].
    + constructor; [|constructor]. simpl. now rewrite Hc.
    + inversion IH as [|? ? Hl Hls]; subst. constructor; [|assumption].
      simpl. rewrite Hc, Elf, Hl. now destruct l.
Qed.

Lemma length_append (a b : string) :
  String.length (a ++ b) = String.length a + String.length b.
Proof. induction a as [|c a IH]; simpl; [reflexivity | now rewrite IH]. Qed.

Lemma length_substring (s : string) :
  forall n m, String.length (String.substring n m s) <= String.length s.
Proof.
  induction s as [|c s IH]; intros [|n] [|m]; simpl; try lia.
  - specialize (IH 0 m). lia.
  - specialize (IH n 0). lia.
  - specialize (IH n (S m)). lia.
Qed.

Lemma length_strip_bom (s : string) :
  String.length (TextIO.strip_bom s) <= String.length s.
Proof.
  unfold TextIO.strip_bom. destruct (String.prefix TextIO.BOM s); [|lia].
  apply length_substring.
Qed.

Lemma length_translate (s : string) :
  forall pendingcr, String.length (TextIO.translate pendingcr s) <= String.length s.
Proof.
  induction s as [|c s IH]; intros b; [apply Nat.le_refl|]. simpl.
  destruct (Ascii.eqb c CR); [specialize (IH true); simpl; lia|].
  destruct (Ascii.eqb c LF).
  - destruct b; specialize (IH false); simpl; lia.
  - specialize (IH false). simpl. lia.
Qed.

Lemma length_split_lines (s : string) :
  String.length (String.concat EmptyString (TextIO.split_lines s)) = String.length s.
Proof.
  induction s as [|c s IH]; [reflexivity|]. simpl TextIO.split_lines.
  destruct (Ascii.eqb c LF).
  - rewrite concat_cons. simpl. now rewrite IH.
  - destruct (TextIO.split_lines s) as [|l ls].
    + simpl in *. lia.
    + rewrite concat_cons in *. simpl. now rewrite IH.
Qed.

Lemma add_char_room (r : Csv.Reader) (c : ascii) (n : nat) :
  room r (S n) ->
  Csv.parse_add_char r c
  = Ok (Csv.mkReader (Csv.state r) (Csv.field r ++ str1 c) (Csv.fields r)).
Proof.
  unfold room, Csv.parse_add_char. intros H.
  pose proof (code_points_le_length (Csv.field r)) as L.
  assert ((field_size_limit <=? N.of_nat (Csv.code_points (Csv.field r)))%N = false) as ->
    by (apply N.leb_gt; lia).
  now rewrite andb_false_r.
Qed.

Lemma room_added (r : Csv.Reader) (st : Csv.ParserState) (c : ascii) (n : nat) :
  room r (S n) ->
  room (Csv.mkReader st (Csv.field r ++ str1 c) (Csv.fields r)) n.
Proof.
  unfold room. cbn [Csv.field]. rewrite length_append. simpl. lia.
Qed.

Lemma room_saved (r : Csv.Reader) (st : Csv.ParserState) (n : nat) :
  room r (S n) -> room (Csv.with_state st (Csv.parse_save_field r)) n.
Proof. unfold room. cbn [Csv.field Csv.with_state Csv.parse_save_field]. simpl. lia. Qed.

Lemma room_less (r : Csv.Reader) (n : nat) : room r (S n) -> room r n.
Proof. unfold room. lia. Qed.

Lemma process_char_not_eating (r : Csv.Reader) (c : ascii) (n : nat) :
  Csv.state r <> Csv.EAT_CRNL ->
  room r (S n) ->
  exists r', Csv.parse_process_char r (Csv.Ch c) = Ok r'
             /\ (Csv.is_newline c = false -> Csv.state r' <> Csv.EAT_CRNL)
             /\ room r' n.
Proof.
  intros H Hroom.
  pose proof (@add_char_room r c n Hroom) as Ha.
  pose proof (@add_char_room (Csv.with_state Csv.START_FIELD r) c n Hroom) as Ha'.
  pose proof (fun st => @room_added r st c n Hroom) as Radd.
  pose proof (fun st => @room_saved r st n Hroom) as Rsave.
  pose proof (@room_less r n Hroom) as Rless.
  unfold Csv.parse_process_char, Csv.start_field, Csv.add_char_then, Csv.ends_line,
    Csv.is_char, Csv.after_line_end.
  destruct (Csv.state r) eqn:E; try congruence;
    destruct (Csv.is_newline c) eqn:N;
    destruct (Ascii.eqb c DQUOTE); destruct (Ascii.eqb c COMMA);
    rewrite ?Ha, ?Ha'; eexists;
    (split; [reflexivity|]);
    (split; [intros; cbn [Csv.state Csv.with_state Csv.parse_save_field]; congruence|]);
    first [ apply Radd | apply Rsave | exact Rless
          | cbn [Csv.with_state Csv.field Csv.fields Csv.state]; apply Radd
          | unfold room in *; cbn [Csv.with_state Csv.parse_save_field Csv.field] in *;
            simpl; lia ].
Qed.

Lemma process_eol_not_eating (r : Csv.Reader) (n : nat) :
  room r n ->
  exists r', Csv.parse_process_char r Csv.EOL = Ok r'
             /\ Csv.state r' <> Csv.EAT_CRNL
             /\ room r' n.
Proof.
  intros Hroom.
  unfold Csv.parse_process_char, Csv.start_field, Csv.ends_line, Csv.is_char,
    Csv.after_line_end.
  destruct (Csv.state r) eqn:E; eexists; (split; [reflexivity|]);
    (split; [cbn [Csv.state Csv.with_state Csv.parse_save_field]; congruence|]);
    unfold room in *; cbn [Csv.with_state Csv.parse_save_field Csv.field] in *;
    simpl; lia.
Qed.

Lemma process_line_total (l : string) :
  line_ok l = true ->
  forall r n, Csv.state r <> Csv.EAT_CRNL -> room r (String.length l + n) ->
    exists r', Csv.process_line r l = Ok r' /\ room r' n.
Proof.
  induction l as [|c l IH]; intros H r n Hr Hroom; [now exists r|].
  simpl in H. apply andb_prop in H. destruct H as [Hcr H].
  destruct (@process_char_not_eating r c (String.length l + n) Hr Hroom)
    as (r1 & E1 & Hr1 & Hroom1).
  simpl. rewrite E1. cbn [rbind].
  destruct l as [|c' l']; [now exists r1|].
  apply andb_prop in H. destruct H as [Hlf Hl].
  apply IH; [assumption | | assumption]. apply Hr1. unfold Csv.is_newline.
  apply negb_true_iff in Hcr, Hlf. now rewrite Hcr, Hlf.
Qed.

Lemma reader_total (lines : list string) :
  Forall (fun l => line_ok l = true) lines ->
  forall r, Csv.state r <> Csv.EAT_CRNL ->
    room r (String.length (String.concat EmptyString lines)) ->
    exists rows, Csv.reader r lines = Ok rows.
Proof.
  induction 1 as [|l lines Hl _ IH]; intros r Hr Hroom.
  - simpl. destruct (_ || _); eauto.
  - rewrite concat_cons, length_append in Hroom.
    destruct (@process_line_total l Hl r _ Hr Hroom) as (r1 & E1 & Hroom1).
    destruct (@process_eol_not_eating r1 _ Hroom1) as (r2 & E2 & Hr2 & Hroom2).
    simpl. rewrite E1. cbn [rbind]. rewrite E2. cbn [rbind].
    destruct (Csv.state_eqb (Csv.state r2) Csv.START_RECORD).
    + destruct (IH Csv.parse_reset) as (rows & E); [discriminate | |].
      * unfold room in *. cbn [Csv.parse_reset Csv.field]. simpl String.length. lia.
      * rewrite E. cbn [rbind]. eauto.
    + now apply IH.
Qed.

(** The reader returns the rows of every file that is, as a whole, no
    longer than a field may be. *)
Lemma reader_on_file (content : string) :
  fits_field_limit content ->
  exists rows, Csv.reader Csv.parse_reset (TextIO.read_lines content) = Ok rows.
Proof.
  intros Hfit. apply reader_total; [| discriminate |].
  - apply split_lines_ok, translate_no_cr.
  - unfold room, TextIO.read_lines. rewrite length_split_lines.
    cbn [Csv.parse_reset Csv.field]. simpl String.length.
    pose proof (length_translate (TextIO.strip_bom content) false).
    pose proof (length_strip_bom content).
    unfold fits_field_limit in Hfit. lia.
Qed.

(** Loading a file as a list never raises, whatever the file holds,
    when its bytes are well-formed UTF-8 (they are decoded) and the
    file is, as a whole, no longer than a field may be (the reader
    does not meet its limit): no row, ragged or not, is rejected, and
    the world is left as it is. *)
Theorem list_load_accepts_every_file
  (filename : string) (headers : list string) (w : world) (content : string) :
  fs w filename = Some content ->
  TextIO.is_utf8 content = true ->
  fits_field_limit content ->
  exists rows, load_csv filename headers false w = (Ok (DList rows), w).
Proof.
  intros H _ Hfit. unfold load_csv. rewrite H.
  destruct (reader_on_file Hfit) as (rows & E).
  rewrite (@read_dataset_ok content false rows E). eauto.
Qed.

Lemma list_load_accepts_every_file_witness :
  exists rows,
    load_csv "ragged.csv" SOURCE_HEADERS false
      (world_with_file "ragged.csv"
         (line "a,b" ++ line "1" ++ String CR (line "1,2,3") ++ "x" ++ str1 DQUOTE ++ "y"))
    = (Ok (DList rows),
       world_with_file "ragged.csv"
         (line "a,b" ++ line "1" ++ String CR (line "1,2,3") ++ "x" ++ str1 DQUOTE ++ "y")).
Proof.
  apply (@list_load_accepts_every_file "ragged.csv" SOURCE_HEADERS
           (world_with_file "ragged.csv"
              (line "a,b" ++ line "1" ++ String CR (line "1,2,3") ++ "x" ++ str1 DQUOTE ++ "y"))
           (line "a,b" ++ line "1" ++ String CR (line "1,2,3") ++ "x" ++ str1 DQUOTE ++ "y")).
  - reflexivity.
  - reflexivity.
  - unfold fits_field_limit, field_size_limit. simpl. lia.
Defined.

(** ** The fields of the dicts DictReader returns *)

Lemma keys_fold_set {A} (key : A -> pyval) (val : A -> pyval) (l : list A) :
  forall (d : record) (k : pyval),
    In k (PyDict.keys (fold_left (fun d x => PyDict.set (key x) (val x) d) l d))
    <-> In k (PyDict.keys d) \/ In k (map key l).
Proof.
  induction l as [|x l IH]; intros d k; simpl; [tauto|].
  rewrite IH, in_keys_set. intuition congruence.
Qed.

Lemma fst_combine_firstn {A B} (l : list A) (r : list B) :
  map fst (combine l r) = firstn (List.length r) l.
Proof.
  revert r. induction l as [|a l IH]; intros [|b r]; simpl; try reflexivity.
  now rewrite IH.
Qed.

Lemma keys_zip_dict (names row : list string) (k : pyval) :
  In k (PyDict.keys (Csv.zip_dict names row))
  <-> In k (map PStr (firstn (List.length row) names)).
Proof.
  unfold Csv.zip_dict.
  rewrite (keys_fold_set (fun kv : string * string => PStr (fst kv))
             (fun kv => PStr (snd kv))).
  rewrite <- fst_combine_firstn, map_map. simpl. tauto.
Qed.

(** A dict of DictReader has a field for each name of the header row,
    and no other field with a string as its name. *)
Lemma DictReader_next_fields (names row : list string) (s : string) :
  In (PStr s) (PyDict.keys (Csv.DictReader_next names row)) <-> In s names.
Proof.
  assert (forall l : list string, In (PStr s) (map PStr l) <-> In s l) as Hmap.
  { intros l. rewrite in_map_iff. split.
    - intros (x & [= ->] & I). exact I.
    - intros I. now exists s. }
  unfold Csv.DictReader_next.
  destruct (List.length names <? List.length row)%nat eqn:E1.
  - apply Nat.ltb_lt in E1. rewrite in_keys_set, keys_zip_dict, Hmap.
    rewrite firstn_all2 by lia. intuition discriminate.
  - apply Nat.ltb_ge in E1.
    destruct (List.length row <? List.length names)%nat eqn:E2.
    + rewrite (keys_fold_set PStr (fun _ => PNone)), keys_zip_dict, !Hmap.
      rewrite <- (firstn_skipn (List.length row) names) at 3.
      now rewrite in_app_iff.
    + apply Nat.ltb_ge in E2. rewrite keys_zip_dict, Hmap.
      now rewrite firstn_all2 by lia.
Qed.

Lemma DictReader_next_has_field (names row : list string) (s : string) :
  PyDict.get (PStr s) (Csv.DictReader_next names row) <> None <-> In s names.
Proof.
  split.
  - intros H. apply (DictReader_next_fields names row).
    destruct (in_dec pyval_eq_dec (PStr s)
                (PyDict.keys (Csv.DictReader_next names row))) as [I|NI];
      [assumption|]. apply get_none_not_in in NI. contradiction.
  - intros I H. apply (DictReader_next_fields names row) in I.
    apply get_none_not_in in H. contradiction.
Qed.

(** ** Loading as a dict: when it succeeds, when it raises *)

Lemma read_dataset_rows (content : string) :
  fits_field_limit content ->
  exists rows,
    Csv.reader Csv.parse_reset (TextIO.read_lines content) = Ok rows
    /\ read_dataset content false = Ok (DList (Csv.DictReader rows))
    /\ read_dataset content true
       = (let! table := load_dict (Csv.DictReader rows) PyDict.empty in
          Ok (DDict table))%result.
Proof.
  intros Hfit. destruct (reader_on_file Hfit) as (rows & E). exists rows.
  split; [exact E|].
  split; [apply (@read_dataset_ok content false rows E)
         | apply (@read_dataset_ok content true rows E)].
Qed.

(** Loading a file as a dict succeeds, without any effect, whenever
    its header row names the Customer ID column, its bytes are
    well-formed UTF-8 and the file is, as a whole, no longer than a
    field may be; ragged rows do not make it fail. *)
Theorem dict_load_succeeds_when_header_names_the_key
  (filename : string) (headers : list string) (w : world) (content : string)
  (names : list string) :
  fs w filename = Some content ->
  TextIO.is_utf8 content = true ->
  fits_field_limit content ->
  header_row content = Some names ->
  In ACCOUNT_KEY names ->
  exists table, load_csv filename headers true w = (Ok (DDict table), w).
Proof.
  intros Hfile _ Hfit Hhead Hin. unfold load_csv. rewrite Hfile.
  destruct (read_dataset_rows Hfit) as (rows & E & _ & ->).
  unfold header_row in Hhead. rewrite E in Hhead.
  destruct rows as [|fieldnames rows]; [discriminate|]. injection Hhead as ->.
  destruct (@load_dict_spec (Csv.DictReader (names :: rows)) PyDict.empty)
    as (table & -> & _).
  - intros r I. pose proof (DictReader_hashable _ _ I) as Hh.
    simpl in I. apply in_map_iff in I. destruct I as (row & <- & _).
    destruct (PyDict.get (PStr ACCOUNT_KEY) (Csv.DictReader_next names row)) as [k|] eqn:G.
    + exists k. split; [reflexivity|]. now apply (Hh ACCOUNT_KEY).
    + now apply (proj2 (@DictReader_next_has_field names row ACCOUNT_KEY)) in Hin.
  - cbn [rbind]. eauto.
Qed.

Lemma dict_load_succeeds_when_header_names_the_key_witness :
  exists table,
    load_csv "ragged.csv" MAPPING_HEADERS true
      (world_with_file "ragged.csv"
         (line "Company Name,Customer ID" ++ line "Acme" ++ line "Bolt,C2,7,8"))
    = (Ok (DDict table),
       world_with_file "ragged.csv"
         (line "Company Name,Customer ID" ++ line "Acme" ++ line "Bolt,C2,7,8")).
Proof.
  apply (@dict_load_succeeds_when_header_names_the_key "ragged.csv" MAPPING_HEADERS
           (world_with_file "ragged.csv"
              (line "Company Name,Customer ID" ++ line "Acme" ++ line "Bolt,C2,7,8"))
           (line "Company Name,Customer ID" ++ line "Acme" ++ line "Bolt,C2,7,8")
           ["Company Name"; "Customer ID"]).
  - reflexivity.
  - reflexivity.
  - unfold fits_field_limit, field_size_limit. simpl. lia.
  - reflexivity.
  - simpl. tauto.
Defined.

(** Loading a file as a dict raises the KeyError of Customer ID when
    the header row does not name that column and the file, within
    the limit on the size of a field, has a row after it that is not
    blank; the world is left as it is. *)
Theorem dict_load_raises_without_the_key_column
  (filename : string) (headers : list string) (w : world) (content : string)
  (names : list string) (r : record) (rows : list record) :
  fs w filename = Some content ->
  fits_field_limit content ->
  header_row content = Some names ->
  ~ In ACCOUNT_KEY names ->
  load_csv filename headers false w = (Ok (DList (r :: rows)), w) ->
  load_csv filename headers true w = (Raise (KeyError (PStr ACCOUNT_KEY)), w).
Proof.
  intros Hfile Hfit Hhead Hnot Hlist. unfold load_csv in *. rewrite Hfile in *.
  destruct (read_dataset_rows Hfit) as (rs & E & El & ->).
  rewrite El in Hlist. injection Hlist as Hrows.
  unfold header_row in Hhead. rewrite E in Hhead.
  destruct rs as [|fieldnames rs]; [discriminate|]. injection Hhead as ->.
  rewrite Hrows. simpl load_dict. unfold PyDict.getitem.
  assert (In r (Csv.DictReader (names :: rs))) as I by (rewrite Hrows; now left).
  simpl in I. apply in_map_iff in I. destruct I as (row & <- & _).
  destruct (PyDict.get (PStr ACCOUNT_KEY) (Csv.DictReader_next names row)) eqn:G;
    [|reflexivity].
  exfalso. apply Hnot. apply (proj1 (@DictReader_next_has_field names row ACCOUNT_KEY)).
  congruence.
Qed.

Lemma dict_load_raises_without_the_key_column_witness :
  load_csv "other.csv" MAPPING_HEADERS true
    (world_with_file "other.csv" (line "Id,Name" ++ line "C1,Acme"))
  = (Raise (KeyError (PStr ACCOUNT_KEY)),
     world_with_file "other.csv" (line "Id,Name" ++ line "C1,Acme")).
Proof.
  apply (@dict_load_raises_without_the_key_column "other.csv" MAPPING_HEADERS
           (world_with_file "other.csv" (line "Id,Name" ++ line "C1,Acme"))
           (line "Id,Name" ++ line "C1,Acme") ["Id"; "Name"]
           [(PStr "Id", PStr "C1"); (PStr "Name", PStr "Acme")] []).
  - reflexivity.
  - unfold fits_field_limit, field_size_limit. simpl. lia.
  - reflexivity.
  - simpl. intuition discriminate.
  - reflexivity.
Defined.

(** ** The byte order mark *)

Lemma substring_all (s : string) : String.substring 0 (String.length s) s = s.
Proof. induction s as [|c s IH]; simpl; [reflexivity | now rewrite IH]. Qed.

Lemma strip_bom_marked (s : string) : TextIO.strip_bom (TextIO.BOM ++ s) = s.
Proof.
  unfold TextIO.strip_bom.
  change (TextIO.BOM ++ s)%string
    with (String (ascii_of_nat 239) (String (ascii_of_nat 187)
            (String (ascii_of_nat 191) s))).
  assert (String.prefix TextIO.BOM
            (String (ascii_of_nat 239) (String (ascii_of_nat 187)
               (String (ascii_of_nat 191) s))) = true) as -> by (destruct s; reflexivity).
  cbn [String.length]. rewrite Nat.sub_succ, Nat.sub_succ, Nat.sub_succ, Nat.sub_0_r.
  cbn [String.substring]. apply substring_all.
Qed.

(** A byte order mark at the start of a file is dropped: the file
    loads, in either mode, as the file without the mark does. *)
Theorem leading_bom_is_ignored
  (filename : string) (headers : list string) (load_as_dict : bool)
  (w w0 : world) (text : string) :
  String.prefix TextIO.BOM text = false ->
  fs w filename = Some (TextIO.BOM ++ text)%string ->
  fs w0 filename = Some text ->
  fst (load_csv filename headers load_as_dict w)
  = fst (load_csv filename headers load_as_dict w0).
Proof.
  intros Hp Hw Hw0. unfold load_csv. rewrite Hw, Hw0. cbn [fst].
  unfold read_dataset, TextIO.read_lines. cbv zeta. rewrite strip_bom_marked.
  unfold TextIO.strip_bom. now rewrite Hp.
Qed.

Lemma leading_bom_is_ignored_witness :
  fst (load_csv DEFAULT_MAPPING_CSV_FILENAME MAPPING_HEADERS true
         (world_with_file DEFAULT_MAPPING_CSV_FILENAME
            (TextIO.BOM ++ example_mapping_file)))
  = fst (load_csv DEFAULT_MAPPING_CSV_FILENAME MAPPING_HEADERS true
           (world_with_file DEFAULT_MAPPING_CSV_FILENAME example_mapping_file)).
Proof.
  apply (@leading_bom_is_ignored DEFAULT_MAPPING_CSV_FILENAME MAPPING_HEADERS true
           (world_with_file DEFAULT_MAPPING_CSV_FILENAME
              (TextIO.BOM ++ example_mapping_file))
           (world_with_file DEFAULT_MAPPING_CSV_FILENAME example_mapping_file)
           example_mapping_file);
    reflexivity.
Defined.

(** ** The csv reader reads what the csv writer wrote *)

Lemma fits_within_field_limit (s : string) :
  fits_field_limit s -> within_field_limit s.
Proof.
  unfold fits_field_limit, within_field_limit.
  pose proof (code_points_le_length s). lia.
Qed.

Lemma cells_fit_within_field_limit (cells : list string) :
  cells_fit_field_limit cells -> cells_within_field_limit cells.
Proof. intros H c I. now apply fits_within_field_limit, H. Qed.

Lemma strip_bom_written (sep : string) (cellss : list (list string)) :
  known_linesep sep ->
  TextIO.strip_bom (TextIO.write_text sep (lines_text cellss))
  = TextIO.write_text sep (lines_text cellss).
Proof.
  intros Hsep. destruct cellss as [|[|c cs] cellss]; [reflexivity| |].
  - rewrite lines_text_cons. destruct Hsep as [-> | ->]; reflexivity.
  - destruct (lines_text_starts_with_quote sep c cs cellss) as [s ->].
    apply strip_bom_quote.
Qed.

(** Rows of cells that hold no carriage return (they may hold quotes,
    commas and line feeds) and are within the limit on the size of a
    field are written as text to a file, in the
    dialect the source selects, and read from it: the reader returns
    them cell for cell; on a host whose line separator is CR LF it
    returns a blank row after each, which DictReader skips. *)
Theorem reader_returns_the_cells_written
  (sep : string) (cellss : list (list string)) :
  known_linesep sep ->
  (forall cells, In cells cellss -> no_cr cells) ->
  (forall cells, In cells cellss -> cells_fit_field_limit cells) ->
  Csv.reader Csv.parse_reset
    (TextIO.read_lines (TextIO.write_text sep (lines_text cellss)))
  = Ok (flat_map (fun cells => cells :: blank_rows sep) cellss)
  /\ filter (fun r => negb (Csv.is_blank r))
       (flat_map (fun cells => cells :: blank_rows sep) cellss)
     = filter (fun r => negb (Csv.is_blank r)) cellss.
Proof.
  intros Hsep Hcr Hfit. split.
  - unfold TextIO.read_lines. rewrite strip_bom_written by assumption.
    apply read_written; [assumption | assumption |].
    intros cells I. now apply cells_fit_within_field_limit, Hfit.
  - clear Hcr Hfit. induction cellss as [|cells cellss IH]; [reflexivity|].
    simpl. rewrite filter_app, IH.
    unfold blank_rows. now destruct (String.eqb sep CRLF).
Qed.

Lemma reader_returns_the_cells_written_witness :
  Csv.reader Csv.parse_reset
    (TextIO.read_lines (TextIO.write_text CRLF (lines_text awkward_cells)))
  = Ok (flat_map (fun cells => cells :: blank_rows CRLF) awkward_cells)
  /\ filter (fun r => negb (Csv.is_blank r))
       (flat_map (fun cells => cells :: blank_rows CRLF) awkward_cells)
     = filter (fun r => negb (Csv.is_blank r)) awkward_cells.
Proof.
  apply (@reader_returns_the_cells_written CRLF awkward_cells).
  - right. reflexivity.
  - intros cells [<-|[<-|[<-|[]]]] c; simpl; intuition (subst; reflexivity).
  - intros cells [<-|[<-|[<-|[]]]] c; simpl; intros I;
      unfold fits_field_limit, field_size_limit;
      repeat (destruct I as [<-|I]; [simpl; lia|]); destruct I.
Defined.

(** ** Loading a written table as a list *)

Lemma row_cells_fields (rt : runtime) (headers : list string) (r : record) :
  row_cells rt headers r
  = map (fun h => DictWriter.cell_text rt (field_or_restval r h)) (set_iter rt headers).
Proof. reflexivity. Qed.

(** A table whose rows have no field outside the headers, no
    carriage return in a cell and no cell over the limit on the size
    of a field is written and loaded as a list: the
    rows come back in the order written, each with exactly the header
    fields; a string comes back as it was, and a field that was None
    or missing comes back as the empty string. *)
Theorem written_table_loads_as_list
  (rt : runtime) (filename : string) (headers : list string) (rows : list record)
  (w : world) :
  iter_ok rt headers -> NoDup headers -> headers <> [] -> no_cr headers ->
  known_linesep (os_linesep rt) ->
  (forall r, In r rows -> DictWriter.wrong_fields headers r = []) ->
  (forall r, In r rows -> no_cr (row_cells rt headers r)) ->
  cells_fit_field_limit headers ->
  (forall r, In r rows -> cells_fit_field_limit (row_cells rt headers r)) ->
  exists content loaded,
    write_csv rt filename headers rows w
    = (Ok true, mkWorld (fs_put filename content (fs w)) (stdin w)
                  (trace w ++ [EvWrite filename content]))
    /\ (forall w', fs w' filename = Some content ->
        load_csv filename headers false w' = (Ok (DList loaded), w'))
    /\ Forall2 (fun r r' =>
                  has_fields headers r'
                  /\ forall h, In h headers ->
                       PyDict.get (PStr h) r'
                       = Some (PStr (DictWriter.cell_text rt (field_or_restval r h))))
               rows loaded.
Proof.
  intros P ND Hne Hcr Hsep Hok Hcells Hfh Hfc.
  assert (NoDup (set_iter rt headers)) as NDi
    by (apply (Permutation_NoDup (Permutation_sym P) ND)).
  assert (forall h, In h (set_iter rt headers) <-> In h headers) as Hin.
  { intros h. split; [apply (Permutation_in _ P)
                     | apply (Permutation_in _ (Permutation_sym P))]. }
  exists (TextIO.write_text (os_linesep rt) (table_text rt headers rows)),
    (map (reload rt headers) rows).
  split; [|split].
  - now apply write_csv_ok.
  - intros w' Hfile. unfold load_csv. rewrite Hfile, table_text_lines.
    rewrite read_table_text; [now rewrite map_map | assumption | | | | |].
    + intros E. destruct headers as [|h hs]; [congruence|].
      assert (In h (set_iter rt (h :: hs))) as I by (apply Hin; now left).
      rewrite E in I. destruct I.
    + intros h I. apply Hcr. now apply Hin.
    + intros cells I. apply in_map_iff in I. destruct I as (r & <- & I).
      split; [now apply Hcells|].
      unfold row_cells. destruct headers as [|h hs]; [congruence|].
      assert (In h (set_iter rt (h :: hs))) as I' by (apply Hin; now left).
      destruct (set_iter rt (h :: hs)); [destruct I' | discriminate].
    + intros h I. apply fits_within_field_limit, Hfh. now apply Hin.
    + intros cells I. apply in_map_iff in I. destruct I as (r & <- & I).
      now apply cells_fit_within_field_limit, Hfc.
  - clear Hok Hcells Hfc. induction rows as [|r rows IH]; constructor; [|exact IH].
    rewrite reload_zip by assumption. rewrite row_cells_fields. split.
    + intros k. rewrite keys_zip_map. split; intros I; apply in_map_iff in I;
        destruct I as (h & <- & I); apply in_map; now apply Hin.
    + intros h I. apply get_zip_map. now apply Hin.
Qed.

Lemma written_table_loads_as_list_witness :
  exists content loaded,
    write_csv example_runtime "gaps.csv" MAPPING_HEADERS [row_with_gaps] (example_world [])
    = (Ok true, mkWorld (fs_put "gaps.csv" content (fs (example_world [])))
                  (stdin (example_world []))
                  (trace (example_world []) ++ [EvWrite "gaps.csv" content]))
    /\ (forall w', fs w' "gaps.csv" = Some content ->
        load_csv "gaps.csv" MAPPING_HEADERS false w' = (Ok (DList loaded), w'))
    /\ Forall2 (fun r r' =>
                  has_fields MAPPING_HEADERS r'
                  /\ forall h, In h MAPPING_HEADERS ->
                       PyDict.get (PStr h) r'
                       = Some (PStr (DictWriter.cell_text example_runtime
                                       (field_or_restval r h))))
               [row_with_gaps] loaded.
Proof.
  apply (@written_table_loads_as_list example_runtime "gaps.csv" MAPPING_HEADERS
           [row_with_gaps] (example_world [])).
  - apply Permutation_refl.
  - apply nodup_mapping_headers.
  - discriminate.
  - intros h [<-|[<-|[<-|[]]]]; reflexivity.
  - left. reflexivity.
  - intros r [<-|[]]. reflexivity.
  - intros r [<-|[]] c [<-|[<-|[<-|[]]]]; reflexivity.
  - intros c [<-|[<-|[<-|[]]]]; unfold fits_field_limit, field_size_limit; simpl; lia.
  - intros r [<-|[]] c [<-|[<-|[<-|[]]]];
      unfold fits_field_limit, field_size_limit; simpl; lia.
Defined.

(** ** A cell over the limit on the size of a field *)
















(** ** A write that raises *)

Lemma writerows_stops_at_bad_row (rt : runtime) (headers : list string)
  (pre post : list record) (bad : record) :
  (forall r, In r pre -> fields_ok headers r) ->
  ~ fields_ok headers bad ->
  DictWriter.writerows rt headers (pre ++ bad :: post)
  = (rows_text rt headers pre, Some ValueError).
Proof.
  intros Hpre Hbad. induction pre as [|r pre IH].
  - simpl. now rewrite writerow_bad.
  - rewrite <- app_comm_cons. simpl DictWriter.writerows.
    rewrite dict_to_list_ok by (apply Hpre; now left).
    rewrite IH by (intros r' I; apply Hpre; now right).
    unfold rows_text. simpl map. now rewrite concat_cons.
Qed.

(** A write stops at the first row that has a field outside the
    headers: it raises ValueError, and the file, truncated when it
    was opened, holds the header line and the lines of the rows
    before that row. *)
Theorem write_stops_at_the_first_bad_row
  (rt : runtime) (filename : string) (headers : list string)
  (pre post : list record) (bad : record) (w : world) :
  iter_ok rt headers -> NoDup headers ->
  (forall r, In r pre -> DictWriter.wrong_fields headers r = []) ->
  DictWriter.wrong_fields headers bad <> [] ->
  let content := TextIO.write_text (os_linesep rt) (table_text rt headers pre) in
  write_csv rt filename headers (pre ++ bad :: post) w
  = (Raise ValueError,
     mkWorld (fs_put filename content (fs w)) (stdin w)
       (trace w ++ [EvWrite filename content])).
Proof.
  intros P ND Hpre Hbad content. unfold write_csv.
  rewrite writeheader_ok, writerows_stops_at_bad_row by assumption.
  reflexivity.
Qed.

Lemma write_stops_at_the_first_bad_row_witness :
  let content := TextIO.write_text (os_linesep example_runtime)
                   (table_text example_runtime BILLING_HEADERS [example_row]) in
  write_csv example_runtime "out.csv" BILLING_HEADERS
    ([example_row] ++ row_with_both_names :: [second_row]) (example_world [])
  = (Raise ValueError,
     mkWorld (fs_put "out.csv" content (fs (example_world [])))
       (stdin (example_world []))
       (trace (example_world []) ++ [EvWrite "out.csv" content])).
Proof.
  apply (@write_stops_at_the_first_bad_row example_runtime "out.csv" BILLING_HEADERS
           [example_row] [second_row] row_with_both_names (example_world [])).
  - apply Permutation_refl.
  - apply nodup_billing_headers.
  - intros r [<-|[]]. reflexivity.
  - discriminate.
Defined.

(** ** Ragged rows, from the source to the destination *)

Lemma writerow_raise_inv (rt : runtime) (headers : list string) (r : record) (e : exn) :
  DictWriter.writerow rt headers r = Raise e -> e = ValueError.
Proof.
  unfold DictWriter.writerow, DictWriter.dict_to_list.
  destruct (DictWriter.wrong_fields headers r); [discriminate|].
  now intros [= <-].
Qed.

Lemma writerows_bad_row (rt : runtime) (headers : list string) (rows : list record)
  (bad : record) :
  In bad rows -> ~ fields_ok headers bad ->
  snd (DictWriter.writerows rt headers rows) = Some ValueError.
Proof.
  intros I Hbad. induction rows as [|r rows IH]; [destruct I|].
  simpl. destruct (DictWriter.writerow rt headers r) as [text|e] eqn:E.
  - destruct I as [->|I].
    + apply writerow_ok_inv in E. contradiction.
    + specialize (IH I).
      destruct (DictWriter.writerows rt headers rows) as [body err]. exact IH.
  - apply writerow_raise_inv in E. now subst.
Qed.

Lemma Forall2_in_left {A B} (R : A -> B -> Prop) (l : list A) (l' : list B) (a : A) :
  Forall2 R l l' -> In a l -> exists b, In b l' /\ R a b.
Proof.
  induction 1 as [|x y l l' Rxy _ IH]; intros I; [destruct I|].
  destruct I as [<-|I].
  - exists y. split; [now left | assumption].
  - destruct (IH I) as (b & Ib & Rb). exists b. split; [now right | assumption].
Qed.

(** A source line with more cells than the header has its surplus
    cells stored under the key None; that key goes through enrichment,
    and the final write of the enriched rows raises ValueError. *)
Theorem surplus_cells_make_the_final_write_fail
  (rt : runtime) (data out : list record) (table table' : mapping) (w w' : world)
  (names cells : list string) (user_filename : string) :
  List.length names < List.length cells ->
  In (Csv.DictReader_next names cells) data ->
  convert_formats rt data table w = (Ok (out, table'), w') ->
  PyDict.get PNone (Csv.DictReader_next names cells)
  = Some (PList (skipn (List.length names) cells))
  /\ fst (write_billing_csv rt out user_filename w') = Raise ValueError.
Proof.
  intros Hlen Hin Hrun.
  assert (PyDict.get PNone (Csv.DictReader_next names cells)
          = Some (PList (skipn (List.length names) cells))) as Hnone.
  { unfold Csv.DictReader_next. apply Nat.ltb_lt in Hlen. rewrite Hlen.
    apply get_set_eq. }
  split; [exact Hnone|].
  apply convert_formats_shape in Hrun.
  destruct (Forall2_in_left _ Hrun Hin) as (row' & Iout & v & ->).
  assert (~ fields_ok BILLING_HEADERS
            (rename_fields (PyDict.set (PStr "Account Number") v
                              (Csv.DictReader_next names cells)))) as Hbad.
  { intros Hok. pose proof (proj1 (wrong_fields_nil _ _) Hok PNone) as Hk.
    assert (In PNone (PyDict.keys
              (rename_fields (PyDict.set (PStr "Account Number") v
                                (Csv.DictReader_next names cells))))) as I.
    { destruct (in_dec pyval_eq_dec PNone (PyDict.keys
                  (rename_fields (PyDict.set (PStr "Account Number") v
                                    (Csv.DictReader_next names cells))))) as [I|NI];
        [assumption|].
      apply get_none_not_in in NI.
      rewrite rename_fields_frame, get_set_neq, Hnone in NI; try discriminate.
      intros s d _. split; discriminate. }
    apply Hk in I. discriminate I. }
  unfold write_billing_csv, write_csv.
  destruct (DictWriter.writeheader rt BILLING_HEADERS) as [head|e] eqn:Eh.
  - pose proof (@writerows_bad_row rt BILLING_HEADERS out _ Iout Hbad) as Hrows.
    destruct (DictWriter.writerows rt BILLING_HEADERS out) as [body err].
    simpl in Hrows. now subst.
  - apply (@writerow_raise_inv rt BILLING_HEADERS _ e) in Eh. now subst.
Qed.

Lemma surplus_cells_make_the_final_write_fail_witness :
  PyDict.get PNone long_row = Some (PList ["extra"])
  /\ fst (write_billing_csv example_runtime
            [enrich example_table example_row; enrich example_table long_row]
            "out.csv" (example_world []))
     = Raise ValueError.
Proof.
  apply (@surplus_cells_make_the_final_write_fail example_runtime
           [example_row; long_row]
           [enrich example_table example_row; enrich example_table long_row]
           example_table example_table (example_world []) (example_world [])
           ["Customer ID"; "Company Name"] ["C1"; "Acme"; "extra"] "out.csv").
  - simpl. lia.
  - right. left. reflexivity.
  - reflexivity.
Defined.

Lemma get_fold_set_none_other (l : list string) :
  forall (d : record) (k : pyval),
    ~ In k (map PStr l) ->
    PyDict.get k (fold_left (fun d h => PyDict.set (PStr h) PNone d) l d)
    = PyDict.get k d.
Proof.
  induction l as [|a l IH]; intros d k H; [reflexivity|].
  simpl. rewrite IH by (intros I; apply H; now right).
  apply get_set_neq. intros ->. apply H. now left.
Qed.

Lemma get_fold_set_none (l : list string) :
  forall (d : record) (h : string),
    In h l ->
    PyDict.get (PStr h) (fold_left (fun d h => PyDict.set (PStr h) PNone d) l d)
    = Some PNone.
Proof.
  induction l as [|a l IH]; intros d h I; [destruct I|].
  simpl. destruct (in_dec string_dec h l) as [Il|Nl]; [now apply IH|].
  destruct I as [->|I]; [|contradiction].
  rewrite get_fold_set_none_other; [apply get_set_eq|].
  intros I. apply in_map_iff in I. destruct I as (x & [= ->] & I). contradiction.
Qed.

(** The fields of a row that is not longer than its header row are
    named by the header row. *)
Lemma short_row_keys (names cells : list string) (k : pyval) :
  List.length cells <= List.length names ->
  In k (PyDict.keys (Csv.DictReader_next names cells)) ->
  exists s, k = PStr s /\ In s names.
Proof.
  intros Hlen I.
  assert (forall n l, In k (map PStr (firstn n l)) \/ In k (map PStr (skipn n l)) ->
          exists s, k = PStr s /\ In s l) as Hpart.
  { intros n l H. rewrite <- in_app_iff, <- map_app, firstn_skipn in H.
    apply in_map_iff in H. destruct H as (s & <- & H). now exists s. }
  unfold Csv.DictReader_next in I.
  assert ((List.length names <? List.length cells)%nat = false) as E
    by (apply Nat.ltb_ge; lia).
  rewrite E in I.
  destruct (List.length cells <? List.length names)%nat.
  - rewrite (keys_fold_set PStr (fun _ => PNone)) in I.
    rewrite keys_zip_dict in I. now apply (Hpart (List.length cells) names).
  - rewrite keys_zip_dict in I. apply (Hpart (List.length cells) names). now left.
Qed.

Lemma short_row_fields_ok (headers names cells : list string) :
  List.length cells <= List.length names ->
  (forall n, In n names -> In n headers) ->
  fields_ok headers (Csv.DictReader_next names cells).
Proof.
  intros Hlen Hsub. apply wrong_fields_nil. intros k I.
  destruct (@short_row_keys names cells k Hlen I) as (s & -> & Is).
  now apply in_fieldnames_in, Hsub.
Qed.

(** A source line with fewer cells than the header gets None under
    each header name it has no cell for.  A writer whose headers
    include the names of that header row accepts the row, and the file
    [write_csv] leaves has, in the row written for it, an empty cell
    in the column of each such name. *)
Theorem missing_cells_are_written_empty
  (rt : runtime) (filename : string) (headers names cells : list string) (h : string)
  (w : world) :
  iter_ok rt headers -> NoDup headers ->
  List.length cells < List.length names ->
  In h (skipn (List.length cells) names) ->
  (forall n, In n names -> In n headers) ->
  let row := Csv.DictReader_next names cells in
  let written := cells_of rt headers row in
  let content := FileFormat.text (os_linesep rt) [set_iter rt headers; written] in
  PyDict.get (PStr h) row = Some PNone
  /\ DictWriter.writerow rt headers row = Ok (Csv.writerow written)
  /\ write_csv rt filename headers [row] w
     = (Ok true, mkWorld (fs_put filename content (fs w)) (stdin w)
                   (trace w ++ [EvWrite filename content]))
  /\ (exists i, nth_error (set_iter rt headers) i = Some h)
  /\ (forall i, nth_error (set_iter rt headers) i = Some h ->
      nth_error written i = Some EmptyString).
Proof.
  intros P ND Hlen Hin Hsub row written content.
  assert (PyDict.get (PStr h) row = Some PNone) as Hget.
  { unfold row, Csv.DictReader_next.
    assert ((List.length names <? List.length cells)%nat = false) as ->
      by (apply Nat.ltb_ge; lia).
    apply Nat.ltb_lt in Hlen. rewrite Hlen. now apply get_fold_set_none. }
  assert (fields_ok headers row) as Hok
    by (apply short_row_fields_ok; [lia | assumption]).
  split; [exact Hget|]. split; [|split; [|split]].
  - unfold written. rewrite <- row_cells_of. now apply dict_to_list_ok.
  - rewrite write_csv_ok; [| assumption | assumption | intros r [<-|[]]; exact Hok].
    now rewrite written_table_is_csv_file.
  - apply In_nth_error. apply (Permutation_in _ (Permutation_sym P)).
    apply Hsub. rewrite <- (firstn_skipn (List.length cells) names).
    apply in_app_iff. now right.
  - intros i Hi. unfold written, cells_of. rewrite nth_error_map, Hi.
    cbn [option_map]. unfold field_text. now rewrite Hget.
Qed.

Lemma missing_cells_are_written_empty_witness :
  let row := Csv.DictReader_next MAPPING_HEADERS ["C1"; "Acme"] in
  let written := cells_of example_runtime MAPPING_HEADERS row in
  let content :=
    FileFormat.text (os_linesep example_runtime)
      [set_iter example_runtime MAPPING_HEADERS; written] in
  PyDict.get (PStr "Account Number") row = Some PNone
  /\ DictWriter.writerow example_runtime MAPPING_HEADERS row = Ok (Csv.writerow written)
  /\ write_csv example_runtime "short.csv" MAPPING_HEADERS [row] (example_world [])
     = (Ok true, mkWorld (fs_put "short.csv" content (fs (example_world [])))
                   (stdin (example_world []))
                   (trace (example_world []) ++ [EvWrite "short.csv" content]))
  /\ (exists i, nth_error (set_iter example_runtime MAPPING_HEADERS) i
                = Some "Account Number")
  /\ (forall i, nth_error (set_iter example_runtime MAPPING_HEADERS) i
                = Some "Account Number" ->
      nth_error written i = Some EmptyString).
Proof.
  apply (@missing_cells_are_written_empty example_runtime "short.csv" MAPPING_HEADERS
           MAPPING_HEADERS ["C1"; "Acme"] "Account Number" (example_world [])).
  - apply Permutation_refl.
  - apply nodup_mapping_headers.
  - simpl. lia.
  - simpl. now left.
  - intros n I. exact I.
Defined.

(** ** The main program and its files *)

(** When the source file is missing the program stops with
    FileNotFoundError before anything else: the mapping file is not
    created, nothing is asked, nothing is written. *)
Theorem missing_source_stops_the_program (rt : runtime) (a : args) (w : world) :
  fs w (source_csv_filename a) = None ->
  main rt a w = (Raise (FileNotFoundError (source_csv_filename a)), w).
Proof.
  intros H. unfold main, bind, load_csv. now rewrite H.
Qed.

Lemma missing_source_stops_the_program_witness :
  main example_runtime default_args (example_world ["ACC-1"])
  = (Raise (FileNotFoundError DEFAULT_SOURCE_CSV_FILENAME), example_world ["ACC-1"]).
Proof.
  apply (@missing_source_stops_the_program example_runtime default_args
           (example_world ["ACC-1"])).
  reflexivity.
Defined.

(** When the mapping file is missing, the program creates it empty,
    after the source file is loaded, and goes on with an empty mapping
    table: the rows are processed from the world in which the file
    exists, then the destination is written. *)
Theorem missing_mapping_file_is_created_empty
  (rt : runtime) (a : args) (w : world) (rows : list record) :
  load_csv (source_csv_filename a) SOURCE_HEADERS false w = (Ok (DList rows), w) ->
  fs w DEFAULT_MAPPING_CSV_FILENAME = None ->
  main rt a w
  = match convert_formats rt rows PyDict.empty (touched w) with
    | (Ok processed, w1) => write_billing_csv rt (fst processed) (dest_csv_filename a) w1
    | (Raise e, w1) => (Raise e, w1)
    end.
Proof.
  intros Hsrc Hmap. unfold main, bind. rewrite Hsrc.
  unfold touch_if_missing. rewrite Hmap.
  unfold load_csv, emit. cbn [fs stdin trace]. rewrite fs_put_same.
  reflexivity.
Qed.

Lemma missing_mapping_file_is_created_empty_witness :
  main example_runtime example_args first_run_world
  = match convert_formats example_runtime [example_row] PyDict.empty
            (touched first_run_world) with
    | (Ok processed, w1) => write_billing_csv example_runtime (fst processed) "out.csv" w1
    | (Raise e, w1) => (Raise e, w1)
    end.
Proof.
  apply (@missing_mapping_file_is_created_empty example_runtime example_args
           first_run_world [example_row]); reflexivity.
Defined.

(** ** Renaming a field the row has *)

Lemma get_del_same {V} (k : pyval) (d : PyDict.t V) :
  NoDup (PyDict.keys d) -> PyDict.get k (PyDict.del k d) = None.
Proof.
  induction d as [|[k' v'] d IH]; intros ND; [reflexivity|].
  inversion ND as [|? ? NI ND']; subst. simpl.
  destruct (pyval_eq_dec k k') as [->|N].
  - now apply get_none_not_in.
  - simpl. destruct (pyval_eq_dec k k'); [contradiction | now apply IH].
Qed.

(** A row that has the source field of the shipped rename table
    leaves the renaming without it and with its value under the
    destination name, whatever the destination field held; the other
    fields are as they were. *)
Theorem rename_moves_the_source_field (row : record) (v : pyval) :
  NoDup (PyDict.keys row) ->
  PyDict.get (PStr "SOURCE_FIELD_NAME") row = Some v ->
  PyDict.get (PStr "DESTINATION_FIELD_NAME") (rename_fields row) = Some v
  /\ PyDict.get (PStr "SOURCE_FIELD_NAME") (rename_fields row) = None
  /\ forall k, k <> PStr "SOURCE_FIELD_NAME" -> k <> PStr "DESTINATION_FIELD_NAME" ->
               PyDict.get k (rename_fields row) = PyDict.get k row.
Proof.
  intros ND H.
  assert (rename_fields row
          = PyDict.del (PStr "SOURCE_FIELD_NAME")
              (PyDict.set (PStr "DESTINATION_FIELD_NAME") v row)) as ->
    by (unfold rename_fields; simpl; now rewrite H).
  split; [|split].
  - rewrite get_del_neq by discriminate. apply get_set_eq.
  - apply get_del_same. now apply nodup_keys_set.
  - intros k N1 N2. now rewrite get_del_neq, get_set_neq.
Qed.

Lemma rename_moves_the_source_field_witness :
  PyDict.get (PStr "DESTINATION_FIELD_NAME") (rename_fields row_with_both_names)
  = Some (PStr "x")
  /\ PyDict.get (PStr "SOURCE_FIELD_NAME") (rename_fields row_with_both_names) = None
  /\ forall k, k <> PStr "SOURCE_FIELD_NAME" -> k <> PStr "DESTINATION_FIELD_NAME" ->
               PyDict.get k (rename_fields row_with_both_names)
               = PyDict.get k row_with_both_names.
Proof.
  apply (@rename_moves_the_source_field row_with_both_names (PStr "x")).
  - repeat constructor; simpl; intuition discriminate.
  - reflexivity.
Defined.

(** ** Default names of the destination *)

Lemma digit_inj (a b : N) : digit a = digit b -> (a mod 10 = b mod 10)%N.
Proof.
  unfold digit. intros H. apply (f_equal N_of_ascii) in H.
  assert (a mod 10 < 10)%N by (apply N.mod_upper_bound; lia).
  assert (b mod 10 < 10)%N by (apply N.mod_upper_bound; lia).
  rewrite !N_ascii_embedding in H by lia. lia.
Qed.

Lemma tens_and_units (a : N) : (a = 10 * (a / 10) + a mod 10)%N.
Proof. apply N.div_mod'. Qed.

Lemma two_digits_inj (a b : N) :
  (a < 100)%N -> (b < 100)%N -> two_digits a = two_digits b -> a = b.
Proof.
  intros Ha Hb H. unfold two_digits, str1 in H. injection H as H1 H0.
  apply digit_inj in H1, H0.
  assert (a / 10 < 10)%N by (apply N.Div0.div_lt_upper_bound; lia).
  assert (b / 10 < 10)%N by (apply N.Div0.div_lt_upper_bound; lia).
  rewrite !N.mod_small in H1 by assumption.
  pose proof (tens_and_units a). pose proof (tens_and_units b). lia.
Qed.

Lemma four_digits_inj (a b : N) :
  (a < 10000)%N -> (b < 10000)%N -> four_digits a = four_digits b -> a = b.
Proof.
  intros Ha Hb H. unfold four_digits, two_digits, str1 in H.
  injection H as H3 H2 H1 H0. apply digit_inj in H3, H2, H1, H0.
  assert (forall n, (n < 10000 -> n / 1000 < 10)%N) as Hk
    by (intros n Hn; apply N.Div0.div_lt_upper_bound; lia).
  rewrite !N.mod_small in H3 by now apply Hk.
  assert (forall n, (n / 100 = 10 * (n / 1000) + (n / 100) mod 10)%N) as Hh.
  { intros n. rewrite (tens_and_units (n / 100)) at 1.
    rewrite N.Div0.div_div. reflexivity. }
  assert (forall n, (n / 10 = 10 * (n / 100) + (n / 10) mod 10)%N) as Ht.
  { intros n. rewrite (tens_and_units (n / 10)) at 1.
    rewrite N.Div0.div_div. reflexivity. }
  pose proof (Hh a). pose proof (Hh b). pose proof (Ht a). pose proof (Ht b).
  pose proof (tens_and_units a). pose proof (tens_and_units b). lia.
Qed.

Lemma append_inv_head (p a b : string) : (p ++ a = p ++ b)%string -> a = b.
Proof. induction p as [|c p IH]; simpl; [trivial|]. intros [= H]. now apply IH. Qed.

(** Two runs that compute the name of their destination file, at
    clock readings that differ, compute different names: a run does
    not overwrite the destination of a run of another minute. *)
Theorem default_names_differ_between_minutes (rt1 rt2 : runtime) :
  valid_clock (now rt1) -> valid_clock (now rt2) ->
  billing_filename rt1 DEFAULT_DEST_CSV_FILENAME
  = billing_filename rt2 DEFAULT_DEST_CSV_FILENAME ->
  now rt1 = now rt2.
Proof.
  intros V1 V2. unfold billing_filename. rewrite String.eqb_refl.
  rewrite !strftime_stamp by assumption.
  intros H. apply append_inv_head in H.
  destruct (now rt1) as [y1 m1 d1 h1 n1], (now rt2) as [y2 m2 d2 h2 n2].
  unfold valid_clock in V1, V2. cbn [year month day hour minute] in *.
  unfold YYYYMMDD_HHMM in H. cbn [year month day hour minute] in H.
  unfold four_digits, two_digits, str1 in H. cbn [append] in H.
  injection H as Y3 Y2 Y1 Y0 M1 M0 D1 D0 H1 H0 N1 N0.
  assert (four_digits y1 = four_digits y2) as Ey
    by (unfold four_digits, two_digits, str1; congruence).
  assert (two_digits m1 = two_digits m2) as Em by (unfold two_digits, str1; congruence).
  assert (two_digits d1 = two_digits d2) as Ed by (unfold two_digits, str1; congruence).
  assert (two_digits h1 = two_digits h2) as Eh by (unfold two_digits, str1; congruence).
  assert (two_digits n1 = two_digits n2) as En by (unfold two_digits, str1; congruence).
  apply four_digits_inj in Ey; [|lia|lia].
  apply two_digits_inj in Em, Ed, Eh, En; try lia.
  congruence.
Qed.

Lemma default_names_differ_between_minutes_witness :
  now example_runtime = now same_minute_runtime.
Proof.
  apply (@default_names_differ_between_minutes example_runtime same_minute_runtime).
  - exact example_clock_valid.
  - unfold valid_clock. simpl. lia.
  - reflexivity.
Defined.
